(** * Invoice analysis pipeline (src/app.py): shallow embedding and properties

    The script reads three CSV tables with pandas, splits the invoice ledger at
    a cutoff date, keeps the clients of the contact export that have no
    invoice before the cutoff, and sums the remaining invoices per client.

    The embedding follows the body of the "Process Files" handler
    (src/app.py lines 106-247) statement by statement.  A pandas DataFrame is
    a header list plus a list of rows; every pandas operation the handler uses
    is written out on that representation.  The handler runs inside
    [try ... except Exception], so every Python exception is modelled as an
    [Err] outcome of the run. *)

From Stdlib Require Import List String Ascii Bool ZArith QArith Qcanon Lia.
From Stdlib Require Import DecimalString Permutation Sorted.
Import ListNotations.
Open Scope string_scope.
Open Scope Z_scope.

(** ** Python strings *)

Module PyStr.

(** [c.lower()] on one byte.  Header names are UTF-8 byte strings; the
    keywords searched below are ASCII, no byte of a multi-byte UTF-8 sequence
    is ASCII, and no keyword contains the letter k or ends with the letter i
    (the only ASCII letters a non-ASCII character can lower-case to), so
    lower-casing the ASCII letters decides the same containment tests as
    Python's [str.lower]. *)
Definition lower_ascii (c : ascii) : ascii :=
  let n := nat_of_ascii c in
  if (andb (Nat.leb 65 n) (Nat.leb n 90)) then ascii_of_nat (n + 32) else c.

Fixpoint lower (s : string) : string :=
  match s with
  | EmptyString => EmptyString
  | String c s' => String (lower_ascii c) (lower s')
  end.

(** [needle in hay] *)
Fixpoint contains (needle hay : string) : bool :=
  match hay with
  | EmptyString => String.prefix needle EmptyString
  | String _ hay' => String.prefix needle hay || contains needle hay'
  end.

(** [re.sub(',', '.', s)], what [Series.replace({',': '.'}, regex=True)] does
    to a string cell. *)
Fixpoint replace_comma (s : string) : string :=
  match s with
  | EmptyString => EmptyString
  | String c s' =>
      String (if Ascii.eqb c ","%char then "."%char else c) (replace_comma s')
  end.

(** [sep.join(l)] *)
Fixpoint join (sep : string) (l : list string) : string :=
  match l with
  | [] => ""
  | [x] => x
  | x :: l' => x ++ sep ++ join sep l'
  end.

(** [str(n)] for a Python int *)
Definition of_Z (z : Z) : string := NilZero.string_of_int (Z.to_int z).

(** [bool(s)]: a string is truthy when it is not empty *)
Definition truthy (s : string) : bool :=
  match s with EmptyString => false | _ => true end.

(** [x in l] on a list of strings *)
Definition mem (x : string) (l : list string) : bool :=
  existsb (String.eqb x) l.

End PyStr.

(** ** Cells and frames *)

(** A value held in a DataFrame cell.  [read_csv] produces integers, floats,
    strings and the missing marker NaN; [to_datetime] produces timestamps
    (nanoseconds since the epoch) and the missing marker NaT.  An integer
    cell is a 64-bit integer.  A float cell holds the rational its float64
    denotes; the float64 operations that round are functions of the library
    below. *)
Inductive cell : Type :=
| CInt (z : Z)
| CFloat (q : Qc)
| CStr (s : string)
| CNaN
| CTime (t : Z)
| CNaT.

(** A row holds its cells in header order.  The headers of a frame are
    pairwise distinct, as [read_csv] makes them. *)
Definition row : Type := list cell.

Record frame : Type := mkFrame {
  columns : list string;
  rows : list row
}.

(** Exceptions the handler can raise. *)
Inductive error : Type :=
| KeyError (key : string)
| TypeError
| ValueError.

Inductive res (A : Type) : Type :=
| Ok (a : A)
| Err (e : error).
Arguments Ok {A} a.
Arguments Err {A} e.

Definition bind {A B : Type} (m : res A) (k : A -> res B) : res B :=
  match m with
  | Ok a => k a
  | Err e => Err e
  end.

Notation "'let*' x ':=' m 'in' k" := (bind m (fun x => k))
  (at level 10, x name, m at level 100, k at level 200).

Fixpoint mapM {A B : Type} (f : A -> res B) (l : list A) : res (list B) :=
  match l with
  | [] => Ok []
  | a :: l' => let* b := f a in let* bs := mapM f l' in Ok (b :: bs)
  end.

(** Library functions of pandas and Python whose text is not in the
    repository.  They are parameters of the development. *)
Class PandasLib : Type := {
  (** [pd.to_datetime(col, errors='coerce')] at one cell of the column [col];
      [None] is NaT.  The format pandas infers depends on the column. *)
  to_datetime : list cell -> cell -> option Z;
  (** the exception lines 120-124 raise on a date column, if any.  The
      column [pd.to_datetime] returns is timezone-aware when its texts carry
      a UTC offset, and comparing such a column with the naive
      [pd.Timestamp(cutoff_date)] raises TypeError. *)
  date_error : list cell -> option error;
  (** the integer [pd.to_numeric(..., errors='coerce')] reads from a string
      that is an integer literal within the 64-bit range; [None] for any
      other string (unsigned 64-bit columns are not represented) *)
  parse_int : string -> option Z;
  (** the float [pd.to_numeric] reads from any other string; [None] is NaN
      (infinities are not represented) *)
  parse_float : string -> option Qc;
  (** the float64 that ['sum'] of [groupby(...).agg] returns for the values
      of one group, given in row order without the missing ones *)
  group_sum : list Qc -> Qc;
  (** the float64 that [Series.sum()] returns for the values of a column,
      given in row order without the missing ones *)
  series_sum : list Qc -> Qc;
  (** [str(x)] for a float *)
  float_str : Qc -> string;
  (** the text [astype(str)] writes for a Timestamp, in the format pandas
      picks for the column *)
  timestamp_str : Z -> string
}.

Module Pandas.

(** Position of a column label in the header. *)
Fixpoint col_index (name : string) (cols : list string) : option nat :=
  match cols with
  | [] => None
  | c :: cols' =>
      if String.eqb c name then Some 0%nat
      else option_map S (col_index name cols')
  end.

(** [df[name]] resolves the label or raises KeyError. *)
Definition loc (name : string) (df : frame) : res nat :=
  match col_index name (columns df) with
  | Some i => Ok i
  | None => Err (KeyError name)
  end.

(** The cell of a row in column [i]; a short record is padded with NaN, as
    [read_csv] does. *)
Definition get (i : nat) (r : row) : cell := nth i r CNaN.

Definition column (i : nat) (df : frame) : list cell := map (get i) (rows df).

(** [df[names]] for a list of labels: the frame of these columns, or
    KeyError when a label is not a header. *)
Definition take (names : list string) (df : frame) : res frame :=
  let* idx := mapM (fun name => loc name df) names in
  Ok (mkFrame names (map (fun r => map (fun i => get i r) idx) (rows df))).

(** [df[mask]]: boolean indexing keeps the header and the rows, in order,
    whose mask entry is true. *)
Definition select (p : row -> bool) (df : frame) : frame :=
  mkFrame (columns df) (filter p (rows df)).

Fixpoint set_nth (i : nat) (c : cell) (r : row) : row :=
  match i, r with
  | O, [] => [c]
  | O, _ :: r' => c :: r'
  | S i', [] => CNaN :: set_nth i' c []
  | S i', x :: r' => x :: set_nth i' c r'
  end.

(** [df[col] = f(df[col])] for an element-wise [f]. *)
Definition map_col (i : nat) (f : cell -> cell) (df : frame) : frame :=
  mkFrame (columns df) (map (fun r => set_nth i (f (get i r)) r) (rows df)).

(** [df.rename(columns={old: new})] *)
Definition rename (old new : string) (df : frame) : frame :=
  mkFrame (map (fun c => if String.eqb c old then new else c) (columns df))
          (rows df).

(** Equality of two cells as [Series.isin] sees it: Python [==] on the
    values, except that a missing value matches a missing value of its own
    kind. *)
Definition cell_eqb (a b : cell) : bool :=
  match a, b with
  | CInt x, CInt y => Z.eqb x y
  | CInt x, CFloat q | CFloat q, CInt x => Qc_eq_bool q (Q2Qc (inject_Z x))
  | CFloat p, CFloat q => Qc_eq_bool p q
  | CStr s, CStr t => String.eqb s t
  | CNaN, CNaN => true
  | CTime s, CTime t => Z.eqb s t
  | CNaT, CNaT => true
  | _, _ => false
  end.

(** [x in values] for [Series.isin(values)] *)
Definition isin (values : list cell) (x : cell) : bool :=
  existsb (cell_eqb x) values.

(** [cell != 0], element of [df[col] != 0] *)
Definition ne_zero (c : cell) : bool :=
  match c with
  | CInt z => negb (Z.eqb z 0)
  | CFloat q => negb (Qc_eq_bool q (Q2Qc 0))
  | _ => true
  end.

(** A sum of 64-bit integers wraps around. *)
Definition wrap64 (z : Z) : Z := (z + 2 ^ 63) mod 2 ^ 64 - 2 ^ 63.

(** [float(z)] for a 64-bit integer: the nearest float64, which has 53
    significant bits; a tie goes to the even one. *)
Definition float_of_int (z : Z) : Z :=
  let a := Z.abs z in
  let e := Z.log2 a - 52 in
  if e <=? 0 then z
  else
    let q := Z.shiftr a e in
    let r := a - Z.shiftl q e in
    let half := Z.shiftl 1 (e - 1) in
    let q := if (half <? r) || ((r =? half) && Z.odd q) then q + 1 else q in
    Z.sgn z * Z.shiftl q e.

Section WithLib.
Context {L : PandasLib}.

(** [str(x)], element of [Series.astype(str)] *)
Definition to_str (c : cell) : string :=
  match c with
  | CInt z => PyStr.of_Z z
  | CFloat q => float_str q
  | CStr s => s
  | CNaN => "nan"
  | CTime t => timestamp_str t
  | CNaT => "NaT"
  end.

(** Element of [Series.replace({',': '.'}, regex=True)]: only strings are
    rewritten. *)
Definition replace_cell (c : cell) : cell :=
  match c with
  | CStr s => CStr (PyStr.replace_comma s)
  | _ => c
  end.

(** What [pd.to_numeric(col, errors='coerce')] reads from a cell as a 64-bit
    integer, if it does.  A datetime column is read as its nanosecond
    integers, NaT being the least 64-bit integer. *)
Definition to_int (c : cell) : option Z :=
  match c with
  | CInt z => Some z
  | CStr s => parse_int s
  | CTime t => Some t
  | CNaT => Some (- 2 ^ 63)
  | CFloat _ | CNaN => None
  end.

(** What it reads from a cell as a float; [None] is NaN. *)
Definition to_numeric (c : cell) : option Qc :=
  match to_int c with
  | Some z => Some (Q2Qc (inject_Z (float_of_int z)))
  | None =>
      match c with
      | CFloat q => Some q
      | CStr s => parse_float s
      | _ => None
      end
  end.

(** Element of the converted date column. *)
Definition date_cell (ctx : list cell) (c : cell) : cell :=
  match to_datetime ctx c with
  | Some t => CTime t
  | None => CNaT
  end.

End WithLib.

End Pandas.

(** ** Column resolution *)

Module Resolver.

Definition CLIENT_ID : string := "Numéro du client".
Definition AMOUNT : string := "Montant TTC de la ligne facture ou avoir".
Definition PRODUCT : string := "Nom du Produit".
Definition EMAIL : string := "Email".
Definition PRENOM_NOM : string := "Prenom_Nom".

(** The keyword tests of the list comprehensions (lines 112, 153, 154, 169,
    179, 196, 221), on one header. *)
Definition is_date (col : string) : bool :=
  PyStr.contains "date" (PyStr.lower col).

Definition is_email (col : string) : bool :=
  PyStr.contains "email" (PyStr.lower col).

Definition is_name (col : string) : bool :=
  PyStr.contains "nom" (PyStr.lower col) || PyStr.contains "name" (PyStr.lower col).

Definition is_client_num (col : string) : bool :=
  PyStr.contains "client" (PyStr.lower col)
  && (PyStr.contains "num" (PyStr.lower col) || PyStr.contains "id" (PyStr.lower col)).

Definition is_amount (col : string) : bool :=
  PyStr.contains "montant" (PyStr.lower col) || PyStr.contains "amount" (PyStr.lower col).

Definition is_product (col : string) : bool :=
  PyStr.contains "produit" (PyStr.lower col) || PyStr.contains "product" (PyStr.lower col).

(** [[col for col in cols if p(col)]] followed by [[0]] when the list is not
    empty. *)
Definition first_match (p : string -> bool) (cols : list string) : option string :=
  match filter p cols with
  | c :: _ => Some c
  | [] => None
  end.

(** The pattern of lines 194-198 and 219-223: the canonical name when it is a
    header, else the first header passing the keyword test, else the
    canonical name unchanged (the later [df[name]] then raises). *)
Definition with_fallback (canonical : string) (p : string -> bool)
    (cols : list string) : string :=
  if PyStr.mem canonical cols then canonical
  else match first_match p cols with
       | Some c => c
       | None => canonical
       end.

(** Lines 146-158: the two columns kept from the contact export. *)
Definition columns_to_keep (cols : list string) : list string :=
  match filter (fun c => negb (PyStr.mem c cols)) [EMAIL; PRENOM_NOM] with
  | [] => [EMAIL; PRENOM_NOM]
  | _ :: _ =>
      match first_match is_email cols, first_match is_name cols with
      | Some e, Some n => [e; n]
      | _, _ => [EMAIL; PRENOM_NOM]
      end
  end.

(** Lines 168-171 and 178-181: rename the first header passing the keyword
    test to the canonical name when the canonical name is not a header. *)
Definition rename_to (canonical : string) (p : string -> bool) (df : frame) : frame :=
  if PyStr.mem canonical (columns df) then df
  else match first_match p (columns df) with
       | Some c => Pandas.rename c canonical df
       | None => df
       end.

(** The logical fields of the handler and, for a header list, the physical
    header that plays each role: the date column of line 116, the first
    column kept from the contact export (line 174 reads it by position), the
    header that carries the canonical name after the renames of lines 171 and
    181, and the amount and product columns of lines 198 and 223.  [None]
    when the handler ends up with a name that is not a header. *)
Inductive field : Type :=
| FDate | FContactEmail | FClientEmail | FClientId | FAmount | FProduct.

Definition keyword (f : field) : string -> bool :=
  match f with
  | FDate => is_date
  | FContactEmail | FClientEmail => is_email
  | FClientId => is_client_num
  | FAmount => is_amount
  | FProduct => is_product
  end.

Definition present (name : string) (cols : list string) : option string :=
  if PyStr.mem name cols then Some name else None.

Definition renamed_from (canonical : string) (p : string -> bool)
    (cols : list string) : option string :=
  match Pandas.col_index canonical (columns (rename_to canonical p (mkFrame cols []))) with
  | Some i => nth_error cols i
  | None => None
  end.

Definition physical (f : field) (cols : list string) : option string :=
  match f with
  | FDate => first_match is_date cols
  | FContactEmail => present (hd EMAIL (columns_to_keep cols)) cols
  | FClientEmail => renamed_from EMAIL is_email cols
  | FClientId => renamed_from CLIENT_ID is_client_num cols
  | FAmount => present (with_fallback AMOUNT is_amount cols) cols
  | FProduct => present (with_fallback PRODUCT is_product cols) cols
  end.


End Resolver.

(** ** The handler *)

Module App.
Import Resolver.

Section WithLib.
Context {L : PandasLib}.

(** What the handler reads: the three parsed CSV files, the cutoff as the
    timestamp [pd.Timestamp(cutoff_date)], and the text returned by
    [st.text_input] on line 129. *)
Record inputs : Type := mkInputs {
  invoice_file : frame;
  boost_file : frame;
  clients_file : frame;
  cutoff : Z;
  date_col_name : string
}.

(** [cell < pd.Timestamp(cutoff)] and [cell >= pd.Timestamp(cutoff)] on a
    datetime cell; every comparison with NaT is false. *)
Definition lt_cutoff (cutoff : Z) (c : cell) : bool :=
  match c with
  | CTime t => Z.ltb t cutoff
  | _ => false
  end.

Definition ge_cutoff (cutoff : Z) (c : cell) : bool :=
  match c with
  | CTime t => Z.leb cutoff t
  | _ => false
  end.

(** Lines 120-124 (and 131-133): convert the date column, then split.  The
    conversion or the comparison with the cutoff can raise. *)
Definition split_by_date (date_col : string) (cutoff : Z) (all_invoices : frame)
    : res (frame * frame) :=
  let* i := Pandas.loc date_col all_invoices in
  match date_error (Pandas.column i all_invoices) with
  | Some e => Err e
  | None =>
      let all_invoices :=
        Pandas.map_col i (Pandas.date_cell (Pandas.column i all_invoices)) all_invoices in
      let resa := Pandas.select (fun r => lt_cutoff cutoff (Pandas.get i r)) all_invoices in
      let invoices :=
        Pandas.select (fun r => ge_cutoff cutoff (Pandas.get i r)) all_invoices in
      Ok (resa, invoices)
  end.

(** Lines 137-139: the index-based fallback. *)
Definition split_by_index (all_invoices : frame) : frame * frame :=
  let split_point := (List.length (rows all_invoices) / 2)%nat in
  (mkFrame (columns all_invoices) (firstn split_point (rows all_invoices)),
   mkFrame (columns all_invoices) (skipn split_point (rows all_invoices))).

(** Lines 112-139. *)
Definition partition (inp : inputs) : res (frame * frame) :=
  let all_invoices := invoice_file inp in
  match filter is_date (columns all_invoices) with
  | date_col :: _ => split_by_date date_col (cutoff inp) all_invoices
  | [] =>
      if PyStr.truthy (date_col_name inp)
         && PyStr.mem (date_col_name inp) (columns all_invoices)
      then split_by_date (date_col_name inp) (cutoff inp) all_invoices
      else Ok (split_by_index all_invoices)
  end.

(** Lines 145-160 and the [df.iloc[:, 0]] of line 174: the first kept column
    of the contact export. *)
Definition contact_emails (df : frame) : res (list cell) :=
  let* df := Pandas.take (columns_to_keep (columns df)) df in
  Ok (Pandas.column 0 df).

(** Lines 165-181: the clients known to the contact export, with the
    canonical headers in place. *)
Definition known_clients (clients : frame) (emails : list cell) : res frame :=
  let clients := rename_to EMAIL is_email clients in
  let* ie := Pandas.loc EMAIL clients in
  let clients := Pandas.select (fun r => Pandas.isin emails (Pandas.get ie r)) clients in
  Ok (rename_to CLIENT_ID is_client_num clients).

(** Lines 186-189: drop the clients that have an invoice before the cutoff. *)
Definition reconcile (clients resa : frame) : res frame :=
  let* ic := Pandas.loc CLIENT_ID clients in
  let* ir := Pandas.loc CLIENT_ID resa in
  let clients_in_resa :=
    Pandas.select (fun r => Pandas.isin (Pandas.column ir resa) (Pandas.get ic r)) clients in
  Ok (Pandas.select
        (fun r => negb (Pandas.isin (Pandas.column ic clients_in_resa) (Pandas.get ic r)))
        clients).

(** Lines 194-201: the amount column and the filter [!= 0]. *)
Definition amount_column (invoices : frame) : string :=
  with_fallback AMOUNT is_amount (columns invoices).

Definition drop_zero (amount_col : string) (invoices : frame) : res frame :=
  let* ia := Pandas.loc amount_col invoices in
  Ok (Pandas.select (fun r => Pandas.ne_zero (Pandas.get ia r)) invoices).

(** Lines 205-206: [astype(str)] on one column. *)
Definition astype_str (name : string) (df : frame) : res frame :=
  let* i := Pandas.loc name df in
  Ok (Pandas.map_col i (fun c => CStr (Pandas.to_str c)) df).

(** Line 209. *)
Definition restrict (invoices clients : frame) : res frame :=
  let* ii := Pandas.loc CLIENT_ID invoices in
  let* ic := Pandas.loc CLIENT_ID clients in
  Ok (Pandas.select
        (fun r => Pandas.isin (Pandas.column ic clients) (Pandas.get ii r)) invoices).

(** Lines 214-216.  [pd.to_numeric] returns an int64 column when it reads
    every cell as an integer, and a float64 column, with NaN for what it
    does not read, otherwise. *)
Definition integral (x : list cell) : bool :=
  forallb (fun c => match Pandas.to_int c with Some _ => true | None => false end) x.

Definition numeric_cell (int_col : bool) (c : cell) : cell :=
  if int_col then
    match Pandas.to_int c with
    | Some z => CInt z
    | None => CNaN
    end
  else
    match Pandas.to_numeric c with
    | Some q => CFloat q
    | None => CNaN
    end.

Definition normalize (amount_col : string) (invoices : frame) : res frame :=
  let* ia := Pandas.loc amount_col invoices in
  let invoices := Pandas.map_col ia Pandas.replace_cell invoices in
  Ok (Pandas.map_col ia (numeric_cell (integral (Pandas.column ia invoices))) invoices).

(** Lines 219-223. *)
Definition product_column (invoices : frame) : string :=
  with_fallback PRODUCT is_product (columns invoices).

(** [Series.unique()]: the values in order of first appearance.  [seen] is
    the hash table of the values met so far. *)
Fixpoint unique_from (seen : list cell) (x : list cell) : list cell :=
  match x with
  | [] => []
  | c :: x' =>
      if Pandas.isin seen c then unique_from seen x'
      else c :: unique_from (c :: seen) x'
  end.

Definition unique (x : list cell) : list cell := unique_from [] x.

(** The items [str.join] accepts: it raises TypeError on anything that is
    not a string. *)
Fixpoint str_items (x : list cell) : res (list string) :=
  match x with
  | [] => Ok []
  | CStr s :: x' => let* l := str_items x' in Ok (s :: l)
  | _ :: _ => Err TypeError
  end.

(** The lambda of line 230, applied to the product cells [x] of one group. *)
Definition products_of (product_col : string) (invoices : frame) (x : list cell)
    : res string :=
  if PyStr.mem product_col (columns invoices)
  then let* items := str_items (unique x) in Ok (PyStr.join ", " items)
  else Ok "N/A".

(** The integers and the floats among a list of cells. *)
Definition ints (x : list cell) : list Z :=
  flat_map (fun c => match c with CInt z => [z] | _ => [] end) x.

Definition floats (x : list cell) : list Qc :=
  flat_map (fun c => match c with CFloat q => [q] | _ => [] end) x.

Definition is_int (c : cell) : bool :=
  match c with CInt _ => true | _ => false end.

Definition zsum (l : list Z) : Z := fold_right Z.add 0 l.

(** The sum of the cells [x] of a numeric column, with the float sum [fsum]
    of the library: an int64 column adds up to an int64, which wraps around;
    in a float64 column NaN is skipped. *)
Definition sum_cells (fsum : list Qc -> Qc) (int_col : bool) (x : list cell) : cell :=
  if int_col then CInt (Pandas.wrap64 (zsum (ints x)))
  else CFloat (fsum (floats x)).

(** The group keys: the distinct strings of the key column, sorted
    ([groupby] sorts its keys; Python orders strings by code point, which is
    the byte order of their UTF-8 form). *)
Fixpoint distinct (l : list string) : list string :=
  match l with
  | [] => []
  | k :: l' => k :: filter (fun k' => negb (String.eqb k' k)) (distinct l')
  end.

Fixpoint insert_key (k : string) (l : list string) : list string :=
  match l with
  | [] => [k]
  | k' :: l' => if String.leb k k' then k :: l else k' :: insert_key k l'
  end.

Definition sort_keys (l : list string) : list string :=
  fold_right insert_key [] l.

(** The rows of the group of key [k], in table order.  The key column holds
    the strings written by line 205. *)
Definition group (ii : nat) (k : string) (invoices : frame) : list row :=
  filter (fun r => String.eqb (Pandas.to_str (Pandas.get ii r)) k) (rows invoices).

Definition group_keys (ii : nat) (invoices : frame) : list string :=
  sort_keys (distinct (map (fun r => Pandas.to_str (Pandas.get ii r)) (rows invoices))).

(** Lines 228-233.  [agg] raises KeyError for a dictionary key that is not a
    column.  When both dictionary keys are the same label the dictionary has
    the lambda as its only entry: the lambda then joins numbers (TypeError),
    or, without any group, the two-column result cannot take the three names
    of line 233 (ValueError). *)
Definition aggregate (amount_col product_col : string) (invoices : frame) : res frame :=
  let* ii := Pandas.loc CLIENT_ID invoices in
  let* ia := Pandas.loc amount_col invoices in
  let* ip := Pandas.loc product_col invoices in
  if String.eqb amount_col product_col then
    match rows invoices with
    | [] => Err ValueError
    | _ :: _ => Err TypeError
    end
  else
    let int_col := forallb is_int (Pandas.column ia invoices) in
    let* groups :=
      mapM (fun k =>
              let g := group ii k invoices in
              let* p := products_of product_col invoices (map (Pandas.get ip) g) in
              Ok [CStr k; sum_cells group_sum int_col (map (Pandas.get ia) g); CStr p])
           (group_keys ii invoices) in
    Ok (mkFrame [CLIENT_ID; "Total Amount"; "Products"] groups).

(** Lines 236-241: the left join with [clients[[CLIENT_ID, 'Email']]].  A
    result row is repeated once per client row carrying its key; a key
    without client row gets a missing email. *)
Definition merge_email (total_amounts clients : frame) : res frame :=
  if PyStr.mem EMAIL (columns clients) then
    let* ic := Pandas.loc CLIENT_ID clients in
    let* ie := Pandas.loc EMAIL clients in
    let* it := Pandas.loc CLIENT_ID total_amounts in
    Ok (mkFrame (columns total_amounts ++ [EMAIL])%list
          (flat_map
             (fun l =>
                match filter (fun c => Pandas.cell_eqb (Pandas.get it l) (Pandas.get ic c))
                             (rows clients) with
                | [] => [(l ++ [CNaN])%list]
                | c :: cs => map (fun c' => (l ++ [Pandas.get ie c'])%list) (c :: cs)
                end)
             (rows total_amounts)))
  else Ok total_amounts.

(** Lines 145-189: the retained clients, given the invoices before the
    cutoff. *)
Definition retained (inp : inputs) (resa : frame) : res frame :=
  let* emails := contact_emails (boost_file inp) in
  let* clients := known_clients (clients_file inp) emails in
  reconcile clients resa.

(** Lines 194-241: the summary of the invoices after the cutoff. *)
Definition summarize (invoices clients : frame) : res frame :=
  let amount_col := amount_column invoices in
  let* invoices := drop_zero amount_col invoices in
  let* invoices := astype_str CLIENT_ID invoices in
  let* clients := astype_str CLIENT_ID clients in
  let* invoices := restrict invoices clients in
  let* invoices := normalize amount_col invoices in
  let product_col := product_column invoices in
  let* total_amounts := aggregate amount_col product_col invoices in
  merge_email total_amounts clients.

(** The body of the handler, lines 106-247: the value stored in
    [st.session_state.result_df], or the exception caught on line 251. *)
Definition process (inp : inputs) : res frame :=
  let* parts := partition inp in
  let* clients := retained inp (fst parts) in
  summarize (snd parts) clients.

(** *** Reading the tables

    The vocabulary of the statements below, on the tables as they are before
    [summarize] rewrites them: [invoices] is the after-cutoff table of line
    124 and [clients] the client table of line 189. *)

(** The client number of a row as text, the value lines 205-206 write. *)
Definition key (i : nat) (r : row) : string := Pandas.to_str (Pandas.get i r).

(** Whether line 216 makes the amount column of the rows [s] an int64
    column. *)
Definition int_amounts (ia : nat) (s : list row) : bool :=
  integral (map (fun r => Pandas.replace_cell (Pandas.get ia r)) s).

(** The cell lines 215-216 put in the amount column of a row, in an int64
    column ([int_col] true) or a float64 column. *)
Definition amount_cell (int_col : bool) (ia : nat) (r : row) : cell :=
  numeric_cell int_col (Pandas.replace_cell (Pandas.get ia r)).

(** The number a numeric cell stands for; a missing one stands for 0. *)
Definition value (c : cell) : Qc :=
  match c with
  | CFloat q => q
  | CInt z => Q2Qc (inject_Z z)
  | _ => Q2Qc 0
  end.

(** The amount of a row as a number. *)
Definition amount_val (int_col : bool) (ia : nat) (r : row) : Qc :=
  value (amount_cell int_col ia r).

(** The exact sum of a list of numbers. *)
Definition qsum (l : list Qc) : Qc := fold_right Qcplus (Q2Qc 0) l.

(** [k] is the client number of a retained client. *)
Definition is_retained (ic : nat) (clients : frame) (k : string) : bool :=
  existsb (fun c => String.eqb k (key ic c)) (rows clients).

(** The invoice rows that reach the aggregation: they pass line 201 and
    line 209. *)
Definition survives (ii ia ic : nat) (clients : frame) (r : row) : bool :=
  Pandas.ne_zero (Pandas.get ia r) && is_retained ic clients (key ii r).

Definition surviving (ii ia ic : nat) (clients invoices : frame) : list row :=
  filter (survives ii ia ic clients) (rows invoices).

(** A surviving row as lines 205, 215 and 216 leave it. *)
Definition prepared (int_col : bool) (ii ia : nat) (r : row) : row :=
  let r := Pandas.set_nth ii (CStr (key ii r)) r in
  let r := Pandas.set_nth ia (Pandas.replace_cell (Pandas.get ia r)) r in
  Pandas.set_nth ia (numeric_cell int_col (Pandas.get ia r)) r.

(** The strings among a list of cells. *)
Definition texts (x : list cell) : list string :=
  flat_map (fun c => match c with CStr s => [s] | _ => [] end) x.

(** Every cell is a string. *)
Definition all_text (x : list cell) : Prop := forall c, In c x -> exists s, c = CStr s.

(** The Total Amount of the rows [g] of one group. *)
Definition sum_amounts (int_col : bool) (ia : nat) (g : list row) : cell :=
  sum_cells group_sum int_col (map (amount_cell int_col ia) g).

(** The rows of one client among a list of invoice rows. *)
Definition rows_of (ii : nat) (k : string) (l : list row) : list row :=
  filter (fun r => String.eqb (key ii r) k) l.

(** The result row of the group of key [k], before the join. *)
Definition summary_row (ii ia ip : nat) (s : list row) (k : string) : row :=
  [CStr k;
   sum_amounts (int_amounts ia s) ia (rows_of ii k s);
   CStr (PyStr.join ", " (texts (unique (map (Pandas.get ip) (rows_of ii k s)))))].

(** The rows the join writes for one summary row. *)
Definition joined (ic ie : nat) (clients : frame) (k : string) (l : row) : list row :=
  match filter (fun c => String.eqb k (key ic c)) (rows clients) with
  | [] => [(l ++ [CNaN])%list]
  | c :: cs => map (fun c' => (l ++ [Pandas.get ie c'])%list) (c :: cs)
  end.

Definition summary_rows (ii ic ie ia ip : nat) (clients invoices : frame) : list row :=
  let s := surviving ii ia ic clients invoices in
  flat_map (fun k => joined ic ie clients k (summary_row ii ia ip s k))
           (sort_keys (distinct (map (key ii) s))).

Definition RESULT_HEADER : list string :=
  [CLIENT_ID; "Total Amount"; "Products"; EMAIL].

(** The indices and side conditions under which lines 194-241 run on
    [invoices] and [clients]. *)
Record resolved (invoices clients : frame) (ii ic ie ia ip : nat) : Prop := {
  res_ii : Pandas.col_index CLIENT_ID (columns invoices) = Some ii;
  res_ic : Pandas.col_index CLIENT_ID (columns clients) = Some ic;
  res_ie : Pandas.col_index EMAIL (columns clients) = Some ie;
  res_ia : Pandas.col_index (amount_column invoices) (columns invoices) = Some ia;
  res_ip : Pandas.col_index (product_column invoices) (columns invoices) = Some ip;
  res_distinct : amount_column invoices <> product_column invoices
}.

(** The row of the converted ledger that comes from [r] (line 120). *)
Definition dated (i : nat) (df : frame) (r : row) : row :=
  Pandas.set_nth i (Pandas.date_cell (Pandas.column i df) (Pandas.get i r)) r.

(** The date of the row is not read. *)
Definition undated_row (i : nat) (df : frame) (r : row) : bool :=
  match to_datetime (Pandas.column i df) (Pandas.get i r) with
  | Some _ => false
  | None => true
  end.

(** The surviving rows all carry a product name. *)
Definition products_are_text (ii ic ia ip : nat) (clients invoices : frame) : Prop :=
  forall r, In r (surviving ii ia ic clients invoices) -> exists t, Pandas.get ip r = CStr t.

(** The amount of a row is neither missing nor zero after lines 215-216. *)
Definition counted (int_col : bool) (ia : nat) (r : row) : bool :=
  match amount_cell int_col ia r with
  | CFloat q => negb (Qc_eq_bool q (Q2Qc 0))
  | CInt z => negb (Z.eqb z 0)
  | _ => false
  end.

(** The amount of a row is not missing after lines 215-216. *)
Definition readable (int_col : bool) (ia : nat) (r : row) : bool :=
  match amount_cell int_col ia r with
  | CFloat _ | CInt _ => true
  | _ => false
  end.

(** The after-cutoff rows of the retained clients whose amount counts. *)
Definition revenue_rows (int_col : bool) (ii ic ia : nat) (clients invoices : frame)
    : list row :=
  filter (fun r => is_retained ic clients (key ii r) && counted int_col ia r)
         (rows invoices).

(** Line 266: the sum of the Total Amount column of the result. *)
Definition total_revenue (out : frame) : cell :=
  sum_cells series_sum (forallb is_int (Pandas.column 1 out)) (Pandas.column 1 out).

(** No sum of some of the integers [zs] leaves the 64-bit range. *)
Definition no_overflow (zs : list Z) : Prop := zsum (map Z.abs zs) < 2 ^ 63.

(** Float64 adds the numbers [vals] without rounding, however they are
    ordered and split into groups: every group sum and the sum of the group
    sums are exact. *)
Definition adds_exactly (vals : list Qc) : Prop :=
  forall groups : list (list Qc),
    Permutation (List.concat groups) vals ->
    (forall g, In g groups -> group_sum g = qsum g)
    /\ series_sum (map qsum groups) = qsum vals.

(** The sums the run takes over the amounts of the rows [s] are exact. *)
Definition exact_amounts (ia : nat) (s : list row) : Prop :=
  if int_amounts ia s
  then no_overflow (ints (map (amount_cell true ia) s))
  else adds_exactly (floats (map (amount_cell false ia) s)).

(** The exact sum of the amounts of the rows [g]. *)
Definition exact_total (int_col : bool) (ia : nat) (g : list row) : Qc :=
  qsum (map (amount_val int_col ia) g).

(** The cell that holds the exact sum of the amounts of the rows [s], in the
    type of their column. *)
Definition exact_revenue (ia : nat) (s : list row) : cell :=
  if int_amounts ia s
  then CInt (zsum (ints (map (amount_cell true ia) s)))
  else CFloat (qsum (floats (map (amount_cell false ia) s))).

(** The handler splits on a date column, not on the row index. *)
Definition splits_by_date (inp : inputs) : bool :=
  match filter is_date (columns (invoice_file inp)) with
  | _ :: _ => true
  | [] => PyStr.truthy (date_col_name inp)
          && PyStr.mem (date_col_name inp) (columns (invoice_file inp))
  end.

(** The order [groupby] puts the keys in. *)
Definition key_le (a b : string) : Prop := String.leb a b = true.

(** The key column of a result table. *)
Definition result_keys (out : frame) : list string :=
  map (fun l => Pandas.to_str (Pandas.get 0 l)) (rows out).

(** The date column of a run that splits by date. *)
Definition date_column (inp : inputs) : string :=
  match filter is_date (columns (invoice_file inp)) with
  | date_col :: _ => date_col
  | [] => date_col_name inp
  end.

(** The same table with its rows in another order. *)
Definition reordered (df df' : frame) : Prop :=
  columns df = columns df' /\ Permutation (rows df) (rows df').

Definition inputs_reordered (inp inp' : inputs) : Prop :=
  reordered (invoice_file inp) (invoice_file inp')
  /\ reordered (boost_file inp) (boost_file inp')
  /\ reordered (clients_file inp) (clients_file inp')
  /\ cutoff inp = cutoff inp'
  /\ date_col_name inp = date_col_name inp'.

(** The date column of the ledger is read alike in [inp] and in [inp']: the
    conversion raises in both or in neither, and each cell of the column
    gets the same date. *)
Definition dates_read_alike (inp inp' : inputs) : Prop :=
  forall i,
    Pandas.col_index (date_column inp) (columns (invoice_file inp)) = Some i ->
    date_error (Pandas.column i (invoice_file inp'))
    = date_error (Pandas.column i (invoice_file inp))
    /\ forall c, In c (Pandas.column i (invoice_file inp)) ->
         to_datetime (Pandas.column i (invoice_file inp')) c
         = to_datetime (Pandas.column i (invoice_file inp)) c.

(** The calls of [st.warning] and [st.error] of a run: lines 128, 135 and
    151.  Line 151 is reached only when lines 112-139 raise nothing. *)
Inductive message : Type :=
| NoDateColumn
| IndexSplitFallback
| ContactColumnsMissing (missing available : list string).

Definition date_warnings (inp : inputs) : list message :=
  match filter is_date (columns (invoice_file inp)) with
  | _ :: _ => []
  | [] =>
      NoDateColumn ::
      (if PyStr.truthy (date_col_name inp)
          && PyStr.mem (date_col_name inp) (columns (invoice_file inp))
       then [] else [IndexSplitFallback])
  end.

Definition contact_warnings (inp : inputs) : list message :=
  match partition inp with
  | Err _ => []
  | Ok _ =>
      match filter (fun c => negb (PyStr.mem c (columns (boost_file inp))))
                   [EMAIL; PRENOM_NOM] with
      | [] => []
      | m :: ms =>
          [ContactColumnsMissing (m :: ms) (firstn 10 (columns (boost_file inp)))]
      end
  end.

Definition warnings (inp : inputs) : list message :=
  (date_warnings inp ++ contact_warnings inp)%list.

End WithLib.
End App.

(** ** A library instance for the scenarios

    The scenarios of the specification use ISO dates and plain decimal
    numbers whose sums float64 takes without rounding.  On such cells the
    functions below return what pandas returns; they are the library of the
    scenarios, not a model of pandas on other cells. *)

Module Plain.
Import App.

Definition digit (c : ascii) : option Z :=
  let n := Z.of_nat (nat_of_ascii c) in
  if (48 <=? n) && (n <=? 57) then Some (n - 48) else None.

(** The value of a non-empty run of decimal digits, and how many there are. *)
Fixpoint digits_from (acc : Z) (count : nat) (s : string) : option (Z * nat) :=
  match s with
  | EmptyString => Some (acc, count)
  | String c s' =>
      match digit c with
      | Some d => digits_from (10 * acc + d) (S count) s'
      | None => None
      end
  end.

Definition digits (s : string) : option (Z * nat) := digits_from 0 0%nat s.

(** The text before and after the first occurrence of a separator. *)
Fixpoint split_at (sep : ascii) (s : string) : string * option string :=
  match s with
  | EmptyString => (EmptyString, None)
  | String c s' =>
      if Ascii.eqb c sep then (EmptyString, Some s')
      else let p := split_at sep s' in (String c (fst p), snd p)
  end.

(** [[-]digits[.digits]] with at least one digit. *)
Definition unsigned_decimal (s : string) : option Q :=
  match split_at "."%char s with
  | (ip, None) =>
      match digits ip with
      | Some (n, S _) => Some (inject_Z n)
      | _ => None
      end
  | (ip, Some fp) =>
      match digits ip, digits fp with
      | Some (n, ci), Some (f, cf) =>
          match (ci + cf)%nat with
          | O => None
          | S _ => Some (Qmake (n * 10 ^ Z.of_nat cf + f) (Z.to_pos (10 ^ Z.of_nat cf)))
          end
      | _, _ => None
      end
  end.

Definition decimal (s : string) : option Qc :=
  match s with
  | String "-"%char s' => option_map (fun q => Q2Qc (Qopp q)) (unsigned_decimal s')
  | _ => option_map Q2Qc (unsigned_decimal s)
  end.

(** [[-]digits] within the 64-bit range. *)
Definition in_int64 (z : Z) : option Z :=
  if (- 2 ^ 63 <=? z) && (z <? 2 ^ 63) then Some z else None.

Definition integer (s : string) : option Z :=
  match s with
  | String "-"%char s' =>
      match digits s' with
      | Some (n, S _) => in_int64 (- n)
      | _ => None
      end
  | _ =>
      match digits s with
      | Some (n, S _) => in_int64 n
      | _ => None
      end
  end.

(** Days since 1970-01-01 of a civil date, and back. *)
Definition days_from_civil (y m d : Z) : Z :=
  let y := if m <=? 2 then y - 1 else y in
  let era := y / 400 in
  let yoe := y - era * 400 in
  let doy := (153 * (if 2 <? m then m - 3 else m + 9) + 2) / 5 + d - 1 in
  let doe := yoe * 365 + yoe / 4 - yoe / 100 + doy in
  era * 146097 + doe - 719468.

Definition civil_from_days (z : Z) : Z * Z * Z :=
  let z := z + 719468 in
  let era := z / 146097 in
  let doe := z - era * 146097 in
  let yoe := (doe - doe / 1460 + doe / 36524 - doe / 146096) / 365 in
  let doy := doe - (365 * yoe + yoe / 4 - yoe / 100) in
  let mp := (5 * doy + 2) / 153 in
  let d := doy - (153 * mp + 2) / 5 + 1 in
  let m := if mp <? 10 then mp + 3 else mp - 9 in
  (yoe + era * 400 + (if m <=? 2 then 1 else 0), m, d).

Definition day_ns : Z := 86400 * 10 ^ 9.

Definition field_of (width : nat) (s : string) : option Z :=
  match digits s with
  | Some (n, c) => if Nat.eqb c width then Some n else None
  | None => None
  end.

(** [YYYY-MM-DD], a date that exists, as midnight of that day. *)
Definition iso_date (s : string) : option Z :=
  match split_at "-"%char s with
  | (ys, Some rest) =>
      match split_at "-"%char rest with
      | (ms, Some ds) =>
          match field_of 4 ys, field_of 2 ms, field_of 2 ds with
          | Some y, Some m, Some d =>
              let t := days_from_civil y m d in
              if (1 <=? m) && (m <=? 12) && (1 <=? d)
                 && (let '(y', m', d') := civil_from_days t in
                     (y' =? y) && (m' =? m) && (d' =? d))
              then Some (t * day_ns) else None
          | _, _, _ => None
          end
      | _ => None
      end
  | _ => None
  end.

Definition datetime_of (_ : list cell) (c : cell) : option Z :=
  match c with
  | CStr s => iso_date s
  | CTime t => Some t
  | _ => None
  end.

(** [YYYY-MM-DD 00:00:00+00:00], a date with its time and a UTC offset. *)
Definition utc_text (s : string) : bool :=
  match split_at " "%char s with
  | (d, Some t) =>
      match iso_date d with
      | Some _ => String.eqb t "00:00:00+00:00"
      | None => false
      end
  | (_, None) => false
  end.

Fixpoint first_text (col : list cell) : option string :=
  match col with
  | [] => None
  | CStr s :: _ => Some s
  | _ :: col' => first_text col'
  end.

(** pandas takes the format of a column from its first text.  When that
    text carries a UTC offset the converted column is timezone-aware, and
    line 123 raises TypeError. *)
Definition date_failure (col : list cell) : option error :=
  match first_text col with
  | Some s => if utc_text s then Some TypeError else None
  | None => None
  end.

(** [n] written with at least [width] digits. *)
Fixpoint zeros (n : nat) : string :=
  match n with O => "" | S n' => "0" ++ zeros n' end.

Definition padded (width : nat) (n : Z) : string :=
  let s := PyStr.of_Z n in
  zeros (width - String.length s) ++ s.

(** [str(Timestamp)]: the ISO form with a space, fractional seconds only when
    they are not zero. *)
Definition timestamp_text (t : Z) : string :=
  let '(y, m, d) := civil_from_days (t / day_ns) in
  let r := t mod day_ns in
  let secs := r / 10 ^ 9 in
  let frac := r mod 10 ^ 9 in
  padded 4 y ++ "-" ++ padded 2 m ++ "-" ++ padded 2 d ++ " "
  ++ padded 2 (secs / 3600) ++ ":" ++ padded 2 (secs / 60 mod 60) ++ ":"
  ++ padded 2 (secs mod 60)
  ++ (if frac =? 0 then ""
      else if frac mod 1000 =? 0 then "." ++ padded 6 (frac / 1000)
      else "." ++ padded 9 frac).

(** [str(x)] for a float whose decimal expansion ends within 16 places. *)
Fixpoint fraction_digits (fuel : nat) (r d : Z) : string :=
  match fuel with
  | O => ""
  | S fuel' =>
      if r =? 0 then ""
      else PyStr.of_Z (10 * r / d) ++ fraction_digits fuel' (10 * r mod d) d
  end.

Definition float_text (q : Qc) : string :=
  let n := Qnum (this q) in
  let d := Zpos (Qden (this q)) in
  let a := Z.abs n in
  (if n <? 0 then "-" else "") ++ PyStr.of_Z (a / d) ++ "."
  ++ (if a mod d =? 0 then "0" else fraction_digits 16 (a mod d) d).

#[export] Instance lib : PandasLib := {
  to_datetime := datetime_of;
  date_error := date_failure;
  parse_int := integer;
  parse_float := decimal;
  group_sum := qsum;
  series_sum := qsum;
  float_str := float_text;
  timestamp_str := timestamp_text
}.

End Plain.


(** ** Scenarios *)

Module Scenario.
Import Resolver App Plain.

Definition DATE : string := "Date".

Definition invoice_header : list string := [DATE; CLIENT_ID; AMOUNT; PRODUCT].

Definition contacts : frame :=
  mkFrame [EMAIL; PRENOM_NOM] [[CStr "ana@example.org"; CStr "Ana Diaz"]].

Definition cutoff_2024_07_01 : Z := 1719792000000000000.

(** Client 2 has a zero line and a 15,00 line, both after the cutoff. *)
Definition zero_line : inputs :=
  mkInputs
    (mkFrame invoice_header
       [[CStr "2024-08-01"; CInt 2; CStr "0,00"; CStr "Gift"];
        [CStr "2024-08-02"; CInt 2; CStr "15,00"; CStr "Boost"]])
    contacts
    (mkFrame [CLIENT_ID; EMAIL] [[CInt 2; CStr "ana@example.org"]])
    cutoff_2024_07_01
    "".

(** The same tables with the two ledger rows exchanged. *)
Definition zero_line_swapped : inputs :=
  mkInputs
    (mkFrame invoice_header
       [[CStr "2024-08-02"; CInt 2; CStr "15,00"; CStr "Boost"];
        [CStr "2024-08-01"; CInt 2; CStr "0,00"; CStr "Gift"]])
    contacts
    (mkFrame [CLIENT_ID; EMAIL] [[CInt 2; CStr "ana@example.org"]])
    cutoff_2024_07_01
    "".

(** The client table has integer numbers; the ledger has text numbers
    (one of them is not numeric), and client 1023 has a June invoice. *)
Definition mixed_types : inputs :=
  mkInputs
    (mkFrame invoice_header
       [[CStr "2024-06-01"; CStr "1023"; CStr "10,50"; CStr "Gift"];
        [CStr "2024-07-05"; CStr "1023"; CStr "20,00"; CStr "Boost"];
        [CStr "2024-07-06"; CStr "C-77"; CStr "5,00"; CStr "Boost"]])
    contacts
    (mkFrame [CLIENT_ID; EMAIL] [[CInt 1023; CStr "ana@example.org"]])
    cutoff_2024_07_01
    "".

(** The ledger has no product column. *)
Definition no_product : inputs :=
  mkInputs
    (mkFrame [DATE; CLIENT_ID; AMOUNT]
       [[CStr "2024-08-02"; CInt 2; CStr "15,00"]])
    contacts
    (mkFrame [CLIENT_ID; EMAIL] [[CInt 2; CStr "ana@example.org"]])
    cutoff_2024_07_01
    "".

(** Client 2 is listed twice in the client table. *)
Definition duplicated_client : inputs :=
  mkInputs
    (mkFrame invoice_header
       [[CStr "2024-08-02"; CInt 2; CStr "15,00"; CStr "Boost"]])
    contacts
    (mkFrame [CLIENT_ID; EMAIL]
       [[CInt 2; CStr "ana@example.org"]; [CInt 2; CStr "ana@example.org"]])
    cutoff_2024_07_01
    "".

(** Two contacts and their two clients. *)
Definition two_contacts : frame :=
  mkFrame [EMAIL; PRENOM_NOM]
    [[CStr "ana@example.org"; CStr "Ana Diaz"];
     [CStr "bo@example.org"; CStr "Bo Li"]].

Definition two_clients (first second : cell) : frame :=
  mkFrame [CLIENT_ID; EMAIL]
    [[first; CStr "ana@example.org"]; [second; CStr "bo@example.org"]].

(** A ledger without date column, given by its two rows in order. *)
Definition undated (first second : row) : inputs :=
  mkInputs
    (mkFrame [CLIENT_ID; AMOUNT; PRODUCT] [first; second])
    two_contacts
    (two_clients (CInt 2) (CInt 3))
    cutoff_2024_07_01
    "".

Definition small_line : row := [CInt 2; CStr "15,00"; CStr "Boost"].
Definition large_line : row := [CInt 3; CStr "40,00"; CStr "Gift"].

(** One amount of client 2 is not a number. *)
Definition unparsable_amount : inputs :=
  mkInputs
    (mkFrame invoice_header
       [[CStr "2024-08-01"; CInt 2; CStr "abc"; CStr "Gift"];
        [CStr "2024-08-02"; CInt 2; CStr "15,00"; CStr "Boost"]])
    contacts
    (mkFrame [CLIENT_ID; EMAIL] [[CInt 2; CStr "ana@example.org"]])
    cutoff_2024_07_01
    "".

(** The ledger writes the number of client C-77 with a leading space. *)
Definition spaced_number : inputs :=
  mkInputs
    (mkFrame invoice_header
       [[CStr "2024-08-02"; CStr " C-77"; CStr "15,00"; CStr "Boost"];
        [CStr "2024-08-03"; CStr "C-12"; CStr "5,00"; CStr "Gift"]])
    two_contacts
    (two_clients (CStr "C-77") (CStr "C-12"))
    cutoff_2024_07_01
    "".

(** The client table holds client 1023 as a float: the other client has no
    number, so pandas reads the column as floats. *)
Definition float_number : inputs :=
  mkInputs
    (mkFrame invoice_header
       [[CStr "2024-08-02"; CInt 1023; CStr "15,00"; CStr "Boost"]])
    two_contacts
    (two_clients (CFloat (Q2Qc (inject_Z 1023))) CNaN)
    cutoff_2024_07_01
    "".

(** The dates of the ledger carry a UTC offset. *)
Definition utc_dates : inputs :=
  mkInputs
    (mkFrame invoice_header
       [[CStr "2024-08-01 00:00:00+00:00"; CInt 2; CStr "15,00"; CStr "Boost"]])
    contacts
    (mkFrame [CLIENT_ID; EMAIL] [[CInt 2; CStr "ana@example.org"]])
    cutoff_2024_07_01
    "".


(** The tables of lines 123, 124 and 189 for an input that reaches them. *)
Definition before_cutoff (inp : inputs) : frame :=
  match partition inp with
  | Ok parts => fst parts
  | Err _ => mkFrame [] []
  end.

Definition after_cutoff (inp : inputs) : frame :=
  match partition inp with
  | Ok parts => snd parts
  | Err _ => mkFrame [] []
  end.

Definition retained_of (inp : inputs) : frame :=
  match retained inp (before_cutoff inp) with
  | Ok clients => clients
  | Err _ => mkFrame [] []
  end.

(** The zero line of [zero_line] as the ledger has it, and the line of
    [unparsable_amount] with the text amount as line 120 leaves it. *)
Definition first_zero_line : row :=
  [CStr "2024-08-01"; CInt 2; CStr "0,00"; CStr "Gift"].

Definition unparsable_line : row :=
  [CTime 1722470400000000000; CInt 2; CStr "abc"; CStr "Gift"].

(** One result row. *)
Definition result_row (number : string) (total : Z) (products email : string) : row :=
  [CStr number; CFloat (Q2Qc (inject_Z total)); CStr products; CStr email].

End Scenario.

(** ** The script around the handler *)

Module Script.
Import Resolver App.

(** The canonical header of a logical field, where the handler has one
    (lines 146, 168, 178, 194, 219). *)
Definition canonical (f : field) : option string :=
  match f with
  | FDate => None
  | FContactEmail | FClientEmail => Some EMAIL
  | FClientId => Some CLIENT_ID
  | FAmount => Some AMOUNT
  | FProduct => Some PRODUCT
  end.

(** A cell of a column that pandas read as numbers; NaN is a blank of a
    float64 column. *)
Definition numeric (c : cell) : bool :=
  match c with
  | CInt _ | CFloat _ | CNaN => true
  | _ => false
  end.

(** The cell is a blank or a number other than zero. *)
Definition blank_or_nonzero (c : cell) : bool :=
  match c with
  | CNaN => true
  | _ => negb (Qc_eq_bool (value c) (Q2Qc 0))
  end.

Section WithLib.
Context {L : PandasLib}.

(** [st.session_state], lines 37-40 and 246-247. *)
Record state : Type := mkState {
  processed : bool;
  result_df : option frame
}.

Definition initial : state := mkState false None.

(** The widgets of one run of the script: the three uploaders (a table once
    a file is uploaded and read), the date input, the text input of line 129
    and whether the button of line 98 was pressed. *)
Record widgets : Type := mkWidgets {
  invoice_upload : option frame;
  boost_upload : option frame;
  clients_upload : option frame;
  cutoff_date : Z;
  date_text : string;
  pressed : bool
}.

(** [all([invoice_file, boost_file, clients_file])] *)
Definition all_uploaded (w : widgets) : bool :=
  match invoice_upload w, boost_upload w, clients_upload w with
  | Some _, Some _, Some _ => true
  | _, _, _ => false
  end.

(** [st.button(..., disabled=not all([...]))]: a disabled button is never
    pressed. *)
Definition button (w : widgets) : bool := pressed w && all_uploaded w.

(** Lines 98-253: one run of the script on the session state.  The state is
    written on lines 246-247 only, after the handler has ended without
    exception. *)
Definition rerun (w : widgets) (s : state) : state :=
  if button w then
    match invoice_upload w, boost_upload w, clients_upload w with
    | Some invoice_file, Some boost_file, Some clients_file =>
        match process (mkInputs invoice_file boost_file clients_file
                                (cutoff_date w) (date_text w)) with
        | Ok total_amounts => mkState true (Some total_amounts)
        | Err _ => s
        end
    | _, _, _ => s
    end
  else s.

(** Line 256: the table the results section shows, if any. *)
Definition shown (s : state) : option frame :=
  if processed s then result_df s else None.

(** The state after a series of runs, first run first. *)
Definition replay (runs : list widgets) (s : state) : state :=
  fold_left (fun s w => rerun w s) runs s.

(** The table a run computes, when the button was pressed and the handler
    ended without exception. *)
Definition outcome (w : widgets) : option frame :=
  if button w then
    match invoice_upload w, boost_upload w, clients_upload w with
    | Some invoice_file, Some boost_file, Some clients_file =>
        match process (mkInputs invoice_file boost_file clients_file
                                (cutoff_date w) (date_text w)) with
        | Ok total_amounts => Some total_amounts
        | Err _ => None
        end
    | _, _, _ => None
    end
  else None.

(** The table of the latest run that computed one. *)
Fixpoint latest (runs : list widgets) (before : option frame) : option frame :=
  match runs with
  | [] => before
  | w :: runs' =>
      latest runs' (match outcome w with Some out => Some out | None => before end)
  end.

(** Line 264: the Total Clients metric. *)
Definition total_clients (out : frame) : nat := List.length (rows out).

End WithLib.
End Script.

(** ** Further scenarios *)

Module Cases.
Import Resolver App Plain Scenario.

(** The contact export has an Email column and no name column. *)
Definition no_name_column : inputs :=
  mkInputs
    (mkFrame invoice_header
       [[CStr "2024-08-02"; CInt 2; CStr "15,00"; CStr "Boost"]])
    (mkFrame [EMAIL; "Ville"] [[CStr "ana@example.org"; CStr "Lyon"]])
    (mkFrame [CLIENT_ID; EMAIL] [[CInt 2; CStr "ana@example.org"]])
    cutoff_2024_07_01
    "".

(** The ledger has no amount column. *)
Definition no_amount : inputs :=
  mkInputs
    (mkFrame [DATE; CLIENT_ID; PRODUCT]
       [[CStr "2024-08-02"; CInt 2; CStr "Boost"]])
    contacts
    (mkFrame [CLIENT_ID; EMAIL] [[CInt 2; CStr "ana@example.org"]])
    cutoff_2024_07_01
    "".

(** One header of the ledger passes both the amount and the product test. *)
Definition shared_column : inputs :=
  mkInputs
    (mkFrame [DATE; CLIENT_ID; "Montant produit"]
       [[CStr "2024-08-02"; CInt 2; CStr "15,00"]])
    contacts
    (mkFrame [CLIENT_ID; EMAIL] [[CInt 2; CStr "ana@example.org"]])
    cutoff_2024_07_01
    "".

(** The amounts were read as numbers; client 2 has a zero line. *)
Definition numeric_ledger : inputs :=
  mkInputs
    (mkFrame invoice_header
       [[CStr "2024-08-01"; CInt 2; CInt 0; CStr "Gift"];
        [CStr "2024-08-02"; CInt 2; CInt 15; CStr "Boost"];
        [CStr "2024-08-03"; CInt 2; CInt 5; CStr "Boost"]])
    contacts
    (mkFrame [CLIENT_ID; EMAIL] [[CInt 2; CStr "ana@example.org"]])
    cutoff_2024_07_01
    "".

(** Two integer amounts of 2^62 each. *)
Definition large_amounts : inputs :=
  mkInputs
    (mkFrame invoice_header
       [[CStr "2024-08-02"; CInt 2; CInt (2 ^ 62); CStr "Boost"];
        [CStr "2024-08-03"; CInt 2; CInt (2 ^ 62); CStr "Boost"]])
    contacts
    (mkFrame [CLIENT_ID; EMAIL] [[CInt 2; CStr "ana@example.org"]])
    cutoff_2024_07_01
    "".

(** The amounts were read as floats; one is zero and one is blank. *)
Definition float_ledger : inputs :=
  mkInputs
    (mkFrame invoice_header
       [[CStr "2024-08-01"; CInt 2; CFloat (Q2Qc (inject_Z 0)); CStr "Gift"];
        [CStr "2024-08-02"; CInt 2; CNaN; CStr "Boost"];
        [CStr "2024-08-03"; CInt 2; CFloat (Q2Qc (inject_Z 5)); CStr "Boost"]])
    contacts
    (mkFrame [CLIENT_ID; EMAIL] [[CInt 2; CStr "ana@example.org"]])
    cutoff_2024_07_01
    "".

(** The dates carry a UTC offset and the contact export has no name
    column. *)
Definition utc_no_name_column : inputs :=
  mkInputs (invoice_file utc_dates) (boost_file no_name_column)
           (clients_file utc_dates) cutoff_2024_07_01 "".

(** The result of the run on [zero_line]. *)
Definition zero_line_result : frame :=
  mkFrame RESULT_HEADER [result_row "2" 15 "Gift, Boost" "ana@example.org"].

(** Three runs: a good one, one on a ledger without product column, and a
    press-free run. *)
Definition good_run : Script.widgets :=
  Script.mkWidgets (Some (invoice_file zero_line)) (Some (boost_file zero_line))
    (Some (clients_file zero_line)) cutoff_2024_07_01 "" true.

Definition bad_run : Script.widgets :=
  Script.mkWidgets (Some (invoice_file no_product)) (Some (boost_file no_product))
    (Some (clients_file no_product)) cutoff_2024_07_01 "" true.

Definition idle_run : Script.widgets :=
  Script.mkWidgets None None None cutoff_2024_07_01 "" false.

End Cases.

(** * Properties *)

(** ** Frames *)

Module PandasFacts.
Import Pandas.

Lemma get_set_nth_same (i : nat) (c : cell) (r : row) :
  get i (set_nth i c r) = c.
Proof.
  unfold get. revert r.
  induction i as [|i IH]; intros [|x r]; simpl; auto.
Qed.

Lemma get_set_nth_other (i j : nat) (c : cell) (r : row) :
  i <> j -> get j (set_nth i c r) = get j r.
Proof.
  unfold get. revert j r.
  induction i as [|i IH]; intros [|j] [|x r] Hij; simpl; try congruence; auto.
  - destruct j; reflexivity.
  - rewrite IH by congruence. destruct j; reflexivity.
Qed.

Lemma Qc_eq_bool_refl (q : Qc) : Qc_eq_bool q q = true.
Proof. unfold Qc_eq_bool. destruct (Qc_eq_dec q q); congruence. Qed.

Lemma Qc_eq_bool_true (p q : Qc) : Qc_eq_bool p q = true <-> p = q.
Proof.
  split; [apply Qc_eq_bool_correct|intros ->; apply Qc_eq_bool_refl].
Qed.

Lemma cell_eqb_refl (c : cell) : cell_eqb c c = true.
Proof.
  destruct c; simpl; auto using Z.eqb_refl, Qc_eq_bool_refl, String.eqb_refl.
Qed.

Lemma cell_eqb_str_r (c : cell) (s : string) :
  cell_eqb c (CStr s) = true -> c = CStr s.
Proof.
  destruct c; simpl; try discriminate.
  intros H. apply String.eqb_eq in H. congruence.
Qed.

Lemma isin_In (values : list cell) (x : cell) :
  In x values -> isin values x = true.
Proof.
  intros H. apply existsb_exists. exists x. split; [assumption|apply cell_eqb_refl].
Qed.

Lemma isin_str (values : list cell) (s : string) :
  isin values (CStr s) = true <-> In (CStr s) values.
Proof.
  split; [|apply isin_In].
  intros H. apply existsb_exists in H. destruct H as [c [Hc He]].
  destruct c; simpl in He; try discriminate.
  apply String.eqb_eq in He. subst. assumption.
Qed.

Lemma isin_perm (l l' : list cell) (x : cell) :
  Permutation l l' -> isin l x = isin l' x.
Proof.
  intros HP. unfold isin.
  destruct (existsb (cell_eqb x) l') eqn:E.
  - apply existsb_exists in E. destruct E as [c [Hc He]].
    apply existsb_exists. exists c. split; [|assumption].
    eapply Permutation_in; [apply Permutation_sym; eassumption|assumption].
  - destruct (existsb (cell_eqb x) l) eqn:E'; [|reflexivity].
    apply existsb_exists in E'. destruct E' as [c [Hc He]].
    assert (existsb (cell_eqb x) l' = true) as Ht.
    { apply existsb_exists. exists c. split; [|assumption].
      eapply Permutation_in; eassumption. }
    congruence.
Qed.

Lemma col_index_lt (name : string) (cols : list string) (i : nat) :
  col_index name cols = Some i -> nth_error cols i = Some name.
Proof.
  revert i. induction cols as [|c cols IH]; simpl; intros i H; [discriminate|].
  destruct (String.eqb c name) eqn:E.
  - inversion H; subst. apply String.eqb_eq in E. subst. reflexivity.
  - destruct (col_index name cols) as [j|]; simpl in H; [|discriminate].
    inversion H; subst. simpl. apply IH. reflexivity.
Qed.

Lemma col_index_mem (name : string) (cols : list string) :
  PyStr.mem name cols = true <-> exists i, col_index name cols = Some i.
Proof.
  unfold PyStr.mem. induction cols as [|c cols IH]; simpl.
  - split; [discriminate|intros [i H]; discriminate].
  - rewrite (String.eqb_sym name c). destruct (String.eqb c name); simpl.
    + split; eauto.
    + rewrite IH. split; intros [i H].
      * exists (S i). rewrite H. reflexivity.
      * destruct (col_index name cols) as [j|]; [eauto|discriminate].
Qed.

Lemma col_index_none (name : string) (cols : list string) :
  PyStr.mem name cols = false <-> col_index name cols = None.
Proof.
  pose proof (col_index_mem name cols) as H.
  destruct (PyStr.mem name cols), (col_index name cols) as [i|]; split; intros; try congruence.
  - destruct H as [H _]. destruct (H eq_refl). discriminate.
  - destruct H as [_ H]. assert (false = true) by (apply H; eauto). discriminate.
Qed.

Lemma col_index_inj (a b : string) (cols : list string) (i : nat) :
  col_index a cols = Some i -> col_index b cols = Some i -> a = b.
Proof.
  intros Ha Hb. apply col_index_lt in Ha. apply col_index_lt in Hb. congruence.
Qed.

Lemma loc_ok (name : string) (df : frame) (i : nat) :
  col_index name (columns df) = Some i -> loc name df = Ok i.
Proof. unfold loc. intros ->. reflexivity. Qed.

Lemma loc_inv (name : string) (df : frame) (i : nat) :
  loc name df = Ok i -> col_index name (columns df) = Some i.
Proof.
  unfold loc. destruct (col_index name (columns df)); intros H; inversion H; reflexivity.
Qed.

End PandasFacts.

(** ** Column resolution *)

Module ResolverFacts.
Import Resolver PandasFacts.


Lemma first_match_mem (p : string -> bool) (cols : list string) (c : string) :
  first_match p cols = Some c -> PyStr.mem c cols = true /\ p c = true.
Proof.
  unfold first_match. intros H.
  assert (In c (filter p cols)) as Hin.
  { destruct (filter p cols); inversion H; subst; left; reflexivity. }
  apply filter_In in Hin. destruct Hin as [Hin Hp]. split; [|assumption].
  apply existsb_exists. exists c. split; [assumption|apply String.eqb_refl].
Qed.

Lemma first_match_none (p : string -> bool) (cols : list string) (c : string) :
  first_match p cols = None -> PyStr.mem c cols = true -> p c = false.
Proof.
  unfold first_match. intros H Hm.
  apply existsb_exists in Hm. destruct Hm as [x [Hin He]].
  apply String.eqb_eq in He. subst x.
  destruct (p c) eqn:Pc; [|reflexivity].
  assert (In c (filter p cols)) as Hf by (apply filter_In; auto).
  destruct (filter p cols); [contradiction|discriminate].
Qed.

Lemma present_mem (c : string) (cols : list string) :
  PyStr.mem c cols = true -> present c cols = Some c.
Proof. unfold present. intros ->. reflexivity. Qed.

Lemma present_not_mem (c : string) (cols : list string) :
  PyStr.mem c cols = false -> present c cols = None.
Proof. unfold present. intros ->. reflexivity. Qed.

Lemma with_fallback_physical (canonical : string) (p : string -> bool) (cols : list string) :
  PyStr.mem canonical cols = false ->
  present (with_fallback canonical p cols) cols = first_match p cols.
Proof.
  intros Hc. unfold with_fallback. rewrite Hc.
  destruct (first_match p cols) as [c|] eqn:E.
  - apply present_mem. apply (first_match_mem _ _ _ E).
  - apply present_not_mem. assumption.
Qed.

Lemma col_index_rename (canonical c : string) (cols : list string) :
  PyStr.mem canonical cols = false ->
  Pandas.col_index canonical (map (fun x => if String.eqb x c then canonical else x) cols)
  = Pandas.col_index c cols.
Proof.
  unfold PyStr.mem. induction cols as [|x cols IH]; simpl; intros H; [reflexivity|].
  apply orb_false_elim in H. destruct H as [Hx H].
  destruct (String.eqb x c) eqn:E.
  - rewrite String.eqb_refl. reflexivity.
  - rewrite String.eqb_sym, Hx. rewrite IH by assumption. reflexivity.
Qed.

Lemma renamed_from_physical (canonical : string) (p : string -> bool) (cols : list string) :
  PyStr.mem canonical cols = false ->
  renamed_from canonical p cols = first_match p cols.
Proof.
  intros Hc. unfold renamed_from, rename_to. simpl. rewrite Hc.
  destruct (first_match p cols) as [c|] eqn:E; simpl.
  - rewrite col_index_rename by assumption.
    destruct (first_match_mem _ _ _ E) as [Hm _].
    apply col_index_mem in Hm. destruct Hm as [i Hi]. rewrite Hi.
    apply col_index_lt. assumption.
  - apply col_index_none in Hc. rewrite Hc. reflexivity.
Qed.

End ResolverFacts.

(** ** The handler *)

Module AppFacts.
Import Pandas PandasFacts Resolver ResolverFacts App.

Section WithLib.
Context {L : PandasLib}.

Lemma filter_map_comm {A B : Type} (p : B -> bool) (f : A -> B) (l : list A) :
  filter p (map f l) = map f (filter (fun a => p (f a)) l).
Proof.
  induction l as [|a l IH]; simpl; [reflexivity|].
  destruct (p (f a)); simpl; congruence.
Qed.

Lemma existsb_map_comm {A B : Type} (p : B -> bool) (f : A -> B) (l : list A) :
  existsb p (map f l) = existsb (fun a => p (f a)) l.
Proof.
  induction l as [|a l IH]; simpl; congruence.
Qed.

Lemma existsb_ext_eq {A : Type} (p q : A -> bool) (l : list A) :
  (forall a, p a = q a) -> existsb p l = existsb q l.
Proof.
  intros H. induction l as [|a l IH]; simpl; [reflexivity|].
  rewrite H, IH. reflexivity.
Qed.

Lemma filter_filter_and {A : Type} (p q : A -> bool) (l : list A) :
  filter p (filter q l) = filter (fun a => q a && p a) l.
Proof.
  induction l as [|a l IH]; simpl; [reflexivity|].
  destruct (q a); simpl; [destruct (p a)|]; simpl; congruence.
Qed.

Lemma flat_map_ext_in {A B : Type} (f g : A -> list B) (l : list A) :
  (forall a, In a l -> f a = g a) -> flat_map f l = flat_map g l.
Proof.
  induction l as [|a l IH]; intros H; simpl; [reflexivity|].
  rewrite (H a (or_introl eq_refl)), IH; [reflexivity|].
  intros b Hb. apply H. right. assumption.
Qed.

Lemma with_fallback_cases (canonical : string) (p : string -> bool) (cols : list string) :
  with_fallback canonical p cols = canonical \/ p (with_fallback canonical p cols) = true.
Proof.
  unfold with_fallback.
  destruct (PyStr.mem canonical cols); [left; reflexivity|].
  destruct (first_match p cols) as [c|] eqn:E; [|left; reflexivity].
  right. apply (first_match_mem _ _ _ E).
Qed.

Lemma amount_column_not_key (invoices : frame) : amount_column invoices <> CLIENT_ID.
Proof.
  unfold amount_column.
  destruct (with_fallback_cases AMOUNT is_amount (columns invoices)) as [H|H];
    intros E; rewrite E in H; vm_compute in H; discriminate.
Qed.

Lemma product_column_not_key (invoices : frame) : product_column invoices <> CLIENT_ID.
Proof.
  unfold product_column.
  destruct (with_fallback_cases PRODUCT is_product (columns invoices)) as [H|H];
    intros E; rewrite E in H; vm_compute in H; discriminate.
Qed.

Lemma index_neq (a b : string) (cols : list string) (i j : nat) :
  a <> b -> col_index a cols = Some i -> col_index b cols = Some j -> i <> j.
Proof.
  intros Hab Ha Hb E. subst j. apply Hab. eapply col_index_inj; eassumption.
Qed.

(** *** The prepared rows *)

Lemma prepared_key (b : bool) (ii ia : nat) (r : row) :
  ii <> ia -> get ii (prepared b ii ia r) = CStr (key ii r).
Proof.
  intros H. unfold prepared.
  rewrite !get_set_nth_other by congruence. apply get_set_nth_same.
Qed.

Lemma prepared_amount (b : bool) (ii ia : nat) (r : row) :
  ii <> ia -> get ia (prepared b ii ia r) = amount_cell b ia r.
Proof.
  intros H. unfold prepared, amount_cell.
  rewrite !get_set_nth_same. rewrite get_set_nth_other by assumption. reflexivity.
Qed.

Lemma prepared_other (b : bool) (ii ia j : nat) (r : row) :
  j <> ii -> j <> ia -> get j (prepared b ii ia r) = get j r.
Proof.
  intros H1 H2. unfold prepared.
  rewrite !get_set_nth_other by congruence. reflexivity.
Qed.

Lemma isin_keys (ic : nat) (clients : frame) (k : string) :
  isin (column ic (map_col ic (fun c => CStr (to_str c)) clients)) (CStr k)
  = is_retained ic clients k.
Proof.
  unfold isin, column, map_col, is_retained. simpl.
  rewrite !existsb_map_comm. apply existsb_ext_eq. intros c.
  rewrite get_set_nth_same. reflexivity.
Qed.

Lemma summarize_prepare (invoices clients : frame) (ii ic ia : nat) :
  col_index CLIENT_ID (columns invoices) = Some ii ->
  col_index CLIENT_ID (columns clients) = Some ic ->
  col_index (amount_column invoices) (columns invoices) = Some ia ->
  summarize invoices clients =
  let* total_amounts :=
    aggregate (amount_column invoices) (product_column invoices)
      (mkFrame (columns invoices)
               (map (prepared (int_amounts ia (surviving ii ia ic clients invoices)) ii ia)
                    (surviving ii ia ic clients invoices))) in
  merge_email total_amounts (map_col ic (fun c => CStr (to_str c)) clients).
Proof.
  intros Hii Hic Hia.
  assert (ii <> ia) as N.
  { apply not_eq_sym.
    eapply index_neq; [apply amount_column_not_key|eassumption|eassumption]. }
  unfold summarize, drop_zero, astype_str, restrict, normalize, loc. simpl.
  rewrite Hia. simpl. rewrite Hii. simpl. rewrite Hic. simpl.
  rewrite Hii. simpl. rewrite Hic. simpl. rewrite Hia. simpl.
  unfold product_column. simpl.
  match goal with
  | |- bind (aggregate _ _ ?f) _ = bind (aggregate _ _ ?g) _ =>
      assert (f = g) as ->; [|reflexivity]
  end.
  unfold map_col, select, column. simpl. f_equal.
  assert (filter
            (fun r => isin (map (get ic)
                              (map (fun r0 => set_nth ic (CStr (to_str (get ic r0))) r0)
                                   (rows clients)))
                           (get ii r))
            (map (fun r => set_nth ii (CStr (to_str (get ii r))) r)
                 (filter (fun r => ne_zero (get ia r)) (rows invoices)))
          = map (fun r => set_nth ii (CStr (key ii r)) r)
                (surviving ii ia ic clients invoices)) as ->.
  { unfold surviving. rewrite filter_map_comm, filter_filter_and. f_equal.
    apply filter_ext. intros a. unfold survives. f_equal.
    rewrite get_set_nth_same. apply (isin_keys ic clients). }
  set (s := surviving ii ia ic clients invoices).
  assert (map (get ia)
            (map (fun r0 => set_nth ia (replace_cell (get ia r0)) r0)
                 (map (fun r => set_nth ii (CStr (key ii r)) r) s))
          = map (fun r => replace_cell (get ia r)) s) as ->.
  { rewrite !map_map. apply map_ext. intros r. rewrite get_set_nth_same.
    rewrite get_set_nth_other by congruence. reflexivity. }
  fold (int_amounts ia s).
  rewrite !map_map. apply map_ext. intros r. reflexivity.
Qed.

(** *** Keys, [unique] and [join] *)

Lemma insert_key_perm (k : string) (l : list string) :
  Permutation (insert_key k l) (k :: l).
Proof.
  induction l as [|x l IH]; simpl; [reflexivity|].
  destruct (String.leb k x); [reflexivity|].
  rewrite IH. apply perm_swap.
Qed.

Lemma sort_keys_perm (l : list string) : Permutation (sort_keys l) l.
Proof.
  induction l as [|x l IH]; simpl; [reflexivity|].
  rewrite insert_key_perm. constructor. assumption.
Qed.

Lemma sort_keys_In (l : list string) (k : string) : In k (sort_keys l) <-> In k l.
Proof.
  split; apply Permutation_in;
    [apply sort_keys_perm|apply Permutation_sym, sort_keys_perm].
Qed.

Lemma distinct_In (l : list string) (k : string) : In k (distinct l) <-> In k l.
Proof.
  induction l as [|x l IH]; simpl; [tauto|].
  rewrite filter_In, IH.
  destruct (String.eqb_spec k x) as [->|Hne]; simpl; intuition congruence.
Qed.

Lemma NoDup_filter {A : Type} (p : A -> bool) (l : list A) :
  NoDup l -> NoDup (filter p l).
Proof.
  induction 1 as [|x l Hx Hl IH]; simpl; [constructor|].
  destruct (p x); [constructor|]; auto.
  intros Hin. apply filter_In in Hin. tauto.
Qed.

Lemma distinct_NoDup (l : list string) : NoDup (distinct l).
Proof.
  induction l as [|x l IH]; simpl; constructor.
  - intros Hin. apply filter_In in Hin. destruct Hin as [_ H].
    rewrite String.eqb_refl in H. discriminate.
  - apply NoDup_filter. assumption.
Qed.

Lemma group_keys_In (l : list string) (k : string) :
  In k (sort_keys (distinct l)) <-> In k l.
Proof. rewrite sort_keys_In. apply distinct_In. Qed.

Lemma unique_from_In (seen x : list cell) (c : cell) :
  In c (unique_from seen x) -> In c x.
Proof.
  revert seen. induction x as [|d x IH]; simpl; intros seen H; [assumption|].
  destruct (isin seen d).
  - right. eapply IH. eassumption.
  - destruct H as [H|H]; [left; assumption|right; eapply IH; eassumption].
Qed.

Lemma unique_from_str (seen x : list cell) (s : string) :
  In (CStr s) x -> In (CStr s) seen \/ In (CStr s) (unique_from seen x).
Proof.
  revert seen. induction x as [|d x IH]; simpl; intros seen H; [contradiction|].
  destruct H as [->|H].
  - destruct (isin seen (CStr s)) eqn:E.
    + left. apply isin_str. assumption.
    + right. left. reflexivity.
  - destruct (isin seen d) eqn:E.
    + apply IH. assumption.
    + destruct (IH (d :: seen) H) as [[->|Hs]|Hu].
      * right. left. reflexivity.
      * left. assumption.
      * right. right. assumption.
Qed.

Lemma unique_str (x : list cell) (s : string) :
  In (CStr s) (unique x) <-> In (CStr s) x.
Proof.
  split; [apply unique_from_In|].
  intros H. destruct (unique_from_str [] x s H) as [[]|Hu]. assumption.
Qed.

Lemma unique_from_covers (seen x : list cell) (c : cell) :
  In c x -> isin seen c = true \/ In c (unique_from seen x)
            \/ exists d, In d (unique_from seen x) /\ cell_eqb c d = true.
Proof.
  revert seen. induction x as [|d x IH]; simpl; intros seen H; [contradiction|].
  destruct H as [->|H].
  - destruct (isin seen c) eqn:E; [left; reflexivity|]. right. left. left. reflexivity.
  - destruct (isin seen d) eqn:E.
    + apply IH. assumption.
    + destruct (IH (d :: seen) H) as [Hs|[Hu|[e [He Hce]]]].
      * simpl in Hs. apply orb_prop in Hs. destruct Hs as [Hs|Hs].
        -- right. right. exists d. split; [left; reflexivity|assumption].
        -- left. assumption.
      * right. left. right. assumption.
      * right. right. exists e. split; [right; assumption|assumption].
Qed.

Lemma texts_In (x : list cell) (s : string) : In s (texts x) <-> In (CStr s) x.
Proof.
  unfold texts. rewrite in_flat_map. split.
  - intros [c [Hc Hs]]. destruct c; simpl in Hs; try contradiction.
    destruct Hs as [->|[]]. assumption.
  - intros H. exists (CStr s). split; [assumption|left; reflexivity].
Qed.

Lemma str_items_ok (x : list cell) : all_text x -> str_items x = Ok (texts x).
Proof.
  unfold all_text. induction x as [|c x IH]; intros H; simpl; [reflexivity|].
  destruct (H c (or_introl eq_refl)) as [s ->].
  rewrite IH by (intros d Hd; apply H; right; assumption). reflexivity.
Qed.

Lemma str_items_inv (x : list cell) (l : list string) :
  str_items x = Ok l -> all_text x.
Proof.
  unfold all_text. revert l. induction x as [|c x IH]; simpl; intros l H d Hd; [contradiction|].
  destruct c; try discriminate.
  destruct (str_items x) as [l'|e] eqn:E; simpl in H; [|discriminate].
  destruct Hd as [<-|Hd]; [eauto|]. eapply IH; eauto.
Qed.

Lemma unique_all_text (x : list cell) : all_text (unique x) <-> all_text x.
Proof.
  unfold all_text. split; intros H c Hc.
  - destruct (unique_from_covers [] x c Hc) as [Hs|[Hu|[d [Hd Hcd]]]].
    + discriminate.
    + apply H. assumption.
    + destruct (H d Hd) as [s ->]. exists s. apply cell_eqb_str_r. assumption.
  - apply H. eapply unique_from_In. eassumption.
Qed.

Lemma mapM_ok {A B : Type} (f : A -> res B) (g : A -> B) (l : list A) :
  (forall a, In a l -> f a = Ok (g a)) -> mapM f l = Ok (map g l).
Proof.
  induction l as [|a l IH]; intros H; simpl; [reflexivity|].
  rewrite (H a (or_introl eq_refl)). simpl.
  rewrite IH by (intros b Hb; apply H; right; assumption). reflexivity.
Qed.

Lemma mapM_ext {A B : Type} (f g : A -> res B) (l : list A) :
  (forall a, f a = g a) -> mapM f l = mapM g l.
Proof.
  intros H. induction l as [|a l IH]; simpl; [reflexivity|].
  rewrite H, IH. reflexivity.
Qed.

Lemma mapM_inv {A B : Type} (f : A -> res B) (l : list A) (bs : list B) :
  mapM f l = Ok bs -> forall a, In a l -> exists b, f a = Ok b.
Proof.
  revert bs. induction l as [|a l IH]; simpl; intros bs H x Hx; [contradiction|].
  destruct (f a) as [b|e] eqn:E; simpl in H; [|discriminate].
  destruct (mapM f l) as [bs'|e] eqn:E'; simpl in H; [|discriminate].
  destruct Hx as [<-|Hx]; [eauto|]. eapply IH; eauto.
Qed.

(** *** Aggregation and join on the prepared rows *)

Lemma group_prepared (b : bool) (cols : list string) (ii ia : nat) (k : string)
    (s : list row) :
  ii <> ia ->
  group ii k (mkFrame cols (map (prepared b ii ia) s))
  = map (prepared b ii ia) (rows_of ii k s).
Proof.
  intros H. unfold group, rows_of. simpl. rewrite filter_map_comm. f_equal.
  apply filter_ext. intros r. rewrite prepared_key by assumption. reflexivity.
Qed.

Lemma group_keys_prepared (b : bool) (cols : list string) (ii ia : nat) (s : list row) :
  ii <> ia ->
  group_keys ii (mkFrame cols (map (prepared b ii ia) s))
  = sort_keys (distinct (map (key ii) s)).
Proof.
  intros H. unfold group_keys. simpl. rewrite map_map. do 2 f_equal.
  apply map_ext. intros r. rewrite prepared_key by assumption. reflexivity.
Qed.

Lemma amounts_prepared (b : bool) (ii ia : nat) (g : list row) :
  ii <> ia ->
  map (get ia) (map (prepared b ii ia) g) = map (amount_cell b ia) g.
Proof.
  intros H. rewrite map_map. apply map_ext. intros r.
  apply prepared_amount. assumption.
Qed.

Lemma sum_cells_prepared (b : bool) (ii ia : nat) (g : list row) :
  ii <> ia ->
  sum_cells group_sum b (map (get ia) (map (prepared b ii ia) g)) = sum_amounts b ia g.
Proof.
  intros H. unfold sum_amounts. rewrite amounts_prepared by assumption. reflexivity.
Qed.

(** The converted column is an int64 column exactly when every cell was read
    as an integer. *)
Lemma is_int_numeric (x : list cell) :
  forallb is_int (map (numeric_cell (integral x)) x) = integral x.
Proof.
  destruct (integral x) eqn:E.
  - unfold integral in E. rewrite forallb_forall in E. apply forallb_forall.
    intros c Hc. apply in_map_iff in Hc. destruct Hc as [c0 [<- Hc0]].
    specialize (E c0 Hc0). simpl. destruct (to_int c0); [reflexivity|discriminate].
  - destruct x as [|c x]; [discriminate|]. simpl.
    destruct (to_numeric c); reflexivity.
Qed.

Lemma is_int_prepared (cols : list string) (ii ia : nat) (s : list row) :
  ii <> ia ->
  forallb is_int (column ia (mkFrame cols (map (prepared (int_amounts ia s) ii ia) s)))
  = int_amounts ia s.
Proof.
  intros H. unfold column. simpl. rewrite amounts_prepared by assumption.
  unfold int_amounts, amount_cell.
  rewrite <- (map_map (fun r => replace_cell (get ia r))
                      (numeric_cell (integral (map (fun r => replace_cell (get ia r)) s)))).
  apply is_int_numeric.
Qed.

Lemma products_prepared (b : bool) (ii ia ip : nat) (g : list row) :
  ip <> ii -> ip <> ia ->
  map (get ip) (map (prepared b ii ia) g) = map (get ip) g.
Proof.
  intros H1 H2. rewrite map_map. apply map_ext. intros r.
  apply prepared_other; assumption.
Qed.

Lemma rows_of_In (ii : nat) (k : string) (s : list row) (r : row) :
  In r (rows_of ii k s) <-> In r s /\ key ii r = k.
Proof.
  unfold rows_of. rewrite filter_In, String.eqb_eq. reflexivity.
Qed.

Lemma resolved_neq (invoices clients : frame) (ii ic ie ia ip : nat) :
  resolved invoices clients ii ic ie ia ip ->
  ii <> ia /\ ip <> ii /\ ip <> ia /\ ic <> ie.
Proof.
  intros [Hii Hic Hie Hia Hip Hd]. repeat split.
  - apply not_eq_sym. eapply index_neq; [apply amount_column_not_key|eassumption|eassumption].
  - eapply index_neq; [apply product_column_not_key|eassumption|eassumption].
  - eapply index_neq; [apply not_eq_sym; eassumption|eassumption|eassumption].
  - eapply index_neq; [|eassumption|eassumption]. vm_compute. discriminate.
Qed.

Lemma aggregate_prepared (invoices clients : frame) (ii ic ie ia ip : nat) (s : list row) :
  resolved invoices clients ii ic ie ia ip ->
  (forall r, In r s -> exists t, get ip r = CStr t) ->
  aggregate (amount_column invoices) (product_column invoices)
    (mkFrame (columns invoices) (map (prepared (int_amounts ia s) ii ia) s))
  = Ok (mkFrame [CLIENT_ID; "Total Amount"; "Products"]
          (map (summary_row ii ia ip s) (sort_keys (distinct (map (key ii) s))))).
Proof.
  intros R Htext. destruct (resolved_neq _ _ _ _ _ _ _ R) as [N1 [N2 [N3 _]]].
  destruct R as [Hii Hic Hie Hia Hip Hd].
  unfold aggregate, loc.
  change (columns (mkFrame (columns invoices)
                     (map (prepared (int_amounts ia s) ii ia) s)))
    with (columns invoices).
  rewrite Hii, Hia, Hip. cbn [bind].
  apply String.eqb_neq in Hd. rewrite Hd.
  rewrite is_int_prepared by assumption.
  rewrite group_keys_prepared by assumption.
  rewrite (mapM_ok _ (summary_row ii ia ip s)); [reflexivity|].
  intros k _. rewrite group_prepared by assumption.
  unfold products_of. simpl.
  assert (PyStr.mem (product_column invoices) (columns invoices) = true) as ->
    by (apply col_index_mem; eauto).
  rewrite products_prepared by assumption.
  rewrite str_items_ok.
  - simpl. rewrite sum_cells_prepared by assumption. reflexivity.
  - apply unique_all_text. intros c Hc. apply in_map_iff in Hc.
    destruct Hc as [r [<- Hr]]. apply Htext. apply rows_of_In in Hr. tauto.
Qed.

Lemma merge_prepared (clients : frame) (ic ie : nat) (t : list row) :
  col_index CLIENT_ID (columns clients) = Some ic ->
  col_index EMAIL (columns clients) = Some ie ->
  ic <> ie ->
  (forall l, In l t -> exists k, get 0 l = CStr k) ->
  merge_email (mkFrame [CLIENT_ID; "Total Amount"; "Products"] t)
              (map_col ic (fun c => CStr (to_str c)) clients)
  = Ok (mkFrame RESULT_HEADER
          (flat_map (fun l => joined ic ie clients (to_str (get 0 l)) l) t)).
Proof.
  intros Hic Hie Hne Hkey. unfold merge_email, loc.
  change (col_index CLIENT_ID
            (columns (mkFrame [CLIENT_ID; "Total Amount"; "Products"] t)))
    with (Some 0%nat).
  simpl.
  assert (PyStr.mem EMAIL (columns clients) = true) as -> by (apply col_index_mem; eauto).
  rewrite Hic, Hie. simpl.
  unfold RESULT_HEADER. do 2 f_equal.
  apply flat_map_ext_in.
  intros l Hl. destruct (Hkey l Hl) as [k Hk]. rewrite Hk. simpl. unfold joined.
  rewrite filter_map_comm.
  rewrite (filter_ext _ (fun c => String.eqb k (key ic c))).
  2:{ intros c. rewrite get_set_nth_same. reflexivity. }
  destruct (filter (fun c => String.eqb k (key ic c)) (rows clients)) as [|c cs];
    simpl; [reflexivity|].
  rewrite !get_set_nth_other by assumption. f_equal.
  rewrite map_map. apply map_ext. intros c'.
  rewrite get_set_nth_other by assumption. reflexivity.
Qed.

Lemma flat_map_map_comm {A B C : Type} (f : B -> list C) (g : A -> B) (l : list A) :
  flat_map f (map g l) = flat_map (fun a => f (g a)) l.
Proof.
  induction l as [|a l IH]; simpl; congruence.
Qed.

(** When the columns are resolved and the product cells are strings, lines
    194-241 end without exception and give the rows [summary_rows]. *)
Lemma summarize_ok (invoices clients : frame) (ii ic ie ia ip : nat) :
  resolved invoices clients ii ic ie ia ip ->
  products_are_text ii ic ia ip clients invoices ->
  summarize invoices clients
  = Ok (mkFrame RESULT_HEADER (summary_rows ii ic ie ia ip clients invoices)).
Proof.
  intros R Htext. destruct (resolved_neq _ _ _ _ _ _ _ R) as [N1 [N2 [N3 N4]]].
  rewrite (summarize_prepare invoices clients ii ic ia) by apply R.
  rewrite (aggregate_prepared invoices clients ii ic ie ia ip) by assumption.
  simpl. rewrite (merge_prepared clients ic ie); try apply R; try assumption.
  - unfold summary_rows. rewrite flat_map_map_comm. reflexivity.
  - intros l Hl. apply in_map_iff in Hl. destruct Hl as [k [<- _]]. eexists. reflexivity.
Qed.

Lemma aggregate_prepared_inv (b : bool) (amount_col product_col : string)
    (cols : list string) (ii ia ip : nat) (s : list row) (t : frame) :
  col_index CLIENT_ID cols = Some ii ->
  col_index amount_col cols = Some ia ->
  col_index product_col cols = Some ip ->
  ii <> ia -> ip <> ii -> ip <> ia ->
  aggregate amount_col product_col (mkFrame cols (map (prepared b ii ia) s)) = Ok t ->
  amount_col <> product_col /\ forall r, In r s -> exists x, get ip r = CStr x.
Proof.
  intros Hii Hia Hip N1 N2 N3. unfold aggregate, loc. simpl.
  rewrite Hii, Hia, Hip. simpl.
  destruct (String.eqb_spec amount_col product_col) as [E|E].
  - destruct (map (prepared b ii ia) s); discriminate.
  - intros H. split; [assumption|]. intros r Hr.
    match type of H with
    | bind (mapM ?f ?l) _ = _ => destruct (mapM f l) as [gs|e] eqn:Hm; [|discriminate]
    end.
    clear H. rewrite group_keys_prepared in Hm by assumption.
    destruct (mapM_inv _ _ _ Hm (key ii r)) as [y Hb].
    { apply group_keys_In. apply in_map. assumption. }
    rewrite group_prepared in Hb by assumption.
    unfold products_of in Hb. simpl in Hb.
    assert (PyStr.mem product_col cols = true) as Hmem by (apply col_index_mem; eauto).
    rewrite Hmem, products_prepared in Hb by assumption.
    destruct (str_items (unique (map (get ip) (rows_of ii (key ii r) s)))) as [items|e] eqn:Hs;
      [|discriminate].
    apply str_items_inv in Hs. apply (proj1 (unique_all_text _)) in Hs.
    apply Hs. apply in_map. apply rows_of_In. auto.
Qed.

(** Conversely, a run of lines 194-241 that ends without exception on a
    client table with an Email column has resolved its columns and met only
    strings in the product cells. *)
Lemma summarize_inv (invoices clients out : frame) (ie : nat) :
  col_index EMAIL (columns clients) = Some ie ->
  summarize invoices clients = Ok out ->
  exists ii ic ia ip,
    resolved invoices clients ii ic ie ia ip
    /\ products_are_text ii ic ia ip clients invoices.
Proof.
  intros Hie H.
  destruct (col_index CLIENT_ID (columns invoices)) as [ii|] eqn:Hii.
  2:{ unfold summarize, drop_zero, astype_str, loc in H. simpl in H.
      destruct (col_index (amount_column invoices) (columns invoices)); simpl in H;
        [rewrite Hii in H|]; discriminate. }
  destruct (col_index (amount_column invoices) (columns invoices)) as [ia|] eqn:Hia.
  2:{ unfold summarize, drop_zero, loc in H. rewrite Hia in H. discriminate. }
  destruct (col_index CLIENT_ID (columns clients)) as [ic|] eqn:Hic.
  2:{ unfold summarize, drop_zero, astype_str, loc in H. simpl in H.
      rewrite Hia in H. simpl in H. rewrite Hii in H. simpl in H.
      rewrite Hic in H. discriminate. }
  rewrite (summarize_prepare invoices clients ii ic ia) in H by assumption.
  match type of H with
  | bind ?a _ = _ => destruct a as [t|e] eqn:Ha; [|discriminate]
  end.
  assert (ii <> ia) as N1.
  { apply not_eq_sym. eapply index_neq; [apply amount_column_not_key|eassumption|eassumption]. }
  destruct (col_index (product_column invoices) (columns invoices)) as [ip|] eqn:Hip.
  2:{ unfold aggregate, loc in Ha. simpl in Ha. rewrite Hii, Hia, Hip in Ha. discriminate. }
  assert (ip <> ii) as N2.
  { eapply index_neq; [apply product_column_not_key|eassumption|eassumption]. }
  destruct (String.eqb_spec (amount_column invoices) (product_column invoices)) as [E|E].
  { unfold aggregate, loc in Ha. simpl in Ha. rewrite Hii, Hia, Hip in Ha. simpl in Ha.
    apply String.eqb_eq in E. rewrite E in Ha.
    destruct (map (prepared _ ii ia) (surviving ii ia ic clients invoices)); discriminate. }
  assert (ip <> ia) as N3.
  { eapply index_neq; [apply not_eq_sym; eassumption|eassumption|eassumption]. }
  destruct (aggregate_prepared_inv _ _ _ _ ii ia ip _ _ Hii Hia Hip N1 N2 N3 Ha)
    as [_ Htext].
  exists ii, ic, ia, ip. split; [constructor; assumption|exact Htext].
Qed.

(** *** The retained clients *)

Lemma col_index_rename_other (a old new : string) (cols : list string) :
  a <> new -> PyStr.mem old cols = true -> a <> old ->
  col_index a (map (fun c => if String.eqb c old then new else c) cols) = col_index a cols.
Proof.
  intros Hn _ Ho. induction cols as [|c cols IH]; simpl; [reflexivity|].
  destruct (String.eqb_spec c old) as [->|Hc].
  - apply String.eqb_neq in Ho. rewrite String.eqb_sym in Ho. rewrite Ho.
    apply not_eq_sym in Hn. apply String.eqb_neq in Hn. rewrite Hn.
    rewrite IH. reflexivity.
  - rewrite IH. reflexivity.
Qed.

Lemma rename_client_id_keeps_email (df : frame) :
  col_index EMAIL (columns (rename_to CLIENT_ID is_client_num df))
  = col_index EMAIL (columns df).
Proof.
  unfold rename_to. destruct (PyStr.mem CLIENT_ID (columns df)); [reflexivity|].
  destruct (first_match is_client_num (columns df)) as [c|] eqn:E; [|reflexivity].
  destruct (first_match_mem _ _ _ E) as [Hm Hp]. simpl.
  apply col_index_rename_other; [vm_compute; discriminate|assumption|].
  intros <-. vm_compute in Hp. discriminate.
Qed.

Lemma rename_to_rows (canonical : string) (p : string -> bool) (df : frame) :
  rows (rename_to canonical p df) = rows df.
Proof.
  unfold rename_to. destruct (PyStr.mem canonical (columns df)); [reflexivity|].
  destruct (first_match p (columns df)); reflexivity.
Qed.

Lemma rename_to_columns (canonical : string) (p : string -> bool) (df df' : frame) :
  columns df = columns df' ->
  columns (rename_to canonical p df) = columns (rename_to canonical p df').
Proof.
  unfold rename_to. intros H. rewrite <- H.
  destruct (PyStr.mem canonical (columns df)); [assumption|].
  destruct (first_match p (columns df)); [simpl; rewrite H; reflexivity|assumption].
Qed.

Lemma known_clients_inv (clients k : frame) (emails : list cell) :
  known_clients clients emails = Ok k ->
  exists ie,
    col_index EMAIL (columns (rename_to EMAIL is_email clients)) = Some ie
    /\ col_index EMAIL (columns k) = Some ie
    /\ columns k = columns (rename_to CLIENT_ID is_client_num (rename_to EMAIL is_email clients))
    /\ rows k = filter (fun r => isin emails (get ie r)) (rows clients).
Proof.
  unfold known_clients, loc.
  destruct (col_index EMAIL (columns (rename_to EMAIL is_email clients))) as [ie|] eqn:E;
    simpl; [|discriminate].
  intros H. inversion H; subst; clear H. exists ie.
  split; [reflexivity|]. split; [|split].
  - rewrite rename_client_id_keeps_email. simpl. assumption.
  - apply rename_to_columns. reflexivity.
  - rewrite rename_to_rows. simpl. rewrite rename_to_rows. reflexivity.
Qed.

Lemma reconcile_inv (k resa clients : frame) :
  reconcile k resa = Ok clients ->
  exists ic ir,
    col_index CLIENT_ID (columns k) = Some ic
    /\ col_index CLIENT_ID (columns resa) = Some ir
    /\ columns clients = columns k
    /\ rows clients =
       filter (fun r => negb (isin (column ic
                 (select (fun r' => isin (column ir resa) (get ic r')) k)) (get ic r)))
              (rows k).
Proof.
  unfold reconcile, loc.
  destruct (col_index CLIENT_ID (columns k)) as [ic|]; simpl; [|discriminate].
  destruct (col_index CLIENT_ID (columns resa)) as [ir|]; simpl; [|discriminate].
  intros H. inversion H; subst; clear H. exists ic, ir. auto.
Qed.

(** The clients kept by line 189 are those whose number is not among the
    numbers of the before-cutoff invoices, as [isin] compares them. *)
Lemma reconcile_rows (k resa : frame) (ic ir : nat) (r : row) :
  In r (rows k) ->
  negb (isin (column ic (select (fun r' => isin (column ir resa) (get ic r')) k)) (get ic r))
  = negb (isin (column ir resa) (get ic r)) \/
  isin (column ir resa) (get ic r) = false.
Proof.
  intros Hr. destruct (isin (column ir resa) (get ic r)) eqn:E; [left|right; reflexivity].
  rewrite isin_In; [reflexivity|].
  unfold column, select. simpl. apply in_map. apply filter_In. auto.
Qed.

Lemma retained_inv (inp : inputs) (resa clients : frame) :
  retained inp resa = Ok clients ->
  exists ic ie ir,
    col_index CLIENT_ID (columns clients) = Some ic
    /\ col_index EMAIL (columns clients) = Some ie
    /\ col_index CLIENT_ID (columns resa) = Some ir
    /\ forall c, In c (rows clients) -> isin (column ir resa) (get ic c) = false.
Proof.
  unfold retained. intros H.
  destruct (contact_emails (boost_file inp)) as [emails|e]; [|discriminate].
  simpl in H.
  destruct (known_clients (clients_file inp) emails) as [k|e] eqn:Hk; [|discriminate].
  simpl in H. apply known_clients_inv in Hk. destruct Hk as [ie [_ [Hie _]]].
  apply reconcile_inv in H. destruct H as [ic [ir [Hic [Hir [Hcols Hrows]]]]].
  exists ic, ie, ir. rewrite Hcols. repeat split; try assumption.
  intros c Hc. rewrite Hrows in Hc. apply filter_In in Hc. destruct Hc as [Hc Hn].
  destruct (reconcile_rows k resa ic ir c Hc) as [E|E]; [|assumption].
  rewrite E in Hn. destruct (isin (column ir resa) (get ic c)); [discriminate|reflexivity].
Qed.

(** *** The whole run *)

Lemma process_ok (inp : inputs) (resa invoices clients : frame) (ii ic ie ia ip : nat) :
  partition inp = Ok (resa, invoices) ->
  retained inp resa = Ok clients ->
  resolved invoices clients ii ic ie ia ip ->
  products_are_text ii ic ia ip clients invoices ->
  process inp = Ok (mkFrame RESULT_HEADER (summary_rows ii ic ie ia ip clients invoices)).
Proof.
  intros Hp Hr R Ht. unfold process. rewrite Hp. simpl. rewrite Hr. simpl.
  apply summarize_ok; assumption.
Qed.

Lemma process_inv (inp : inputs) (out : frame) :
  process inp = Ok out ->
  exists resa invoices clients ii ic ie ia ip,
    partition inp = Ok (resa, invoices)
    /\ retained inp resa = Ok clients
    /\ resolved invoices clients ii ic ie ia ip
    /\ products_are_text ii ic ia ip clients invoices
    /\ out = mkFrame RESULT_HEADER (summary_rows ii ic ie ia ip clients invoices).
Proof.
  unfold process. intros H.
  destruct (partition inp) as [[resa invoices]|e] eqn:Hp; [|discriminate].
  simpl in H.
  destruct (retained inp resa) as [clients|e] eqn:Hr; [|discriminate].
  simpl in H.
  destruct (retained_inv _ _ _ Hr) as [ic0 [ie [ir [_ [Hie _]]]]].
  destruct (summarize_inv _ _ _ ie Hie H) as [ii [ic [ia [ip [R Ht]]]]].
  exists resa, invoices, clients, ii, ic, ie, ia, ip.
  split; [reflexivity|]. split; [assumption|]. split; [assumption|]. split; [assumption|].
  rewrite (summarize_ok _ _ _ _ _ _ _ R Ht) in H. congruence.
Qed.

(** *** The partition *)

Lemma partition_by_date (inp : inputs) :
  splits_by_date inp = true ->
  exists date_col i,
    col_index date_col (columns (invoice_file inp)) = Some i
    /\ partition inp = split_by_date date_col (cutoff inp) (invoice_file inp).
Proof.
  unfold splits_by_date, partition.
  destruct (filter is_date (columns (invoice_file inp))) as [|d ds] eqn:E.
  - intros H. rewrite H. apply andb_prop in H. destruct H as [_ H].
    apply col_index_mem in H. destruct H as [i Hi]. eauto.
  - intros _. assert (In d (filter is_date (columns (invoice_file inp)))) as Hd
      by (rewrite E; left; reflexivity).
    apply filter_In in Hd. destruct Hd as [Hd _].
    assert (PyStr.mem d (columns (invoice_file inp)) = true) as Hm.
    { apply existsb_exists. exists d. split; [assumption|apply String.eqb_refl]. }
    apply col_index_mem in Hm. destruct Hm as [i Hi]. eauto.
Qed.

Lemma split_by_date_rows (date_col : string) (cutoff : Z) (df : frame) (i : nat) :
  col_index date_col (columns df) = Some i ->
  split_by_date date_col cutoff df
  = match date_error (column i df) with
    | Some e => Err e
    | None =>
        Ok (mkFrame (columns df)
              (map (dated i df)
                   (filter (fun r => lt_cutoff cutoff (date_cell (column i df) (get i r)))
                           (rows df))),
            mkFrame (columns df)
              (map (dated i df)
                   (filter (fun r => ge_cutoff cutoff (date_cell (column i df) (get i r)))
                           (rows df))))
    end.
Proof.
  intros Hi. unfold split_by_date, loc. rewrite Hi. simpl.
  destruct (date_error (column i df)) as [e|]; [reflexivity|].
  unfold select, map_col. simpl. rewrite !filter_map_comm.
  unfold dated.
  rewrite (filter_ext (fun a => lt_cutoff cutoff
             (get i (set_nth i (date_cell (column i df) (get i a)) a)))
             (fun r => lt_cutoff cutoff (date_cell (column i df) (get i r))))
    by (intros r; cbv beta; rewrite get_set_nth_same; reflexivity).
  rewrite (filter_ext (fun a => ge_cutoff cutoff
             (get i (set_nth i (date_cell (column i df) (get i a)) a)))
             (fun r => ge_cutoff cutoff (date_cell (column i df) (get i r))))
    by (intros r; cbv beta; rewrite get_set_nth_same; reflexivity).
  reflexivity.
Qed.

Lemma dated_cell (i : nat) (df : frame) (r : row) :
  get i (dated i df r) = date_cell (column i df) (get i r).
Proof. apply get_set_nth_same. Qed.

Lemma In_dated (i : nat) (df : frame) (p : cell -> bool) (l : list row) (r : row) :
  In (dated i df r)
     (map (dated i df) (filter (fun r => p (date_cell (column i df) (get i r))) l))
  <-> In (dated i df r) (map (dated i df) l)
      /\ p (date_cell (column i df) (get i r)) = true.
Proof.
  rewrite !in_map_iff. split.
  - intros [x [Hx Hin]]. apply filter_In in Hin. destruct Hin as [Hin Hp].
    split; [eauto|]. rewrite <- dated_cell, <- Hx, dated_cell. assumption.
  - intros [[x [Hx Hin]] Hp]. exists x. split; [assumption|].
    apply filter_In. split; [assumption|].
    rewrite <- dated_cell, Hx, dated_cell. assumption.
Qed.

Lemma split_count (i : nat) (df : frame) (cutoff : Z) (l : list row) :
  (List.length (filter (fun r => lt_cutoff cutoff (date_cell (column i df) (get i r))) l)
   + List.length (filter (fun r => ge_cutoff cutoff (date_cell (column i df) (get i r))) l)
   + List.length (filter (undated_row i df) l)
   = List.length l)%nat.
Proof.
  induction l as [|r l IH]; simpl; [reflexivity|].
  unfold undated_row, date_cell in *.
  destruct (to_datetime (column i df) (get i r)) as [t|]; simpl.
  - destruct (Z.ltb_spec t cutoff), (Z.leb_spec cutoff t); simpl; lia.
  - lia.
Qed.

(** C3: when the ledger is split on a date column, either lines 120-124
    raise on that column and the run ends there, or the two tables are made
    and every row lands in exactly one of three sets: before the cutoff when
    its date is read and is strictly earlier, after when it is read and is
    the cutoff or later, and in neither table when the date is not read; the
    three sets account for every row. *)
Theorem partition_exclusive (inp : inputs) (r : row) :
  splits_by_date inp = true ->
  In r (rows (invoice_file inp)) ->
  exists date_col i,
    col_index date_col (columns (invoice_file inp)) = Some i
    /\ match date_error (column i (invoice_file inp)) with
       | Some e => partition inp = Err e
       | None =>
           exists resa invoices,
             partition inp = Ok (resa, invoices)
             /\ match to_datetime (column i (invoice_file inp)) (get i r) with
                | Some t =>
                    if Z.ltb t (cutoff inp)
                    then In (dated i (invoice_file inp) r) (rows resa)
                         /\ ~ In (dated i (invoice_file inp) r) (rows invoices)
                    else In (dated i (invoice_file inp) r) (rows invoices)
                         /\ ~ In (dated i (invoice_file inp) r) (rows resa)
                | None =>
                    ~ In (dated i (invoice_file inp) r) (rows resa)
                    /\ ~ In (dated i (invoice_file inp) r) (rows invoices)
                end
             /\ (List.length (rows resa) + List.length (rows invoices)
                 + List.length (filter (undated_row i (invoice_file inp))
                                       (rows (invoice_file inp)))
                 = List.length (rows (invoice_file inp)))%nat
       end.
Proof.
  intros Hs Hr. destruct (partition_by_date inp Hs) as [date_col [i [Hi Hp]]].
  rewrite (split_by_date_rows _ _ _ i Hi) in Hp.
  exists date_col, i. split; [assumption|].
  destruct (date_error (column i (invoice_file inp))) as [e|]; [exact Hp|].
  eexists _, _. split; [exact Hp|].
  simpl. split.
  - assert (In (dated i (invoice_file inp) r)
               (map (dated i (invoice_file inp)) (rows (invoice_file inp)))) as Hin
      by (apply in_map; assumption).
    pose proof (In_dated i (invoice_file inp) (lt_cutoff (cutoff inp))
                  (rows (invoice_file inp)) r) as Hb.
    pose proof (In_dated i (invoice_file inp) (ge_cutoff (cutoff inp))
                  (rows (invoice_file inp)) r) as Ha.
    unfold date_cell in Ha, Hb.
    destruct (to_datetime (column i (invoice_file inp)) (get i r)) as [t|];
      simpl in Ha, Hb.
    + destruct (Z.ltb_spec t (cutoff inp)), (Z.leb_spec (cutoff inp) t);
        try lia; split; try tauto.
      * rewrite Ha. intros [_ H']. discriminate.
      * rewrite Hb. intros [_ H']. discriminate.
    + rewrite Ha, Hb. split; intros [_ H']; discriminate.
  - rewrite !length_map. apply split_count.
Qed.

(** *** The rows of the result *)

Lemma joined_key (ic ie : nat) (clients : frame) (k : string) (x y : cell) (l : row) :
  In l (joined ic ie clients k [CStr k; x; y]) ->
  exists e, l = [CStr k; x; y; e].
Proof.
  unfold joined.
  destruct (filter (fun c => String.eqb k (key ic c)) (rows clients)) as [|c cs].
  - intros [<-|[]]. eexists. reflexivity.
  - intros H. apply in_map_iff in H. destruct H as [c' [<- _]]. eexists. reflexivity.
Qed.

Lemma summary_rows_In (ii ic ie ia ip : nat) (clients invoices : frame) (l : row) :
  In l (summary_rows ii ic ie ia ip clients invoices) ->
  exists k e,
    In k (map (key ii) (surviving ii ia ic clients invoices))
    /\ l = (summary_row ii ia ip (surviving ii ia ic clients invoices) k ++ [e])%list.
Proof.
  unfold summary_rows. intros H. apply in_flat_map in H.
  destruct H as [k [Hk Hl]]. apply (proj1 (group_keys_In _ _)) in Hk.
  unfold summary_row in Hl. apply joined_key in Hl. destruct Hl as [e ->].
  exists k, e. split; [assumption|reflexivity].
Qed.

Lemma surviving_In (ii ia ic : nat) (clients invoices : frame) (r : row) :
  In r (surviving ii ia ic clients invoices)
  <-> In r (rows invoices) /\ ne_zero (get ia r) = true
      /\ is_retained ic clients (key ii r) = true.
Proof.
  unfold surviving, survives. rewrite filter_In, andb_true_iff. reflexivity.
Qed.

Lemma is_retained_In (ic : nat) (clients : frame) (k : string) :
  is_retained ic clients k = true <-> exists c, In c (rows clients) /\ key ic c = k.
Proof.
  unfold is_retained. rewrite existsb_exists. split; intros [c [Hc Hk]]; exists c.
  - apply String.eqb_eq in Hk. auto.
  - split; [assumption|]. apply String.eqb_eq. auto.
Qed.

(** C10: on a run that ends without exception, every result row carries the
    number of a retained client that has an invoice after the cutoff which
    passed the zero filter; a retained client without such an invoice has no
    row in the result.  The warnings of a run depend on the headers and on
    whether lines 112-139 raise: another run on the same headers warns of
    nothing more, and of the same when its ledger is split without
    exception, so none is raised for such a client. *)
Theorem result_rows_have_surviving_invoice (inp : inputs) (out : frame) :
  process inp = Ok out ->
  exists resa invoices clients ii ic ia,
    partition inp = Ok (resa, invoices)
    /\ retained inp resa = Ok clients
    /\ col_index CLIENT_ID (columns invoices) = Some ii
    /\ col_index CLIENT_ID (columns clients) = Some ic
    /\ col_index (amount_column invoices) (columns invoices) = Some ia
    /\ (forall l, In l (rows out) ->
         exists c r,
           In c (rows clients) /\ In r (rows invoices)
           /\ ne_zero (get ia r) = true
           /\ key ii r = key ic c
           /\ get 0 l = CStr (key ic c))
    /\ (forall c, In c (rows clients) ->
         (forall r, In r (rows invoices) -> ne_zero (get ia r) = true ->
                    key ii r <> key ic c) ->
         forall l, In l (rows out) -> get 0 l <> CStr (key ic c))
    /\ (forall inp',
         columns (invoice_file inp') = columns (invoice_file inp) ->
         columns (boost_file inp') = columns (boost_file inp) ->
         date_col_name inp' = date_col_name inp ->
         (forall m, In m (warnings inp') -> In m (warnings inp))
         /\ (forall parts, partition inp' = Ok parts -> warnings inp' = warnings inp)).
Proof.
  intros H.
  destruct (process_inv inp out H)
    as [resa [invoices [clients [ii [ic [ie [ia [ip [Hp [Hr [R [Ht ->]]]]]]]]]]]].
  assert (forall l, In l (summary_rows ii ic ie ia ip clients invoices) ->
            exists c r,
              In c (rows clients) /\ In r (rows invoices)
              /\ ne_zero (get ia r) = true
              /\ key ii r = key ic c
              /\ get 0 l = CStr (key ic c)) as Hrows.
  { intros l Hl. apply summary_rows_In in Hl. destruct Hl as [k [e [Hk ->]]].
    apply in_map_iff in Hk. destruct Hk as [r [Hkr Hs]].
    apply surviving_In in Hs. destruct Hs as [Hin [Hz Hret]].
    apply is_retained_In in Hret. destruct Hret as [c [Hc Hkc]].
    exists c, r. repeat split; try assumption; [congruence|].
    simpl. unfold get. simpl. congruence. }
  exists resa, invoices, clients, ii, ic, ia.
  split; [assumption|]. split; [assumption|].
  split; [apply R|]. split; [apply R|]. split; [apply R|].
  split; [exact Hrows|]. split.
  - intros c Hc Hnone l Hl Hkey. simpl in Hl.
    destruct (Hrows l Hl) as [c' [r [_ [Hr' [Hz [Hk Hg]]]]]].
    apply (Hnone r Hr' Hz). rewrite Hg in Hkey. congruence.
  - intros inp' Hi Hb Hd. unfold warnings, date_warnings, contact_warnings.
    rewrite Hi, Hb, Hd, Hp. split.
    + intros m Hm. apply in_app_iff in Hm. apply in_app_iff.
      destruct Hm as [Hm|Hm]; [left; assumption|].
      destruct (partition inp'); [right; assumption|contradiction].
    + intros parts ->. reflexivity.
Qed.

Lemma joined_nonempty (ic ie : nat) (clients : frame) (k : string) (l : row) :
  exists e, In (l ++ [e])%list (joined ic ie clients k l).
Proof.
  unfold joined.
  destruct (filter (fun c => String.eqb k (key ic c)) (rows clients)) as [|c cs].
  - exists CNaN. left. reflexivity.
  - exists (get ie c). left. reflexivity.
Qed.

Lemma summary_rows_complete (ii ic ie ia ip : nat) (clients invoices : frame) (r : row) :
  In r (surviving ii ia ic clients invoices) ->
  exists e,
    In (summary_row ii ia ip (surviving ii ia ic clients invoices) (key ii r) ++ [e])%list
       (summary_rows ii ic ie ia ip clients invoices).
Proof.
  intros Hr.
  destruct (joined_nonempty ic ie clients (key ii r)
              (summary_row ii ia ip (surviving ii ia ic clients invoices) (key ii r)))
    as [e He].
  exists e. unfold summary_rows. apply in_flat_map. exists (key ii r).
  split; [|assumption]. apply group_keys_In. apply in_map. assumption.
Qed.

Lemma amount_val_counted (b : bool) (ia : nat) (r : row) :
  counted b ia r = false -> amount_val b ia r = Q2Qc 0.
Proof.
  unfold counted, amount_val. destruct (amount_cell b ia r); simpl; try reflexivity.
  - intros H. apply negb_false_iff, Z.eqb_eq in H. subst. reflexivity.
  - intros H. apply negb_false_iff, Qc_eq_bool_correct in H. assumption.
Qed.

Lemma exact_total_filter (b : bool) (ia : nat) (p : row -> bool) (g : list row) :
  (forall r, In r g -> p r = false -> amount_val b ia r = Q2Qc 0) ->
  exact_total b ia (filter p g) = exact_total b ia g.
Proof.
  unfold exact_total, qsum. induction g as [|r g IH]; intros H; simpl; [reflexivity|].
  destruct (p r) eqn:E; simpl.
  - rewrite IH; [reflexivity|]. intros x Hx. apply H. right. assumption.
  - rewrite (H r (or_introl eq_refl) E), Qcplus_0_l.
    apply IH. intros x Hx. apply H. right. assumption.
Qed.

Lemma ints_cons (c : cell) (x : list cell) :
  ints (c :: x) = (match c with CInt z => [z] | _ => [] end ++ ints x)%list.
Proof. reflexivity. Qed.

Lemma floats_cons (c : cell) (x : list cell) :
  floats (c :: x) = (match c with CFloat q => [q] | _ => [] end ++ floats x)%list.
Proof. reflexivity. Qed.

(** In a float64 column the numbers summed are the amounts of the rows that
    are read. *)
Lemma floats_readable (ia : nat) (g : list row) :
  floats (map (amount_cell false ia) g)
  = map (amount_val false ia) (filter (readable false ia) g).
Proof.
  induction g as [|r g IH]; [reflexivity|].
  cbn [map filter].
  rewrite floats_cons, IH.
  destruct (to_numeric (replace_cell (get ia r))) as [q|] eqn:E.
  - assert (amount_cell false ia r = CFloat q) as Hc
      by (unfold amount_cell, numeric_cell; rewrite E; reflexivity).
    assert (readable false ia r = true) as -> by (unfold readable; rewrite Hc; reflexivity).
    cbn [map]. change (amount_val false ia r) with (value (amount_cell false ia r)).
    rewrite Hc. reflexivity.
  - assert (amount_cell false ia r = CNaN) as Hc
      by (unfold amount_cell, numeric_cell; rewrite E; reflexivity).
    assert (readable false ia r = false) as -> by (unfold readable; rewrite Hc; reflexivity).
    rewrite Hc. reflexivity.
Qed.

(** One cell that is not read as an integer makes the column a float64
    column. *)
Lemma int_amounts_false (ia : nat) (s : list row) (r : row) :
  In r s -> to_int (replace_cell (get ia r)) = None -> int_amounts ia s = false.
Proof.
  intros Hin Hn. destruct (int_amounts ia s) eqn:E; [|reflexivity].
  unfold int_amounts, integral in E. rewrite forallb_forall in E.
  specialize (E (replace_cell (get ia r))). rewrite Hn in E.
  symmetry. apply E. apply (in_map (fun r => replace_cell (get ia r))). assumption.
Qed.

Lemma to_numeric_none (c : cell) : to_numeric c = None -> to_int c = None.
Proof.
  unfold to_numeric. destruct (to_int c); [discriminate|reflexivity].
Qed.

(** C6: an amount that is not a number does not stop the run.  Its cell
    becomes NaN in a float64 column and counts for nothing in the total of
    its client, which is the float sum of the amounts of the client that are
    read; the row stays in the table; the client has a result row, and the
    product of the row is one of the items of its Products text. *)
Theorem unparsable_amount_kept (inp : inputs) (resa invoices clients : frame)
    (ii ic ie ia ip : nat) (r : row) :
  partition inp = Ok (resa, invoices) ->
  retained inp resa = Ok clients ->
  resolved invoices clients ii ic ie ia ip ->
  products_are_text ii ic ia ip clients invoices ->
  In r (rows invoices) ->
  is_retained ic clients (key ii r) = true ->
  to_numeric (replace_cell (get ia r)) = None ->
  exists out l p items,
    process inp = Ok out
    /\ int_amounts ia (surviving ii ia ic clients invoices) = false
    /\ amount_cell false ia r = CNaN
    /\ counted false ia r = false
    /\ In r (surviving ii ia ic clients invoices)
    /\ In l (rows out)
    /\ get 0 l = CStr (key ii r)
    /\ get 1 l = CFloat (group_sum
                  (map (amount_val false ia)
                     (filter (readable false ia)
                        (rows_of ii (key ii r) (surviving ii ia ic clients invoices)))))
    /\ get ip r = CStr p
    /\ get 2 l = CStr (PyStr.join ", " items)
    /\ In p items.
Proof.
  intros Hp Hr R Ht Hin Hret Hnan.
  assert (amount_cell false ia r = CNaN) as Hcell.
  { unfold amount_cell, numeric_cell. rewrite Hnan. reflexivity. }
  assert (ne_zero (get ia r) = true) as Hz.
  { destruct (get ia r); simpl in *; try reflexivity; discriminate. }
  assert (In r (surviving ii ia ic clients invoices)) as Hs.
  { apply surviving_In. auto. }
  assert (int_amounts ia (surviving ii ia ic clients invoices) = false) as Hb.
  { apply (int_amounts_false ia _ r Hs). apply to_numeric_none. assumption. }
  destruct (Ht r Hs) as [p Hprod].
  destruct (summary_rows_complete ii ic ie ia ip clients invoices r Hs) as [e He].
  eexists _, _, p, _.
  split; [apply (process_ok inp resa invoices clients ii ic ie ia ip); assumption|].
  split; [assumption|].
  split; [assumption|].
  split; [unfold counted; rewrite Hcell; reflexivity|].
  split; [assumption|].
  split; [exact He|].
  split; [reflexivity|].
  split.
  { unfold get. cbn [summary_row app nth]. rewrite Hb.
    unfold sum_amounts, sum_cells. rewrite floats_readable. reflexivity. }
  split; [assumption|].
  split; [reflexivity|].
  apply texts_In, unique_str. rewrite <- Hprod. apply in_map.
  apply rows_of_In. auto.
Qed.

(** *** Sums *)

Lemma qsum_app (l l' : list Qc) : qsum (l ++ l') = Qcplus (qsum l) (qsum l').
Proof.
  unfold qsum. induction l as [|q l IH]; simpl.
  - rewrite Qcplus_0_l. reflexivity.
  - rewrite IH. apply Qcplus_assoc.
Qed.

Lemma qsum_perm (l l' : list Qc) : Permutation l l' -> qsum l = qsum l'.
Proof.
  unfold qsum.
  induction 1 as [|q l l' HP IH|p q l|l l' l'' H1 IH1 H2 IH2]; simpl.
  - reflexivity.
  - rewrite IH. reflexivity.
  - rewrite !Qcplus_assoc. rewrite (Qcplus_comm q p). reflexivity.
  - congruence.
Qed.

Lemma zsum_app (l l' : list Z) : zsum (l ++ l') = zsum l + zsum l'.
Proof.
  unfold zsum. induction l as [|z l IH]; simpl; [reflexivity|].
  rewrite IH. lia.
Qed.

Lemma zsum_perm (l l' : list Z) : Permutation l l' -> zsum l = zsum l'.
Proof.
  unfold zsum.
  induction 1 as [|q l l' HP IH|p q l|l l' l'' H1 IH1 H2 IH2]; simpl; lia.
Qed.

Lemma filter_all {A : Type} (p : A -> bool) (l : list A) :
  (forall a, In a l -> p a = true) -> filter p l = l.
Proof.
  induction l as [|a l IH]; intros H; simpl; [reflexivity|].
  rewrite (H a (or_introl eq_refl)). f_equal. apply IH.
  intros b Hb. apply H. right. assumption.
Qed.

Lemma filter_none {A : Type} (p : A -> bool) (l : list A) :
  (forall a, In a l -> p a = false) -> filter p l = [].
Proof.
  induction l as [|a l IH]; intros H; simpl; [reflexivity|].
  rewrite (H a (or_introl eq_refl)). apply IH.
  intros b Hb. apply H. right. assumption.
Qed.

Lemma filter_key_NoDup (ic : nat) (l : list row) (k : string) (c : row) :
  NoDup (map (key ic) l) -> In c l -> key ic c = k ->
  filter (fun c' => String.eqb k (key ic c')) l = [c].
Proof.
  induction l as [|x l IH]; simpl; intros Hnd Hin Hk; [contradiction|].
  inversion Hnd as [|? ? Hx Hl]; subst.
  destruct Hin as [->|Hin].
  - rewrite String.eqb_refl. f_equal. apply filter_none.
    intros a Ha. apply String.eqb_neq. intros E. apply Hx. rewrite E.
    apply in_map. assumption.
  - destruct (String.eqb_spec (key ic c) (key ic x)) as [E|E].
    + exfalso. apply Hx. rewrite <- E. apply in_map. assumption.
    + apply IH; auto.
Qed.

(** Taking one key out of a duplicate-free list of keys. *)
Lemma split_key_perm {A : Type} (G : string -> list A) (k0 : string) (d : list string) :
  NoDup d ->
  (~ In k0 d -> G k0 = []) ->
  Permutation (G k0 ++ flat_map G (filter (fun k => negb (String.eqb k k0)) d))
              (flat_map G d).
Proof.
  induction 1 as [|x d Hx Hd IH]; intros H0; simpl.
  - rewrite H0 by tauto. constructor.
  - destruct (String.eqb_spec x k0) as [->|Hne]; simpl.
    + rewrite filter_all; [reflexivity|].
      intros a Ha. apply negb_true_iff, String.eqb_neq. intros ->. contradiction.
    + rewrite Permutation_app_swap_app. apply Permutation_app_head.
      apply IH. intros Hn. apply H0. intros [E|E]; [congruence|contradiction].
Qed.

(** The groups, put end to end, are the rows in another order. *)
Lemma rows_by_key_perm (ii : nat) (s : list row) :
  Permutation (flat_map (fun k => rows_of ii k s) (distinct (map (key ii) s))) s.
Proof.
  induction s as [|r s IH]; [constructor|].
  cbn [map distinct flat_map].
  unfold rows_of at 1. cbn [filter]. rewrite String.eqb_refl.
  change (filter (fun r0 => String.eqb (key ii r0) (key ii r)) s)
    with (rows_of ii (key ii r) s).
  cbn [app]. constructor.
  rewrite (flat_map_ext_in (fun k => rows_of ii k (r :: s)) (fun k => rows_of ii k s)).
  - eapply Permutation_trans; [|exact IH].
    apply (split_key_perm (fun k => rows_of ii k s) (key ii r)); [apply distinct_NoDup|].
    intros Hn. unfold rows_of. apply filter_none.
    intros a Ha. apply String.eqb_neq. intros E. apply Hn.
    apply distinct_In. rewrite <- E. apply in_map. assumption.
  - intros k Hk. apply filter_In in Hk. destruct Hk as [_ Hk].
    unfold rows_of. cbn [filter].
    apply negb_true_iff in Hk. rewrite String.eqb_sym in Hk. rewrite Hk. reflexivity.
Qed.

Lemma groups_perm (ii : nat) (s : list row) :
  Permutation (flat_map (fun k => rows_of ii k s) (sort_keys (distinct (map (key ii) s))))
              s.
Proof.
  eapply Permutation_trans; [|apply rows_by_key_perm].
  apply Permutation_flat_map. apply sort_keys_perm.
Qed.

Lemma ne_zero_amount (b : bool) (ia : nat) (r : row) :
  ne_zero (get ia r) = false -> amount_val b ia r = Q2Qc 0.
Proof.
  unfold amount_val, amount_cell, numeric_cell.
  destruct (get ia r); simpl; try discriminate.
  - intros H. apply negb_false_iff, Z.eqb_eq in H. subst. destruct b; reflexivity.
  - intros H. apply negb_false_iff, Qc_eq_bool_correct in H. destruct b; [reflexivity|].
    assumption.
Qed.

(** The exact sum over the surviving rows is the sum over the rows of the
    retained clients whose amount counts: a row the zero filter drops adds
    nothing. *)
Lemma sum_surviving_revenue (b : bool) (ii ic ia : nat) (clients invoices : frame) :
  exact_total b ia (surviving ii ia ic clients invoices)
  = exact_total b ia (revenue_rows b ii ic ia clients invoices).
Proof.
  unfold surviving, revenue_rows.
  rewrite (filter_ext (survives ii ia ic clients)
             (fun r => is_retained ic clients (key ii r) && ne_zero (get ia r)))
    by (intros r; apply andb_comm).
  rewrite <- !filter_filter_and.
  rewrite (exact_total_filter b ia (fun r => ne_zero (get ia r)))
    by (intros r _; apply ne_zero_amount).
  rewrite (exact_total_filter b ia (counted b ia))
    by (intros r _; apply amount_val_counted).
  reflexivity.
Qed.

(** Integers and floats among cells. *)
Lemma ints_app (x y : list cell) : ints (x ++ y) = (ints x ++ ints y)%list.
Proof. apply flat_map_app. Qed.

Lemma floats_app (x y : list cell) : floats (x ++ y) = (floats x ++ floats y)%list.
Proof. apply flat_map_app. Qed.

Lemma ints_of_ints {A : Type} (f : A -> Z) (l : list A) :
  ints (map (fun a => CInt (f a)) l) = map f l
  /\ forallb is_int (map (fun a => CInt (f a)) l) = true.
Proof.
  induction l as [|a l [IH1 IH2]]; [auto|].
  cbn [map forallb is_int andb]. rewrite ints_cons, IH1, IH2. auto.
Qed.

Lemma floats_of_floats {A : Type} (f : A -> Qc) (l : list A) :
  floats (map (fun a => CFloat (f a)) l) = map f l
  /\ (l <> [] -> forallb is_int (map (fun a => CFloat (f a)) l) = false).
Proof.
  induction l as [|a l [IH1 IH2]].
  - split; [reflexivity|]. intros H. contradiction H. reflexivity.
  - cbn [map forallb is_int andb]. rewrite floats_cons, IH1.
    split; [reflexivity|]. intros _. reflexivity.
Qed.

Lemma Q2Qc_inject_plus (x y : Z) :
  Q2Qc (inject_Z (x + y)) = Qcplus (Q2Qc (inject_Z x)) (Q2Qc (inject_Z y)).
Proof.
  apply Qc_is_canon. unfold Qcplus. cbn [this Q2Qc].
  rewrite !Qred_correct, inject_Z_plus. reflexivity.
Qed.

(** In an int64 column the exact sum is the sum of the integers. *)
Lemma ints_value (ia : nat) (g : list row) :
  exact_total true ia g = Q2Qc (inject_Z (zsum (ints (map (amount_cell true ia) g)))).
Proof.
  unfold exact_total, qsum, zsum.
  induction g as [|r g IH]; [reflexivity|].
  cbn [map fold_right]. rewrite IH, ints_cons.
  unfold amount_val, amount_cell, numeric_cell.
  destruct (to_int (replace_cell (get ia r))) as [z|]; cbn [app value fold_right].
  - symmetry. apply Q2Qc_inject_plus.
  - apply Qcplus_0_l.
Qed.

(** In a float64 column the exact sum is the sum of the floats. *)
Lemma floats_value (ia : nat) (g : list row) :
  exact_total false ia g = qsum (floats (map (amount_cell false ia) g)).
Proof.
  unfold exact_total, qsum.
  induction g as [|r g IH]; [reflexivity|].
  cbn [map fold_right]. rewrite IH, floats_cons.
  unfold amount_val, amount_cell, numeric_cell.
  destruct (to_numeric (replace_cell (get ia r))) as [q|]; cbn [app value fold_right].
  - reflexivity.
  - apply Qcplus_0_l.
Qed.

Lemma value_exact_revenue (ia : nat) (s : list row) :
  value (exact_revenue ia s) = exact_total (int_amounts ia s) ia s.
Proof.
  unfold exact_revenue. destruct (int_amounts ia s); simpl.
  - symmetry. apply ints_value.
  - symmetry. apply floats_value.
Qed.

(** Sums that stay within the 64-bit range. *)
Lemma abs_zsum (l : list Z) : Z.abs (zsum l) <= zsum (map Z.abs l).
Proof.
  unfold zsum. induction l as [|z l IH]; simpl; lia.
Qed.

Lemma zsum_abs_filter (c : row -> cell) (p : row -> bool) (s : list row) :
  0 <= zsum (map Z.abs (ints (map c (filter p s))))
       <= zsum (map Z.abs (ints (map c s))).
Proof.
  induction s as [|r s IH]; [unfold zsum; simpl; lia|].
  cbn [filter map]. rewrite ints_cons, map_app, zsum_app.
  assert (0 <= zsum (map Z.abs (match c r with CInt z => [z] | _ => [] end))) as H0.
  { destruct (c r); unfold zsum; simpl; lia. }
  destruct (p r); [|lia].
  cbn [map]. rewrite ints_cons, map_app, zsum_app. lia.
Qed.

Lemma wrap64_small (z : Z) : - 2 ^ 63 <= z < 2 ^ 63 -> wrap64 z = z.
Proof.
  intros H. unfold wrap64. rewrite Z.mod_small; lia.
Qed.

Lemma no_overflow_group (c : row -> cell) (p : row -> bool) (s : list row) :
  no_overflow (ints (map c s)) ->
  wrap64 (zsum (ints (map c (filter p s)))) = zsum (ints (map c (filter p s))).
Proof.
  unfold no_overflow. intros H. apply wrap64_small.
  pose proof (abs_zsum (ints (map c (filter p s)))) as Ha.
  pose proof (zsum_abs_filter c p s) as Hf. lia.
Qed.

Lemma zsum_groups {K : Type} (c : row -> cell) (F : K -> list row) (keys : list K) :
  zsum (map (fun k => zsum (ints (map c (F k)))) keys)
  = zsum (ints (map c (flat_map F keys))).
Proof.
  induction keys as [|k keys IH]; [reflexivity|].
  cbn [map flat_map]. rewrite map_app, ints_app, zsum_app, <- IH. reflexivity.
Qed.

Lemma floats_groups {K : Type} (c : row -> cell) (F : K -> list row) (keys : list K) :
  List.concat (map (fun k => floats (map c (F k))) keys)
  = floats (map c (flat_map F keys)).
Proof.
  induction keys as [|k keys IH]; [reflexivity|].
  cbn [map flat_map List.concat]. rewrite map_app, floats_app, <- IH. reflexivity.
Qed.

Lemma ints_perm (x y : list cell) : Permutation x y -> Permutation (ints x) (ints y).
Proof. apply Permutation_flat_map. Qed.

Lemma floats_perm (x y : list cell) : Permutation x y -> Permutation (floats x) (floats y).
Proof. apply Permutation_flat_map. Qed.

Lemma integral_perm (x y : list cell) : Permutation x y -> integral x = integral y.
Proof.
  unfold integral.
  induction 1 as [|c l l' HP IH|c d l|l l' l'' H1 IH1 H2 IH2]; simpl.
  - reflexivity.
  - rewrite IH. reflexivity.
  - destruct (to_int c), (to_int d); reflexivity.
  - congruence.
Qed.

Lemma int_amounts_perm (ia : nat) (s s' : list row) :
  Permutation s s' -> int_amounts ia s = int_amounts ia s'.
Proof.
  intros H. apply integral_perm. apply Permutation_map. assumption.
Qed.

Lemma adds_exactly_perm (vals vals' : list Qc) :
  Permutation vals vals' -> adds_exactly vals -> adds_exactly vals'.
Proof.
  intros HP H groups Hg.
  destruct (H groups) as [H1 H2].
  - eapply Permutation_trans; [exact Hg|apply Permutation_sym; exact HP].
  - split; [exact H1|]. rewrite H2. apply qsum_perm. assumption.
Qed.

Lemma exact_amounts_perm (ia : nat) (s s' : list row) :
  Permutation s s' -> exact_amounts ia s -> exact_amounts ia s'.
Proof.
  intros HP. unfold exact_amounts. rewrite <- (int_amounts_perm ia s s' HP).
  destruct (int_amounts ia s).
  - unfold no_overflow. intros H.
    rewrite <- (zsum_perm (map Z.abs (ints (map (amount_cell true ia) s)))); [exact H|].
    apply Permutation_map, ints_perm, Permutation_map. assumption.
  - apply adds_exactly_perm. apply floats_perm, Permutation_map. assumption.
Qed.

Lemma exact_revenue_perm (ia : nat) (s s' : list row) :
  Permutation s s' -> exact_revenue ia s = exact_revenue ia s'.
Proof.
  intros HP. unfold exact_revenue. rewrite <- (int_amounts_perm ia s s' HP).
  destruct (int_amounts ia s); f_equal.
  - apply zsum_perm, ints_perm, Permutation_map. assumption.
  - apply qsum_perm, floats_perm, Permutation_map. assumption.
Qed.

(** With one client row per client number, the Total Amount column of the
    result holds the total of each group once. *)
Lemma totals_column (ii ic ie ia ip : nat) (clients : frame) (s : list row)
    (keys : list string) :
  NoDup (map (key ic) (rows clients)) ->
  (forall k, In k keys -> is_retained ic clients k = true) ->
  map (get 1) (flat_map (fun k => joined ic ie clients k (summary_row ii ia ip s k)) keys)
  = map (fun k => sum_amounts (int_amounts ia s) ia (rows_of ii k s)) keys.
Proof.
  intros Hnd. induction keys as [|k keys IH]; intros Hret; [reflexivity|].
  cbn [flat_map map]. rewrite map_app.
  rewrite IH by (intros k' Hk'; apply Hret; right; assumption).
  destruct (proj1 (is_retained_In ic clients k) (Hret k (or_introl eq_refl)))
    as [c [Hc Hk]].
  unfold joined. rewrite (filter_key_NoDup ic (rows clients) k c Hnd Hc Hk).
  reflexivity.
Qed.

(** With one client row per client number and exact sums, line 266 shows
    the exact sum of the amounts of the surviving rows. *)
Lemma total_revenue_exact (ii ic ie ia ip : nat) (clients invoices : frame) :
  NoDup (map (key ic) (rows clients)) ->
  exact_amounts ia (surviving ii ia ic clients invoices) ->
  total_revenue (mkFrame RESULT_HEADER (summary_rows ii ic ie ia ip clients invoices))
  = exact_revenue ia (surviving ii ia ic clients invoices).
Proof.
  intros Hnd Hex. unfold total_revenue, column, summary_rows. cbn [rows].
  set (s := surviving ii ia ic clients invoices) in *.
  set (keys := sort_keys (distinct (map (key ii) s))).
  rewrite (totals_column ii ic ie ia ip clients s keys Hnd).
  2:{ intros k Hk. apply (proj1 (group_keys_In _ _)) in Hk.
      apply in_map_iff in Hk. destruct Hk as [r [<- Hr]].
      apply surviving_In in Hr. tauto. }
  unfold exact_amounts, exact_revenue in *.
  destruct (int_amounts ia s) eqn:B; unfold sum_amounts, sum_cells.
  - destruct (ints_of_ints
                (fun k => wrap64 (zsum (ints (map (amount_cell true ia) (rows_of ii k s)))))
                keys) as [-> ->].
    rewrite (map_ext (fun k => wrap64 (zsum (ints (map (amount_cell true ia)
                                                    (rows_of ii k s)))))
                     (fun k => zsum (ints (map (amount_cell true ia) (rows_of ii k s)))))
      by (intros k; apply no_overflow_group; assumption).
    rewrite zsum_groups.
    assert (zsum (ints (map (amount_cell true ia)
                          (flat_map (fun k => rows_of ii k s) keys)))
            = zsum (ints (map (amount_cell true ia) s))) as ->.
    { apply zsum_perm, ints_perm, Permutation_map, groups_perm. }
    f_equal. apply wrap64_small.
    pose proof (abs_zsum (ints (map (amount_cell true ia) s))) as Ha.
    unfold no_overflow in Hex. lia.
  - assert (keys <> []) as Hne.
    { destruct s as [|r s0] eqn:Es; [discriminate|].
      intros E. assert (In (key ii r) keys) as Hin.
      { apply group_keys_In. left. reflexivity. }
      rewrite E in Hin. contradiction. }
    destruct (floats_of_floats
                (fun k => group_sum (floats (map (amount_cell false ia) (rows_of ii k s))))
                keys) as [-> Hf].
    rewrite (Hf Hne). f_equal.
    destruct (Hex (map (fun k => floats (map (amount_cell false ia) (rows_of ii k s)))
                       keys)) as [H1 H2].
    { rewrite floats_groups. apply floats_perm, Permutation_map, groups_perm. }
    rewrite <- H2, map_map. f_equal. apply map_ext_in.
    intros k Hk. apply H1.
    apply (in_map (fun k => floats (map (amount_cell false ia) (rows_of ii k s)))).
    assumption.
Qed.

(** *** Reordering the rows *)

Lemma filter_perm_ext {A : Type} (p p' : A -> bool) (l l' : list A) :
  Permutation l l' -> (forall a, p a = p' a) ->
  Permutation (filter p l) (filter p' l').
Proof.
  intros HP He. rewrite (filter_ext p p' He).
  induction HP as [|a l l' HP IH|a b l|l l' l'' H1 IH1 H2 IH2]; simpl.
  - constructor.
  - destruct (p' a); [constructor|]; assumption.
  - destruct (p' a), (p' b); try reflexivity. apply perm_swap.
  - eapply Permutation_trans; eassumption.
Qed.

Lemma column_reordered (i : nat) (df df' : frame) :
  reordered df df' -> Permutation (column i df) (column i df').
Proof. intros [_ H]. unfold column. apply Permutation_map. assumption. Qed.

Lemma select_reordered (p p' : row -> bool) (df df' : frame) :
  reordered df df' -> (forall r, p r = p' r) ->
  reordered (select p df) (select p' df').
Proof.
  intros [Hc Hr] He. split; simpl; [assumption|].
  apply filter_perm_ext; assumption.
Qed.

Lemma rename_to_reordered (canonical : string) (p : string -> bool) (df df' : frame) :
  reordered df df' ->
  reordered (rename_to canonical p df) (rename_to canonical p df').
Proof.
  intros [Hc Hr]. split.
  - apply rename_to_columns. assumption.
  - rewrite !rename_to_rows. assumption.
Qed.

Lemma partition_date_column (inp : inputs) :
  splits_by_date inp = true ->
  partition inp = split_by_date (date_column inp) (cutoff inp) (invoice_file inp)
  /\ exists i, col_index (date_column inp) (columns (invoice_file inp)) = Some i.
Proof.
  unfold splits_by_date, partition, date_column.
  destruct (filter is_date (columns (invoice_file inp))) as [|d ds] eqn:E.
  - intros H. rewrite H. split; [reflexivity|].
    apply andb_prop in H. destruct H as [_ H]. apply col_index_mem. assumption.
  - intros _. split; [reflexivity|]. apply col_index_mem.
    assert (In d (filter is_date (columns (invoice_file inp)))) as Hd
      by (rewrite E; left; reflexivity).
    apply filter_In in Hd. destruct Hd as [Hd _].
    apply existsb_exists. exists d. split; [assumption|apply String.eqb_refl].
Qed.

Lemma dated_reordered (i : nat) (df df' : frame) (p : cell -> bool) :
  reordered df df' ->
  (forall r, In r (rows df) ->
     date_cell (column i df') (get i r) = date_cell (column i df) (get i r)) ->
  Permutation
    (map (dated i df) (filter (fun r => p (date_cell (column i df) (get i r))) (rows df)))
    (map (dated i df')
         (filter (fun r => p (date_cell (column i df') (get i r))) (rows df'))).
Proof.
  intros [Hc HP] Hcell.
  assert (forall r, In r (rows df') -> In r (rows df)) as Hin.
  { intros r Hr. eapply Permutation_in; [apply Permutation_sym; eassumption|assumption]. }
  rewrite (filter_ext_in (fun r => p (date_cell (column i df') (get i r)))
                         (fun r => p (date_cell (column i df) (get i r))) (rows df'))
    by (intros r Hr; rewrite Hcell; auto).
  rewrite (map_ext_in (dated i df') (dated i df)).
  - apply Permutation_map. apply filter_perm_ext; [assumption|reflexivity].
  - intros r Hr. apply filter_In in Hr. destruct Hr as [Hr _].
    unfold dated. rewrite Hcell; auto.
Qed.

Lemma partition_reordered (inp inp' : inputs) (resa invoices : frame) :
  dates_read_alike inp inp' ->
  inputs_reordered inp inp' ->
  splits_by_date inp = true ->
  partition inp = Ok (resa, invoices) ->
  exists resa' invoices',
    partition inp' = Ok (resa', invoices')
    /\ reordered resa resa' /\ reordered invoices invoices'.
Proof.
  intros Hfree [[Hc Hr] [_ [_ [Hcut Hname]]]] Hs Hp.
  assert (splits_by_date inp' = true) as Hs'
    by (unfold splits_by_date in *; rewrite <- Hc, <- Hname; assumption).
  assert (date_column inp' = date_column inp) as Hd
    by (unfold date_column; rewrite <- Hc, <- Hname; reflexivity).
  destruct (partition_date_column inp Hs) as [E [i Hi]].
  destruct (partition_date_column inp' Hs') as [E' _].
  rewrite Hd, <- Hcut in E'.
  assert (col_index (date_column inp) (columns (invoice_file inp')) = Some i) as Hi'
    by (rewrite <- Hc; assumption).
  destruct (Hfree i Hi) as [Herr Hread].
  rewrite E, (split_by_date_rows _ _ _ i Hi) in Hp.
  rewrite E', (split_by_date_rows _ _ _ i Hi'), Herr.
  destruct (date_error (column i (invoice_file inp))) as [e|]; [discriminate|].
  inversion Hp; subst; clear Hp.
  assert (forall r, In r (rows (invoice_file inp)) ->
            date_cell (column i (invoice_file inp')) (get i r)
            = date_cell (column i (invoice_file inp)) (get i r)) as Hcell.
  { intros r Hin. unfold date_cell. rewrite Hread; [reflexivity|].
    apply (in_map (get i)). assumption. }
  eexists _, _. split; [reflexivity|].
  split; (split; cbn [columns rows]; [assumption|]);
    apply dated_reordered; try assumption; split; assumption.
Qed.

Lemma take_reordered (names : list string) (df df' taken : frame) :
  reordered df df' ->
  take names df = Ok taken ->
  exists taken', take names df' = Ok taken' /\ reordered taken taken'.
Proof.
  intros [Hc Hr]. unfold take.
  rewrite (mapM_ext (fun name => loc name df') (fun name => loc name df))
    by (intros name; unfold loc; rewrite Hc; reflexivity).
  destruct (mapM (fun name => loc name df) names) as [idx|e]; simpl; [|discriminate].
  intros H. inversion H; subst; clear H. eexists. split; [reflexivity|].
  split; simpl; [reflexivity|]. apply Permutation_map. assumption.
Qed.

Lemma contact_emails_reordered (df df' : frame) (emails : list cell) :
  reordered df df' ->
  contact_emails df = Ok emails ->
  exists emails', contact_emails df' = Ok emails' /\ Permutation emails emails'.
Proof.
  intros Hre. unfold contact_emails. destruct Hre as [Hc Hr]. rewrite <- Hc.
  destruct (take (columns_to_keep (columns df)) df) as [taken|e] eqn:E; [|discriminate].
  destruct (take_reordered _ df df' taken (conj Hc Hr) E) as [taken' [E' Ht]].
  rewrite E'. simpl. intros H. inversion H; subst; clear H.
  eexists. split; [reflexivity|]. apply column_reordered. assumption.
Qed.

Lemma known_clients_reordered (clients clients' k : frame) (emails emails' : list cell) :
  reordered clients clients' ->
  Permutation emails emails' ->
  known_clients clients emails = Ok k ->
  exists k', known_clients clients' emails' = Ok k' /\ reordered k k'.
Proof.
  intros Hre Hpe. unfold known_clients, loc.
  pose proof (rename_to_reordered EMAIL is_email _ _ Hre) as Hre1.
  destruct Hre1 as [Hc1 Hr1]. rewrite <- Hc1.
  destruct (col_index EMAIL (columns (rename_to EMAIL is_email clients))) as [ie|];
    simpl; [|discriminate].
  intros H. inversion H; subst; clear H. eexists. split; [reflexivity|].
  apply rename_to_reordered. apply select_reordered; [split; assumption|].
  intros r. apply isin_perm. assumption.
Qed.

Lemma reconcile_reordered (k k' resa resa' clients : frame) :
  reordered k k' ->
  reordered resa resa' ->
  reconcile k resa = Ok clients ->
  exists clients', reconcile k' resa' = Ok clients' /\ reordered clients clients'.
Proof.
  intros Hk Hresa. unfold reconcile, loc.
  destruct Hk as [Hkc Hkr]. destruct Hresa as [Hrc Hrr]. rewrite <- Hkc, <- Hrc.
  destruct (col_index CLIENT_ID (columns k)) as [ic|]; simpl; [|discriminate].
  destruct (col_index CLIENT_ID (columns resa)) as [ir|]; simpl; [|discriminate].
  intros H. inversion H; subst; clear H. eexists. split; [reflexivity|].
  assert (forall r, isin (column ir resa) (get ic r) = isin (column ir resa') (get ic r))
    as Hin.
  { intros r. apply isin_perm. apply column_reordered. split; assumption. }
  apply select_reordered; [split; assumption|].
  intros r. f_equal. apply isin_perm. apply column_reordered.
  apply select_reordered; [split; assumption|exact Hin].
Qed.

Lemma retained_reordered (inp inp' : inputs) (resa resa' clients : frame) :
  inputs_reordered inp inp' ->
  reordered resa resa' ->
  retained inp resa = Ok clients ->
  exists clients', retained inp' resa' = Ok clients' /\ reordered clients clients'.
Proof.
  intros [_ [Hb [Hc _]]] Hresa. unfold retained.
  destruct (contact_emails (boost_file inp)) as [emails|e] eqn:He; [|discriminate].
  destruct (contact_emails_reordered _ _ _ Hb He) as [emails' [He' Hpe]].
  rewrite He'. simpl.
  destruct (known_clients (clients_file inp) emails) as [k|e] eqn:Hk; [|discriminate].
  destruct (known_clients_reordered _ _ _ _ _ Hc Hpe Hk) as [k' [Hk' Hkk]].
  rewrite Hk'. simpl.
  apply reconcile_reordered; assumption.
Qed.

Lemma is_retained_reordered (ic : nat) (clients clients' : frame) (k : string) :
  reordered clients clients' -> is_retained ic clients k = is_retained ic clients' k.
Proof.
  intros [_ HP]. unfold is_retained.
  destruct (existsb (fun c => String.eqb k (key ic c)) (rows clients')) eqn:E.
  - apply existsb_exists in E. destruct E as [c [Hc Hk]].
    apply existsb_exists. exists c. split; [|assumption].
    eapply Permutation_in; [apply Permutation_sym; eassumption|assumption].
  - destruct (existsb (fun c => String.eqb k (key ic c)) (rows clients)) eqn:E';
      [|reflexivity].
    apply existsb_exists in E'. destruct E' as [c [Hc Hk]].
    assert (existsb (fun c => String.eqb k (key ic c)) (rows clients') = true) as Ht.
    { apply existsb_exists. exists c. split; [|assumption].
      eapply Permutation_in; eassumption. }
    congruence.
Qed.

Lemma surviving_reordered (ii ia ic : nat) (clients clients' invoices invoices' : frame) :
  reordered clients clients' ->
  reordered invoices invoices' ->
  Permutation (surviving ii ia ic clients invoices)
              (surviving ii ia ic clients' invoices').
Proof.
  intros Hc [_ Hi]. unfold surviving. apply filter_perm_ext; [assumption|].
  intros r. unfold survives. f_equal. apply is_retained_reordered. assumption.
Qed.

Lemma resolved_reordered (invoices invoices' clients clients' : frame)
    (ii ic ie ia ip : nat) :
  reordered invoices invoices' ->
  reordered clients clients' ->
  resolved invoices clients ii ic ie ia ip ->
  resolved invoices' clients' ii ic ie ia ip.
Proof.
  intros [Hi _] [Hc _] [R1 R2 R3 R4 R5 R6].
  unfold amount_column, product_column in *.
  constructor; unfold amount_column, product_column; rewrite <- ?Hi, <- ?Hc; assumption.
Qed.

(** C4, as the handler has it: when every retained client has one row in the
    client table and the sums of the run are exact (no 64-bit wrap-around in
    an integer column, no rounding in a float column), line 266 shows the
    sum of the amounts, read and not zero, of the after-cutoff invoices of
    the retained clients; and when moreover the ledger is split on a date
    column that is read alike after the rows of the three tables are
    reordered, the reordered run shows the same sum. *)
Theorem total_revenue_of_retained (inp : inputs) (resa invoices clients out : frame)
    (ii ic ia : nat) :
  partition inp = Ok (resa, invoices) ->
  retained inp resa = Ok clients ->
  col_index CLIENT_ID (columns invoices) = Some ii ->
  col_index CLIENT_ID (columns clients) = Some ic ->
  col_index (amount_column invoices) (columns invoices) = Some ia ->
  NoDup (map (key ic) (rows clients)) ->
  exact_amounts ia (surviving ii ia ic clients invoices) ->
  process inp = Ok out ->
  value (total_revenue out)
  = exact_total (int_amounts ia (surviving ii ia ic clients invoices)) ia
      (revenue_rows (int_amounts ia (surviving ii ia ic clients invoices))
                    ii ic ia clients invoices)
  /\ (splits_by_date inp = true ->
      forall inp', inputs_reordered inp inp' -> dates_read_alike inp inp' ->
      exists out', process inp' = Ok out' /\ total_revenue out' = total_revenue out).
Proof.
  intros Hp Hr Hii Hic Hia Hnd Hex H.
  destruct (process_inv inp out H)
    as [resa0 [invoices0 [clients0 [ii0 [ic0 [ie [ia0 [ip [Hp0 [Hr0 [R [Ht ->]]]]]]]]]]]].
  rewrite Hp in Hp0. inversion Hp0; subst resa0 invoices0; clear Hp0.
  rewrite Hr in Hr0. inversion Hr0; subst clients0; clear Hr0.
  assert (ii0 = ii) as -> by (pose proof (res_ii _ _ _ _ _ _ _ R); congruence).
  assert (ic0 = ic) as -> by (pose proof (res_ic _ _ _ _ _ _ _ R); congruence).
  assert (ia0 = ia) as -> by (pose proof (res_ia _ _ _ _ _ _ _ R); congruence).
  rewrite (total_revenue_exact ii ic ie ia ip clients invoices Hnd Hex).
  split.
  - rewrite value_exact_revenue. apply sum_surviving_revenue.
  - intros Hs inp' Hre Hfree.
    destruct (partition_reordered inp inp' resa invoices Hfree Hre Hs Hp)
      as [resa' [invoices' [Hp' [Hresa Hinv]]]].
    destruct (retained_reordered inp inp' resa resa' clients Hre Hresa Hr)
      as [clients' [Hr' Hcl]].
    pose proof (resolved_reordered _ _ _ _ _ _ _ _ _ Hinv Hcl R) as R'.
    pose proof (surviving_reordered ii ia ic _ _ _ _ Hcl Hinv) as HS.
    assert (products_are_text ii ic ia ip clients' invoices') as Ht'.
    { intros r Hin. apply Ht. eapply Permutation_in;
        [apply Permutation_sym; eassumption|assumption]. }
    assert (NoDup (map (key ic) (rows clients'))) as Hnd'.
    { eapply Permutation_NoDup; [|eassumption]. apply Permutation_map. apply Hcl. }
    eexists. split; [apply (process_ok inp' resa' invoices' clients' ii ic ie ia ip);
                     assumption|].
    rewrite (total_revenue_exact ii ic ie ia ip clients' invoices' Hnd'
               (exact_amounts_perm ia _ _ HS Hex)).
    symmetry. apply exact_revenue_perm. assumption.
Qed.

(** *** Order of the groups and of the products *)

Lemma key_le_refl (k : string) : key_le k k.
Proof. unfold key_le. destruct (String.leb_total k k); assumption. Qed.

Lemma insert_key_sorted (k : string) (l : list string) :
  Sorted key_le l -> Sorted key_le (insert_key k l).
Proof.
  induction 1 as [|x l Hl IH Hx]; simpl.
  - repeat constructor.
  - destruct (String.leb k x) eqn:E.
    + constructor; [constructor; assumption|]. constructor. exact E.
    + constructor; [assumption|].
      assert (key_le x k) as Hxk.
      { destruct (String.leb_total k x) as [H|H]; [congruence|exact H]. }
      destruct l as [|y l]; simpl in *.
      * constructor. assumption.
      * inversion Hx; subst. destruct (String.leb k y); constructor; assumption.
Qed.

Lemma sort_keys_sorted (l : list string) : Sorted key_le (sort_keys l).
Proof.
  induction l as [|k l IH]; simpl; [constructor|].
  apply insert_key_sorted. assumption.
Qed.

Lemma joined_keys (ic ie : nat) (clients : frame) (k : string) (x y : cell) :
  exists n,
    map (fun l => to_str (get 0 l)) (joined ic ie clients k [CStr k; x; y])
    = repeat k (S n).
Proof.
  unfold joined.
  destruct (filter (fun c => String.eqb k (key ic c)) (rows clients)) as [|c cs].
  - exists 0%nat. reflexivity.
  - exists (List.length cs). simpl. f_equal. rewrite map_map. simpl.
    induction cs as [|c' cs IH]; simpl; congruence.
Qed.

Lemma repeat_block_sorted (k : string) (n : nat) (rest : list string) :
  Sorted key_le rest -> HdRel key_le k rest ->
  Sorted key_le (repeat k n ++ rest)%list
  /\ HdRel key_le k (repeat k n ++ rest)%list.
Proof.
  intros Hs Hh. induction n as [|n [IH1 IH2]]; simpl.
  - auto.
  - split; constructor; try assumption. apply key_le_refl.
Qed.

Lemma blocks_sorted (block : string -> list string) (keys : list string) :
  (forall k, exists n, block k = repeat k (S n)) ->
  Sorted key_le keys ->
  Sorted key_le (flat_map block keys)
  /\ (forall a, HdRel key_le a keys -> HdRel key_le a (flat_map block keys)).
Proof.
  intros Hb. induction 1 as [|k keys Hs [IH1 IH2] Hh]; simpl.
  - split; [constructor|]. intros a _. constructor.
  - destruct (Hb k) as [n ->].
    destruct (repeat_block_sorted k (S n) (flat_map block keys) IH1 (IH2 k Hh))
      as [S1 S2].
    split; [assumption|].
    intros a Ha. inversion Ha; subst. simpl. constructor. assumption.
Qed.

Lemma summary_keys_sorted (ii ic ie ia ip : nat) (clients invoices : frame) :
  Sorted key_le
    (result_keys (mkFrame RESULT_HEADER (summary_rows ii ic ie ia ip clients invoices))).
Proof.
  unfold result_keys, summary_rows. simpl.
  rewrite flat_map_concat_map, concat_map, map_map, <- flat_map_concat_map.
  apply blocks_sorted.
  - intros k. unfold summary_row. apply joined_keys.
  - apply sort_keys_sorted.
Qed.

Lemma mem_texts (seen : list cell) (s : string) :
  isin seen (CStr s) = PyStr.mem s (texts seen).
Proof.
  unfold isin, PyStr.mem. induction seen as [|c seen IH]; simpl; [reflexivity|].
  destruct c; simpl; rewrite IH; reflexivity.
Qed.

Lemma texts_unique_from (seen x : list cell) :
  all_text x ->
  texts (unique_from seen x)
  = filter (fun s => negb (PyStr.mem s (texts seen))) (distinct (texts x)).
Proof.
  revert seen. induction x as [|c x IH]; intros seen Hx; simpl; [reflexivity|].
  destruct (Hx c (or_introl eq_refl)) as [s ->].
  assert (all_text x) as Hx' by (intros d Hd; apply Hx; right; assumption).
  simpl. rewrite mem_texts. rewrite filter_filter_and.
  destruct (PyStr.mem s (texts seen)) eqn:E; simpl.
  - rewrite IH by assumption. apply filter_ext_in. intros a _.
    destruct (String.eqb_spec a s) as [->|Hne]; simpl; [rewrite E|]; reflexivity.
  - f_equal. rewrite IH by assumption. apply filter_ext. intros a. simpl.
    unfold PyStr.mem. simpl. rewrite negb_orb. reflexivity.
Qed.

(** [unique] on product names is the list of distinct names in first-seen
    order. *)
Lemma texts_unique (x : list cell) :
  all_text x -> texts (unique x) = distinct (texts x).
Proof.
  intros H. unfold unique. rewrite texts_unique_from by assumption.
  simpl. apply filter_all. reflexivity.
Qed.

(** C8: a second run on the same tables, cutoff and settings leaves the
    session as the first run left it, whatever was there before, and the
    table shown is the table of that run.  The table is fixed by the rows in
    their order, with no other choice left: its rows are the groups of the
    surviving rows in ascending order of the client numbers, and the
    Products text of a client is the comma-joined list of the distinct
    product names of its surviving rows, each at its first appearance in
    table order. *)
Theorem run_deterministic (inp : inputs) (out : frame) :
  process inp = Ok out ->
  (forall s : Script.state,
      let w := Script.mkWidgets (Some (invoice_file inp)) (Some (boost_file inp))
                 (Some (clients_file inp)) (cutoff inp) (date_col_name inp) true in
      Script.rerun w (Script.rerun w s) = Script.rerun w s
      /\ Script.shown (Script.rerun w s) = Some out)
  /\ exists resa invoices clients ii ic ie ia ip,
      partition inp = Ok (resa, invoices)
      /\ retained inp resa = Ok clients
      /\ resolved invoices clients ii ic ie ia ip
      /\ out = mkFrame RESULT_HEADER (summary_rows ii ic ie ia ip clients invoices)
      /\ Sorted key_le (result_keys out)
      /\ forall l, In l (rows out) ->
           exists k,
             In k (map (key ii) (surviving ii ia ic clients invoices))
             /\ get 0 l = CStr k
             /\ get 2 l =
                CStr (PyStr.join ", "
                        (distinct (texts (map (get ip)
                           (rows_of ii k (surviving ii ia ic clients invoices)))))).
Proof.
  intros H. split.
  - intros s w. unfold Script.rerun, Script.shown, Script.button, Script.all_uploaded.
    subst w. cbn [Script.pressed Script.invoice_upload Script.boost_upload
                  Script.clients_upload Script.cutoff_date Script.date_text andb].
    destruct inp as [inv boost cl cut name]. cbn [invoice_file boost_file clients_file
                                                   cutoff date_col_name] in *.
    rewrite H. split; reflexivity.
  - destruct (process_inv inp out H)
      as [resa [invoices [clients [ii [ic [ie [ia [ip [Hp [Hr [R [Ht ->]]]]]]]]]]]].
    exists resa, invoices, clients, ii, ic, ie, ia, ip.
    split; [assumption|]. split; [assumption|]. split; [assumption|].
    split; [reflexivity|].
    split; [apply summary_keys_sorted|].
    intros l Hl. cbn [rows] in Hl. apply summary_rows_In in Hl.
    destruct Hl as [k [e [Hk ->]]]. exists k. split; [assumption|].
    split; [reflexivity|].
    unfold get. cbn [summary_row app nth]. rewrite texts_unique; [reflexivity|].
    intros c Hc. apply in_map_iff in Hc. destruct Hc as [r [<- Hr']].
    apply Ht. apply rows_of_In in Hr'. tauto.
Qed.

(** *** Client numbers as text *)

(** C2, as the handler has it: line 209 and the join of lines 237-241
    compare client numbers as the text [astype(str)] writes, character by
    character: an integer is its decimal digits and a string is itself,
    untrimmed.  An invoice row is kept when its text number is the text
    number of a retained client, and a result row is joined with the client
    rows of the same text number; integer 1023 and text 1023 are the same
    number there. *)
Theorem client_numbers_compared_as_text (invoices clients : frame) (ii ic ie : nat)
    (t : list row) :
  col_index CLIENT_ID (columns invoices) = Some ii ->
  col_index CLIENT_ID (columns clients) = Some ic ->
  col_index EMAIL (columns clients) = Some ie ->
  (forall l, In l t -> exists k, get 0 l = CStr k) ->
  exists invoices' clients' kept out,
    astype_str CLIENT_ID invoices = Ok invoices'
    /\ astype_str CLIENT_ID clients = Ok clients'
    /\ restrict invoices' clients' = Ok kept
    /\ merge_email (mkFrame [CLIENT_ID; "Total Amount"; "Products"] t) clients' = Ok out
    /\ rows kept
       = map (fun r => set_nth ii (CStr (key ii r)) r)
             (filter (fun r => existsb (fun c => String.eqb (key ii r) (key ic c))
                                       (rows clients))
                     (rows invoices))
    /\ rows out
       = flat_map (fun l =>
                     match filter (fun c => String.eqb (to_str (get 0 l)) (key ic c))
                                  (rows clients) with
                     | [] => [(l ++ [CNaN])%list]
                     | c :: cs => map (fun c' => (l ++ [get ie c'])%list) (c :: cs)
                     end) t
    /\ (forall z, to_str (CInt z) = PyStr.of_Z z)
    /\ (forall s, to_str (CStr s) = s)
    /\ to_str (CInt 1023) = to_str (CStr "1023").
Proof.
  intros Hii Hic Hie Hkeys.
  assert (ic <> ie) as Hne.
  { eapply index_neq; [|eassumption|eassumption]. vm_compute. discriminate. }
  eexists _, _, _, _.
  split; [unfold astype_str, loc; rewrite Hii; reflexivity|].
  split; [unfold astype_str, loc; rewrite Hic; reflexivity|].
  split; [unfold restrict, loc; simpl; rewrite Hii, Hic; reflexivity|].
  split; [apply (merge_prepared clients ic ie); assumption|].
  split.
  { simpl. rewrite filter_map_comm. f_equal. apply filter_ext. intros r.
    rewrite get_set_nth_same. apply (isin_keys ic clients). }
  split; [reflexivity|].
  split; [reflexivity|]. split; reflexivity.
Qed.

(** *** A ledger without product column *)

Lemma partition_columns (inp : inputs) (resa invoices : frame) :
  partition inp = Ok (resa, invoices) ->
  columns resa = columns (invoice_file inp)
  /\ columns invoices = columns (invoice_file inp).
Proof.
  assert (forall d, split_by_date d (cutoff inp) (invoice_file inp) = Ok (resa, invoices) ->
            columns resa = columns (invoice_file inp)
            /\ columns invoices = columns (invoice_file inp)) as Hsplit.
  { intros d. unfold split_by_date, loc.
    destruct (col_index d (columns (invoice_file inp))) as [i|]; simpl; [|discriminate].
    destruct (date_error (column i (invoice_file inp))); [discriminate|].
    intros H. inversion H; subst. split; reflexivity. }
  unfold partition.
  destruct (filter is_date (columns (invoice_file inp))) as [|d ds]; [|apply Hsplit].
  destruct (PyStr.truthy (date_col_name inp)
            && PyStr.mem (date_col_name inp) (columns (invoice_file inp)));
    [apply Hsplit|].
  intros H. inversion H; subst. split; reflexivity.
Qed.

(** C7, on the code: when no product column is resolved, [agg] is given a
    label that is not a column, and the run ends in an exception; the branch
    that would write N/A is never taken. *)
Theorem missing_product_column_aborts (inp : inputs) :
  physical FProduct (columns (invoice_file inp)) = None ->
  exists e, process inp = Err e.
Proof.
  intros Hnone. destruct (process inp) as [out|e] eqn:H; [|eauto].
  exfalso.
  destruct (process_inv inp out H)
    as [resa [invoices [clients [ii [ic [ie [ia [ip [Hp [_ [R _]]]]]]]]]]].
  destruct (partition_columns inp resa invoices Hp) as [_ Hc].
  pose proof (res_ip _ _ _ _ _ _ _ R) as Hip.
  unfold product_column in Hip. rewrite Hc in Hip.
  simpl in Hnone. unfold present in Hnone.
  assert (PyStr.mem (with_fallback PRODUCT is_product (columns (invoice_file inp)))
                    (columns (invoice_file inp)) = true) as Hm
    by (apply col_index_mem; eauto).
  rewrite Hm in Hnone. discriminate.
Qed.

(** *** The columns found by keyword *)


End WithLib.
End AppFacts.

(** ** The scenarios *)

Module ScenarioFacts.
Import Pandas Resolver App Plain Scenario AppFacts.

(** C1, on the code: line 201 compares the cells with 0 before lines 215-216
    turn the text into numbers, so the text 0,00 is not equal to 0 and its row
    goes through: no row of the after-cutoff table is dropped, the total of
    client 2 is 15, and the product of the zero line is in its Products
    text. *)
Theorem zero_text_amount_not_dropped :
  process zero_line
  = Ok (mkFrame RESULT_HEADER [result_row "2" 15 "Gift, Boost" "ana@example.org"])
  /\ surviving 1 2 0 (retained_of zero_line) (after_cutoff zero_line)
     = rows (after_cutoff zero_line)
  /\ map (fun r => this (amount_val (int_amounts 2 (rows (after_cutoff zero_line))) 2 r))
         (rows (after_cutoff zero_line))
     = [inject_Z 0; inject_Z 15].
Proof.
  split; [vm_compute; reflexivity|]. split; vm_compute; reflexivity.
Qed.

(** C5, on the code: line 186 looks the integer 1023 of the client table up
    among the text numbers of the before-cutoff invoices and does not find
    it, so client 1023 is retained; after line 206 its number is the text
    1023, its July invoice is summed, and the result has a row for a client
    that has an invoice before the cutoff. *)
Theorem client_with_earlier_invoice_in_result :
  (exists r, In r (rows (before_cutoff mixed_types)) /\ key 1 r = "1023")
  /\ (exists c, In c (rows (retained_of mixed_types)) /\ key 0 c = "1023")
  /\ process mixed_types
     = Ok (mkFrame RESULT_HEADER [result_row "1023" 20 "Boost" "ana@example.org"]).
Proof.
  split; [|split].
  - exists [CTime 1717200000000000000; CStr "1023"; CStr "10,50"; CStr "Gift"].
    split; [vm_compute; left; reflexivity|vm_compute; reflexivity].
  - exists [CInt 1023; CStr "ana@example.org"].
    split; [vm_compute; left; reflexivity|vm_compute; reflexivity].
  - vm_compute. reflexivity.
Qed.

Lemma missing_product_column_aborts_witness :
  physical FProduct (columns (invoice_file no_product)) = None
  /\ exists e, process no_product = Err e.
Proof.
  split; [vm_compute; reflexivity|].
  apply (missing_product_column_aborts no_product). vm_compute. reflexivity.
Defined.

Lemma no_product_outcome : process no_product = Err (KeyError PRODUCT).
Proof. vm_compute. reflexivity. Qed.

(** C4 fails as stated.  With client 2 listed twice in the client table the
    join writes its row twice, and the Total Amount column adds up to 30
    while the invoices of the retained clients add up to 15.  Without a date
    column the ledger is cut at its middle row, and exchanging its two rows
    changes the sum from 40 to 15. *)
Lemma total_revenue_counterexample :
  (exists out,
      process duplicated_client = Ok out
      /\ total_revenue out = CFloat (Q2Qc (inject_Z 30))
      /\ exact_total false 2 (revenue_rows false 1 0 2 (retained_of duplicated_client)
                                           (after_cutoff duplicated_client))
         = Q2Qc (inject_Z 15))
  /\ (exists out out',
        process (undated small_line large_line) = Ok out
        /\ process (undated large_line small_line) = Ok out'
        /\ Permutation (rows (invoice_file (undated small_line large_line)))
                       (rows (invoice_file (undated large_line small_line)))
        /\ total_revenue out = CFloat (Q2Qc (inject_Z 40))
        /\ total_revenue out' = CFloat (Q2Qc (inject_Z 15))).
Proof.
  split.
  - eexists. split; [vm_compute; reflexivity|]. split; vm_compute; reflexivity.
  - eexists _, _. split; [vm_compute; reflexivity|]. split; [vm_compute; reflexivity|].
    split; [apply perm_swap|]. split; vm_compute; reflexivity.
Qed.

(** The sums of the scenarios are exact. *)
Lemma qsum_concat (groups : list (list Qc)) :
  qsum (map qsum groups) = qsum (List.concat groups).
Proof.
  induction groups as [|g groups IH]; [reflexivity|].
  cbn [map List.concat]. rewrite qsum_app, <- IH. reflexivity.
Qed.

Lemma plain_adds_exactly (vals : list Qc) : adds_exactly vals.
Proof.
  intros groups HP. split; [reflexivity|].
  cbn [series_sum lib]. rewrite qsum_concat. apply qsum_perm. assumption.
Qed.

Lemma total_revenue_of_retained_witness :
  partition zero_line = Ok (before_cutoff zero_line, after_cutoff zero_line)
  /\ retained zero_line (before_cutoff zero_line) = Ok (retained_of zero_line)
  /\ NoDup (map (key 0) (rows (retained_of zero_line)))
  /\ exact_amounts 2 (surviving 1 2 0 (retained_of zero_line) (after_cutoff zero_line))
  /\ this (value (total_revenue
                    (mkFrame RESULT_HEADER
                       [result_row "2" 15 "Gift, Boost" "ana@example.org"])))
     = inject_Z 15
  /\ value (total_revenue
              (mkFrame RESULT_HEADER [result_row "2" 15 "Gift, Boost" "ana@example.org"]))
     = exact_total false 2
         (revenue_rows false 1 0 2 (retained_of zero_line) (after_cutoff zero_line))
  /\ exists out',
       process zero_line_swapped = Ok out'
       /\ total_revenue out'
          = total_revenue
              (mkFrame RESULT_HEADER [result_row "2" 15 "Gift, Boost" "ana@example.org"]).
Proof.
  assert (NoDup (map (key 0) (rows (retained_of zero_line)))) as Hnd.
  { vm_compute. constructor; [intros []|constructor]. }
  assert (exact_amounts 2 (surviving 1 2 0 (retained_of zero_line)
                                     (after_cutoff zero_line))) as Hex.
  { unfold exact_amounts.
    assert (int_amounts 2 (surviving 1 2 0 (retained_of zero_line)
                                     (after_cutoff zero_line)) = false) as ->
      by (vm_compute; reflexivity).
    apply plain_adds_exactly. }
  split; [vm_compute; reflexivity|]. split; [vm_compute; reflexivity|].
  split; [exact Hnd|]. split; [exact Hex|]. split; [vm_compute; reflexivity|].
  destruct (total_revenue_of_retained zero_line (before_cutoff zero_line)
              (after_cutoff zero_line) (retained_of zero_line)
              (mkFrame RESULT_HEADER [result_row "2" 15 "Gift, Boost" "ana@example.org"])
              1 0 2) as [Hsum Horder].
  - vm_compute. reflexivity.
  - vm_compute. reflexivity.
  - vm_compute. reflexivity.
  - vm_compute. reflexivity.
  - vm_compute. reflexivity.
  - exact Hnd.
  - exact Hex.
  - vm_compute. reflexivity.
  - split; [exact Hsum|].
    apply Horder.
    + vm_compute. reflexivity.
    + split; [split; [reflexivity|apply perm_swap]|].
      split; [split; [reflexivity|apply Permutation_refl]|].
      split; [split; [reflexivity|apply Permutation_refl]|].
      split; reflexivity.
    + intros i Hi. vm_compute in Hi. inversion Hi; subst i.
      split; [vm_compute; reflexivity|]. intros c _. reflexivity.
Defined.

(** C2 fails as stated.  No number is trimmed: the invoice of client C-77,
    written with a leading space in the ledger, is not matched with the
    client, and the result has client C-12 only.  Line 186 compares the cells
    as they are: the integer 1023 is not found among the text numbers, so a
    client whose text number is carried by a before-cutoff invoice is
    retained.  And line 206 writes a float number with its decimal point. *)
Lemma client_numbers_counterexample :
  process spaced_number
  = Ok (mkFrame RESULT_HEADER [result_row "C-12" 5 "Gift" "bo@example.org"])
  /\ (exists c r,
        In c (rows (retained_of mixed_types))
        /\ In r (rows (before_cutoff mixed_types))
        /\ get 0 c = CInt 1023 /\ get 1 r = CStr "1023"
        /\ key 0 c = key 1 r)
  /\ astype_str CLIENT_ID (retained_of float_number)
     = Ok (two_clients (CStr "1023.0") (CStr "nan")).
Proof.
  split; [vm_compute; reflexivity|]. split.
  - exists [CInt 1023; CStr "ana@example.org"],
           [CTime 1717200000000000000; CStr "1023"; CStr "10,50"; CStr "Gift"].
    split; [vm_compute; left; reflexivity|].
    split; [vm_compute; left; reflexivity|].
    split; [reflexivity|]. split; [reflexivity|]. vm_compute. reflexivity.
  - vm_compute. reflexivity.
Qed.

Lemma client_numbers_compared_as_text_witness :
  col_index CLIENT_ID (columns (after_cutoff mixed_types)) = Some 1%nat
  /\ col_index CLIENT_ID (columns (retained_of mixed_types)) = Some 0%nat
  /\ col_index EMAIL (columns (retained_of mixed_types)) = Some 1%nat
  /\ exists invoices' clients' kept out,
       astype_str CLIENT_ID (after_cutoff mixed_types) = Ok invoices'
       /\ astype_str CLIENT_ID (retained_of mixed_types) = Ok clients'
       /\ restrict invoices' clients' = Ok kept
       /\ merge_email (mkFrame [CLIENT_ID; "Total Amount"; "Products"]
                               [[CStr "1023"; CFloat (Q2Qc (inject_Z 20)); CStr "Boost"]])
                      clients' = Ok out
       /\ rows kept
          = map (fun r => set_nth 1 (CStr (key 1 r)) r)
                (filter (fun r => existsb (fun c => String.eqb (key 1 r) (key 0 c))
                                          (rows (retained_of mixed_types)))
                        (rows (after_cutoff mixed_types)))
       /\ rows out
          = flat_map (fun l =>
                        match filter (fun c => String.eqb (to_str (get 0 l)) (key 0 c))
                                     (rows (retained_of mixed_types)) with
                        | [] => [(l ++ [CNaN])%list]
                        | c :: cs => map (fun c' => (l ++ [get 1 c'])%list) (c :: cs)
                        end)
                     [[CStr "1023"; CFloat (Q2Qc (inject_Z 20)); CStr "Boost"]]
       /\ (forall z, to_str (CInt z) = PyStr.of_Z z)
       /\ (forall s, to_str (CStr s) = s)
       /\ to_str (CInt 1023) = to_str (CStr "1023").
Proof.
  split; [vm_compute; reflexivity|]. split; [vm_compute; reflexivity|].
  split; [vm_compute; reflexivity|].
  apply (client_numbers_compared_as_text (after_cutoff mixed_types)
           (retained_of mixed_types) 1 0 1).
  - vm_compute. reflexivity.
  - vm_compute. reflexivity.
  - vm_compute. reflexivity.
  - intros l [<-|[]]. eexists. reflexivity.
Defined.

Lemma partition_exclusive_witness :
  splits_by_date zero_line = true
  /\ In first_zero_line (rows (invoice_file zero_line))
  /\ exists date_col i,
       col_index date_col (columns (invoice_file zero_line)) = Some i
       /\ match date_error (column i (invoice_file zero_line)) with
          | Some e => partition zero_line = Err e
          | None =>
              exists resa invoices,
                partition zero_line = Ok (resa, invoices)
                /\ match to_datetime (column i (invoice_file zero_line))
                                     (get i first_zero_line) with
                   | Some t =>
                       if Z.ltb t (cutoff zero_line)
                       then In (dated i (invoice_file zero_line) first_zero_line)
                               (rows resa)
                            /\ ~ In (dated i (invoice_file zero_line) first_zero_line)
                                    (rows invoices)
                       else In (dated i (invoice_file zero_line) first_zero_line)
                               (rows invoices)
                            /\ ~ In (dated i (invoice_file zero_line) first_zero_line)
                                    (rows resa)
                   | None =>
                       ~ In (dated i (invoice_file zero_line) first_zero_line) (rows resa)
                       /\ ~ In (dated i (invoice_file zero_line) first_zero_line)
                               (rows invoices)
                   end
                /\ (List.length (rows resa) + List.length (rows invoices)
                    + List.length (filter (undated_row i (invoice_file zero_line))
                                          (rows (invoice_file zero_line)))
                    = List.length (rows (invoice_file zero_line)))%nat
          end.
Proof.
  split; [vm_compute; reflexivity|]. split; [left; reflexivity|].
  apply (partition_exclusive zero_line first_zero_line).
  - vm_compute. reflexivity.
  - left. reflexivity.
Defined.

(** The two outcomes of lines 120-124 on the scenarios: the ISO dates of
    [zero_line] are split, the dates with a UTC offset of [utc_dates] end
    the run with TypeError. *)
Lemma date_outcomes :
  partition zero_line = Ok (before_cutoff zero_line, after_cutoff zero_line)
  /\ rows (before_cutoff zero_line) = []
  /\ List.length (rows (after_cutoff zero_line)) = 2%nat
  /\ partition utc_dates = Err TypeError
  /\ process utc_dates = Err TypeError.
Proof. repeat split; vm_compute; reflexivity. Qed.

Lemma unparsable_amount_kept_witness :
  partition unparsable_amount
  = Ok (before_cutoff unparsable_amount, after_cutoff unparsable_amount)
  /\ retained unparsable_amount (before_cutoff unparsable_amount)
     = Ok (retained_of unparsable_amount)
  /\ In unparsable_line (rows (after_cutoff unparsable_amount))
  /\ to_numeric (replace_cell (get 2 unparsable_line)) = None
  /\ exists out l p items,
       process unparsable_amount = Ok out
       /\ int_amounts 2 (surviving 1 2 0 (retained_of unparsable_amount)
                                   (after_cutoff unparsable_amount)) = false
       /\ amount_cell false 2 unparsable_line = CNaN
       /\ counted false 2 unparsable_line = false
       /\ In unparsable_line
             (surviving 1 2 0 (retained_of unparsable_amount)
                        (after_cutoff unparsable_amount))
       /\ In l (rows out)
       /\ get 0 l = CStr (key 1 unparsable_line)
       /\ get 1 l = CFloat (group_sum
                     (map (amount_val false 2)
                        (filter (readable false 2)
                           (rows_of 1 (key 1 unparsable_line)
                              (surviving 1 2 0 (retained_of unparsable_amount)
                                         (after_cutoff unparsable_amount))))))
       /\ get 3 unparsable_line = CStr p
       /\ get 2 l = CStr (PyStr.join ", " items)
       /\ In p items.
Proof.
  split; [vm_compute; reflexivity|]. split; [vm_compute; reflexivity|].
  split; [vm_compute; left; reflexivity|]. split; [vm_compute; reflexivity|].
  apply (unparsable_amount_kept unparsable_amount (before_cutoff unparsable_amount)
           (after_cutoff unparsable_amount) (retained_of unparsable_amount) 1 0 1 2 3).
  - vm_compute. reflexivity.
  - vm_compute. reflexivity.
  - constructor; try (vm_compute; reflexivity). vm_compute. discriminate.
  - intros r Hr. vm_compute in Hr.
    destruct Hr as [<-|[<-|[]]]; eexists; reflexivity.
  - vm_compute. left. reflexivity.
  - vm_compute. reflexivity.
  - vm_compute. reflexivity.
Defined.

Lemma result_rows_have_surviving_invoice_witness :
  process zero_line
  = Ok (mkFrame RESULT_HEADER [result_row "2" 15 "Gift, Boost" "ana@example.org"])
  /\ exists resa invoices clients ii ic ia,
       partition zero_line = Ok (resa, invoices)
       /\ retained zero_line resa = Ok clients
       /\ col_index CLIENT_ID (columns invoices) = Some ii
       /\ col_index CLIENT_ID (columns clients) = Some ic
       /\ col_index (amount_column invoices) (columns invoices) = Some ia
       /\ (forall l,
            In l (rows (mkFrame RESULT_HEADER
                          [result_row "2" 15 "Gift, Boost" "ana@example.org"])) ->
            exists c r,
              In c (rows clients) /\ In r (rows invoices)
              /\ ne_zero (get ia r) = true
              /\ key ii r = key ic c
              /\ get 0 l = CStr (key ic c))
       /\ (forall c, In c (rows clients) ->
            (forall r, In r (rows invoices) -> ne_zero (get ia r) = true ->
                       key ii r <> key ic c) ->
            forall l,
              In l (rows (mkFrame RESULT_HEADER
                            [result_row "2" 15 "Gift, Boost" "ana@example.org"])) ->
              get 0 l <> CStr (key ic c))
       /\ (forall inp',
            columns (invoice_file inp') = columns (invoice_file zero_line) ->
            columns (boost_file inp') = columns (boost_file zero_line) ->
            date_col_name inp' = date_col_name zero_line ->
            (forall m, In m (warnings inp') -> In m (warnings zero_line))
            /\ (forall parts, partition inp' = Ok parts ->
                  warnings inp' = warnings zero_line)).
Proof.
  split; [vm_compute; reflexivity|].
  apply (result_rows_have_surviving_invoice zero_line).
  vm_compute. reflexivity.
Defined.

Lemma run_deterministic_witness :
  process zero_line
  = Ok (mkFrame RESULT_HEADER [result_row "2" 15 "Gift, Boost" "ana@example.org"])
  /\ (forall s : Script.state,
        let w := Script.mkWidgets (Some (invoice_file zero_line))
                   (Some (boost_file zero_line)) (Some (clients_file zero_line))
                   (cutoff zero_line) (date_col_name zero_line) true in
        Script.rerun w (Script.rerun w s) = Script.rerun w s
        /\ Script.shown (Script.rerun w s)
           = Some (mkFrame RESULT_HEADER
                     [result_row "2" 15 "Gift, Boost" "ana@example.org"]))
  /\ exists resa invoices clients ii ic ie ia ip,
       partition zero_line = Ok (resa, invoices)
       /\ retained zero_line resa = Ok clients
       /\ resolved invoices clients ii ic ie ia ip
       /\ mkFrame RESULT_HEADER [result_row "2" 15 "Gift, Boost" "ana@example.org"]
          = mkFrame RESULT_HEADER (summary_rows ii ic ie ia ip clients invoices)
       /\ Sorted key_le
            (result_keys (mkFrame RESULT_HEADER
                            [result_row "2" 15 "Gift, Boost" "ana@example.org"]))
       /\ forall l,
            In l (rows (mkFrame RESULT_HEADER
                          [result_row "2" 15 "Gift, Boost" "ana@example.org"])) ->
            exists k,
              In k (map (key ii) (surviving ii ia ic clients invoices))
              /\ get 0 l = CStr k
              /\ get 2 l =
                 CStr (PyStr.join ", "
                         (distinct (texts (map (get ip)
                            (rows_of ii k (surviving ii ia ic clients invoices)))))).
Proof.
  split; [vm_compute; reflexivity|].
  apply (run_deterministic zero_line).
  vm_compute. reflexivity.
Defined.


End ScenarioFacts.

(** ** More on the handler *)

Module HandlerFacts.
Import Pandas PandasFacts Resolver ResolverFacts App AppFacts Script.

Section WithLib.
Context {L : PandasLib}.

(** *** The partition *)

Lemma partition_by_index (inp : inputs) :
  splits_by_date inp = false ->
  partition inp = Ok (split_by_index (invoice_file inp)).
Proof.
  unfold splits_by_date, partition.
  destruct (filter is_date (columns (invoice_file inp))); [|discriminate].
  intros ->. reflexivity.
Qed.

(** Without a date column the ledger is cut in two at its middle row: the
    two tables put end to end are the ledger, the first has half of the rows
    (rounded down) and the second has the same number or one more. *)
Theorem index_split_halves (inp : inputs) :
  splits_by_date inp = false ->
  exists resa invoices,
    partition inp = Ok (resa, invoices)
    /\ (rows resa ++ rows invoices)%list = rows (invoice_file inp)
    /\ List.length (rows resa) = (List.length (rows (invoice_file inp)) / 2)%nat
    /\ (List.length (rows resa) <= List.length (rows invoices)
        <= S (List.length (rows resa)))%nat.
Proof.
  intros H. rewrite (partition_by_index inp H). unfold split_by_index.
  eexists _, _. split; [reflexivity|]. cbn [rows columns].
  pose proof (Nat.div_mod_eq (List.length (rows (invoice_file inp))) 2) as Hd.
  assert (List.length (rows (invoice_file inp)) mod 2 < 2)%nat as Hm
    by (apply Nat.mod_upper_bound; discriminate).
  split; [apply firstn_skipn|].
  rewrite length_firstn, length_skipn. lia.
Qed.

(** The partition raises on the dates only.  The index split never raises;
    a split on a date column raises exactly when lines 120-124 raise on that
    column, with their exception.  When the partition returns, the two
    tables have the header of the ledger, and together they have at most as
    many rows as the ledger. *)
Theorem partition_raises_on_dates_only (inp : inputs) :
  (splits_by_date inp = false -> exists parts, partition inp = Ok parts)
  /\ (forall i,
        splits_by_date inp = true ->
        col_index (date_column inp) (columns (invoice_file inp)) = Some i ->
        match date_error (column i (invoice_file inp)) with
        | Some e => partition inp = Err e
        | None => exists parts, partition inp = Ok parts
        end)
  /\ (forall e,
        partition inp = Err e ->
        splits_by_date inp = true
        /\ exists i,
             col_index (date_column inp) (columns (invoice_file inp)) = Some i
             /\ date_error (column i (invoice_file inp)) = Some e)
  /\ (forall resa invoices,
        partition inp = Ok (resa, invoices) ->
        columns resa = columns (invoice_file inp)
        /\ columns invoices = columns (invoice_file inp)
        /\ (List.length (rows resa) + List.length (rows invoices)
            <= List.length (rows (invoice_file inp)))%nat).
Proof.
  split; [|split; [|split]].
  - intros H. rewrite (partition_by_index inp H). eauto.
  - intros i H Hi. destruct (partition_date_column inp H) as [Hp _].
    rewrite (split_by_date_rows _ _ _ i Hi) in Hp.
    destruct (date_error (column i (invoice_file inp))); [assumption|eauto].
  - intros e He. destruct (splits_by_date inp) eqn:H.
    + split; [reflexivity|]. destruct (partition_date_column inp H) as [Hp [i Hi]].
      exists i. split; [assumption|].
      rewrite (split_by_date_rows _ _ _ i Hi) in Hp. rewrite Hp in He.
      destruct (date_error (column i (invoice_file inp))); [congruence|discriminate].
    + rewrite (partition_by_index inp H) in He. discriminate.
  - intros resa invoices Hp.
    destruct (partition_columns inp resa invoices Hp) as [C1 C2].
    split; [assumption|]. split; [assumption|].
    destruct (splits_by_date inp) eqn:H.
    + destruct (partition_date_column inp H) as [Hp' [i Hi]].
      rewrite (split_by_date_rows _ _ _ i Hi) in Hp'. rewrite Hp' in Hp.
      destruct (date_error (column i (invoice_file inp))); [discriminate|].
      inversion Hp; subst; clear Hp. cbn [rows]. rewrite !length_map.
      pose proof (split_count i (invoice_file inp) (cutoff inp)
                    (rows (invoice_file inp))).
      lia.
    + rewrite (partition_by_index inp H) in Hp. unfold split_by_index in Hp.
      inversion Hp; subst; clear Hp. cbn [rows].
      rewrite <- length_app, firstn_skipn. lia.
Qed.

(** When the ledger is split on a date column and lines 120-124 raise
    nothing, each row of the two tables is a row of the ledger with its date
    cell converted and its other cells untouched; the date cell is a
    timestamp, strictly before the cutoff in the first table and at or after
    the cutoff in the second. *)
Theorem partition_tables_dated (inp : inputs) (resa invoices : frame) :
  splits_by_date inp = true ->
  partition inp = Ok (resa, invoices) ->
  exists date_col i,
    col_index date_col (columns (invoice_file inp)) = Some i
    /\ date_error (column i (invoice_file inp)) = None
    /\ (forall r', In r' (rows resa) ->
         exists r t,
           In r (rows (invoice_file inp))
           /\ get i r' = CTime t /\ t < cutoff inp
           /\ forall j, j <> i -> get j r' = get j r)
    /\ (forall r', In r' (rows invoices) ->
         exists r t,
           In r (rows (invoice_file inp))
           /\ get i r' = CTime t /\ cutoff inp <= t
           /\ forall j, j <> i -> get j r' = get j r).
Proof.
  intros Hs Hok. destruct (partition_by_date inp Hs) as [date_col [i [Hi Hp]]].
  rewrite (split_by_date_rows _ _ _ i Hi) in Hp. rewrite Hp in Hok.
  exists date_col, i. split; [assumption|].
  destruct (date_error (column i (invoice_file inp))); [discriminate|].
  split; [reflexivity|]. inversion Hok; subst; clear Hok.
  cbn [rows].
  split; intros r' Hr'; apply in_map_iff in Hr'; destruct Hr' as [r [<- Hr]];
    apply filter_In in Hr; destruct Hr as [Hin Hd];
    rewrite <- dated_cell in Hd;
    destruct (get i (dated i (invoice_file inp) r)) as [| | | |t|] eqn:E;
    try discriminate; exists r, t;
    (split; [assumption|]); (split; [reflexivity|]);
    (split; [simpl in Hd; lia|]);
    intros j Hj; unfold dated; apply get_set_nth_other; congruence.
Qed.

(** *** The retained clients *)

Lemma inject_Z_Qc_inj (x y : Z) :
  Q2Qc (inject_Z x) = Q2Qc (inject_Z y) -> x = y.
Proof.
  intros H. apply (f_equal this) in H.
  change (Qred (inject_Z x) = Qred (inject_Z y)) in H.
  assert (inject_Z x == inject_Z y)%Q as E.
  { rewrite <- (Qred_correct (inject_Z x)), <- (Qred_correct (inject_Z y)), H.
    reflexivity. }
  unfold Qeq in E. simpl in E. lia.
Qed.

Ltac cell_eqs :=
  repeat match goal with
         | H : Z.eqb _ _ = true |- _ => apply Z.eqb_eq in H
         | H : String.eqb _ _ = true |- _ => apply String.eqb_eq in H
         | H : Qc_eq_bool _ _ = true |- _ => apply Qc_eq_bool_correct in H
         end;
  subst.

Lemma cell_eqb_trans (a b c : cell) :
  cell_eqb a b = true -> cell_eqb b c = true -> cell_eqb a c = true.
Proof.
  destruct a, b, c; simpl; intros H1 H2; try discriminate; try reflexivity;
    cell_eqs;
    auto using Z.eqb_refl, String.eqb_refl, Qc_eq_bool_refl.
  - apply Z.eqb_eq. apply inject_Z_Qc_inj. congruence.
Qed.

Lemma isin_trans (values : list cell) (a b : cell) :
  cell_eqb a b = true -> isin values b = true -> isin values a = true.
Proof.
  unfold isin. intros Hab H. apply existsb_exists in H. destruct H as [c [Hc Hbc]].
  apply existsb_exists. exists c. split; [assumption|].
  eapply cell_eqb_trans; eassumption.
Qed.

Lemma reconcile_filter (k resa : frame) (ic ir : nat) :
  filter (fun r => negb (isin (column ic
            (select (fun r' => isin (column ir resa) (get ic r')) k)) (get ic r)))
         (rows k)
  = filter (fun r => negb (isin (column ir resa) (get ic r))) (rows k).
Proof.
  apply filter_ext_in. intros r Hr. f_equal.
  destruct (isin (column ir resa) (get ic r)) eqn:E.
  - apply isin_In. unfold column, select. simpl. apply in_map.
    apply filter_In. auto.
  - destruct (isin (column ic (select (fun r' => isin (column ir resa) (get ic r')) k))
                   (get ic r)) eqn:E'; [|reflexivity].
    unfold isin at 1 in E'. apply existsb_exists in E'. destruct E' as [x [Hx Hrx]].
    unfold column, select in Hx. simpl in Hx. apply in_map_iff in Hx.
    destruct Hx as [c [<- Hc]]. apply filter_In in Hc. destruct Hc as [_ Hc].
    assert (isin (column ir resa) (get ic r) = true) as T
      by exact (isin_trans _ _ _ Hrx Hc).
    congruence.
Qed.

(** Lines 186-189 are one anti-join: the clients kept are the known clients
    whose number is not found, by [isin], among the numbers of the
    before-cutoff invoices, in table order; with no invoice before the cutoff
    every known client is kept. *)
Theorem reconcile_anti_join (k resa : frame) (ic ir : nat) :
  col_index CLIENT_ID (columns k) = Some ic ->
  col_index CLIENT_ID (columns resa) = Some ir ->
  exists clients,
    reconcile k resa = Ok clients
    /\ columns clients = columns k
    /\ rows clients
       = filter (fun r => negb (isin (column ir resa) (get ic r))) (rows k)
    /\ (rows resa = [] -> rows clients = rows k).
Proof.
  intros Hic Hir. unfold reconcile, loc. rewrite Hic, Hir. simpl.
  eexists. split; [reflexivity|]. simpl. split; [reflexivity|].
  rewrite reconcile_filter. split; [reflexivity|].
  intros He. apply filter_all. intros r _. unfold column. rewrite He. reflexivity.
Qed.

(** The retained clients are the rows of the client table, in table order,
    whose email is found among the emails of the contact export and whose
    number is not found among the numbers of the before-cutoff invoices. *)
Theorem retained_rows (inp : inputs) (resa clients : frame) :
  retained inp resa = Ok clients ->
  exists emails ie ic ir,
    contact_emails (boost_file inp) = Ok emails
    /\ col_index EMAIL (columns clients) = Some ie
    /\ col_index CLIENT_ID (columns clients) = Some ic
    /\ col_index CLIENT_ID (columns resa) = Some ir
    /\ rows clients
       = filter (fun r => isin emails (get ie r)
                          && negb (isin (column ir resa) (get ic r)))
                (rows (clients_file inp)).
Proof.
  unfold retained. intros H.
  destruct (contact_emails (boost_file inp)) as [emails|e]; [|discriminate].
  simpl in H.
  destruct (known_clients (clients_file inp) emails) as [k|e] eqn:Hk; [|discriminate].
  simpl in H. apply known_clients_inv in Hk.
  destruct Hk as [ie [_ [Hie [_ Hrows]]]].
  apply reconcile_inv in H. destruct H as [ic [ir [Hic [Hir [Hcols Hr]]]]].
  exists emails, ie, ic, ir. rewrite Hcols.
  split; [reflexivity|]. split; [assumption|]. split; [assumption|].
  split; [assumption|].
  rewrite Hr, reconcile_filter, Hrows. apply filter_filter_and.
Qed.

(** *** Columns the run needs *)

Lemma columns_to_keep_two (cols : list string) :
  exists a b, columns_to_keep cols = [a; b].
Proof.
  unfold columns_to_keep.
  destruct (filter (fun c => negb (PyStr.mem c cols)) [EMAIL; PRENOM_NOM]); [eauto|].
  destruct (first_match is_email cols), (first_match is_name cols); eauto.
Qed.

Lemma contact_emails_inv (df : frame) (emails : list cell) :
  contact_emails df = Ok emails ->
  forallb (fun c => PyStr.mem c (columns df)) (columns_to_keep (columns df)) = true.
Proof.
  unfold contact_emails, take.
  destruct (columns_to_keep_two (columns df)) as [a [b ->]]. simpl. unfold loc.
  destruct (col_index a (columns df)) as [i|] eqn:Ha; simpl; [|discriminate].
  destruct (col_index b (columns df)) as [j|] eqn:Hb; simpl; [|discriminate].
  intros _.
  assert (PyStr.mem a (columns df) = true) as -> by (apply col_index_mem; eauto).
  assert (PyStr.mem b (columns df) = true) as -> by (apply col_index_mem; eauto).
  reflexivity.
Qed.

Lemma rename_to_length (canonical : string) (p : string -> bool) (df : frame) :
  List.length (columns (rename_to canonical p df)) = List.length (columns df).
Proof.
  unfold rename_to. destruct (PyStr.mem canonical (columns df)); [reflexivity|].
  destruct (first_match p (columns df)); [|reflexivity].
  simpl. apply length_map.
Qed.

Lemma renamed_from_some (canonical : string) (p : string -> bool) (df : frame) (i : nat) :
  col_index canonical (columns (rename_to canonical p df)) = Some i ->
  exists c, renamed_from canonical p (columns df) = Some c.
Proof.
  intros Hi. unfold renamed_from.
  rewrite <- (rename_to_columns canonical p df (mkFrame (columns df) [])) by reflexivity.
  rewrite Hi. apply col_index_lt in Hi.
  assert (i < List.length (columns df))%nat as Hlt.
  { rewrite <- (rename_to_length canonical p df). apply nth_error_Some. congruence. }
  apply nth_error_Some in Hlt.
  destruct (nth_error (columns df) i) as [c|]; [eauto|congruence].
Qed.

(** A run that ends without exception found every column it reads: the
    ledger has a header that is exactly the canonical client number (no
    keyword search is made for it in the ledger), an amount column and a
    different product column; the contact export has the two columns kept
    from it; the client table has an email column and a client number
    column. *)
Theorem success_needs_columns (inp : inputs) (out : frame) :
  process inp = Ok out ->
  PyStr.mem CLIENT_ID (columns (invoice_file inp)) = true
  /\ (exists a p,
        physical FAmount (columns (invoice_file inp)) = Some a
        /\ physical FProduct (columns (invoice_file inp)) = Some p
        /\ a <> p)
  /\ forallb (fun c => PyStr.mem c (columns (boost_file inp)))
             (columns_to_keep (columns (boost_file inp))) = true
  /\ (exists e, physical FClientEmail (columns (clients_file inp)) = Some e)
  /\ (exists c,
        physical FClientId (columns (rename_to EMAIL is_email (clients_file inp)))
        = Some c).
Proof.
  intros H.
  destruct (process_inv inp out H)
    as [resa [invoices [clients [ii [ic [ie [ia [ip [Hp [Hr [R _]]]]]]]]]]].
  destruct (partition_columns inp resa invoices Hp) as [_ Hc].
  destruct R as [Hii _ _ Hia Hip Hd].
  unfold amount_column, product_column in *. rewrite Hc in *.
  split; [apply col_index_mem; eauto|].
  split.
  { eexists _, _. simpl.
    split; [apply present_mem, col_index_mem; eauto|].
    split; [apply present_mem, col_index_mem; eauto|assumption]. }
  unfold retained in Hr.
  destruct (contact_emails (boost_file inp)) as [emails|e] eqn:He; [|discriminate].
  simpl in Hr.
  destruct (known_clients (clients_file inp) emails) as [k|e] eqn:Hk; [|discriminate].
  simpl in Hr.
  split; [eapply contact_emails_inv; eassumption|].
  apply known_clients_inv in Hk. destruct Hk as [je [Hje [_ [Hkc _]]]].
  split; [simpl; eapply renamed_from_some; eassumption|].
  apply reconcile_inv in Hr. destruct Hr as [jc [_ [Hjc _]]].
  rewrite Hkc in Hjc. simpl. eapply renamed_from_some. eassumption.
Qed.

(** The second column kept from the contact export is read by no later
    line, yet the run needs it: when the ledger is split without exception
    and the export has neither the canonical name column nor a header
    passing the name test, line 160 raises KeyError, whether or not the
    export has an email column. *)
Theorem missing_name_column_aborts (inp : inputs) (parts : frame * frame) :
  partition inp = Ok parts ->
  PyStr.mem PRENOM_NOM (columns (boost_file inp)) = false ->
  first_match is_name (columns (boost_file inp)) = None ->
  exists key, process inp = Err (KeyError key).
Proof.
  intros Hp Hn Hf.
  unfold process. rewrite Hp. simpl.
  unfold retained, contact_emails, take.
  assert (columns_to_keep (columns (boost_file inp)) = [EMAIL; PRENOM_NOM]) as ->.
  { unfold columns_to_keep. simpl. rewrite Hn, Hf. simpl.
    destruct (negb (PyStr.mem EMAIL (columns (boost_file inp))));
      destruct (first_match is_email (columns (boost_file inp))); reflexivity. }
  simpl. unfold loc.
  destruct (PyStr.mem EMAIL (columns (boost_file inp))) eqn:He.
  - apply col_index_mem in He. destruct He as [i ->]. simpl.
    apply col_index_none in Hn. rewrite Hn. eexists. reflexivity.
  - apply col_index_none in He. rewrite He. eexists. reflexivity.
Qed.

(** When the ledger has neither the canonical amount header nor a header
    passing the amount test, line 201 raises KeyError for the canonical
    name. *)
Theorem missing_amount_column_aborts (inp : inputs) (resa invoices clients : frame) :
  partition inp = Ok (resa, invoices) ->
  retained inp resa = Ok clients ->
  physical FAmount (columns (invoice_file inp)) = None ->
  process inp = Err (KeyError AMOUNT).
Proof.
  intros Hp Hr Hnone.
  destruct (partition_columns inp resa invoices Hp) as [_ Hc].
  unfold process. rewrite Hp. simpl. rewrite Hr. simpl.
  unfold summarize, drop_zero, loc, amount_column. rewrite Hc.
  simpl in Hnone. unfold present, with_fallback in *.
  destruct (PyStr.mem AMOUNT (columns (invoice_file inp))) eqn:Hm.
  - rewrite Hm in Hnone. discriminate.
  - destruct (first_match is_amount (columns (invoice_file inp))) as [c|] eqn:Hf.
    + destruct (first_match_mem _ _ _ Hf) as [Hin _]. rewrite Hin in Hnone. discriminate.
    + apply col_index_none in Hm. rewrite Hm. reflexivity.
Qed.

(** When the amount column and the product column are one and the same
    header, the run ends in an exception. *)
Theorem shared_amount_product_column_aborts (inp : inputs) :
  with_fallback AMOUNT is_amount (columns (invoice_file inp))
  = with_fallback PRODUCT is_product (columns (invoice_file inp)) ->
  exists e, process inp = Err e.
Proof.
  intros Heq. destruct (process inp) as [out|e] eqn:H; [|eauto].
  exfalso.
  destruct (process_inv inp out H)
    as [resa [invoices [clients [ii [ic [ie [ia [ip [Hp [_ [R _]]]]]]]]]]].
  destruct (partition_columns inp resa invoices Hp) as [_ Hc].
  apply (res_distinct _ _ _ _ _ _ _ R).
  unfold amount_column, product_column. rewrite Hc. assumption.
Qed.

(** *** The result table *)

Lemma joined_retained (ic ie : nat) (clients : frame) (k : string) (l : row) :
  is_retained ic clients k = true ->
  joined ic ie clients k l
  = map (fun c => (l ++ [get ie c])%list)
        (filter (fun c => String.eqb k (key ic c)) (rows clients)).
Proof.
  intros H. unfold joined.
  destruct (filter (fun c => String.eqb k (key ic c)) (rows clients)) as [|c cs] eqn:E;
    [|reflexivity].
  apply is_retained_In in H. destruct H as [c [Hc Hk]].
  assert (In c (filter (fun c => String.eqb k (key ic c)) (rows clients))) as Hin.
  { apply filter_In. split; [assumption|]. apply String.eqb_eq. congruence. }
  rewrite E in Hin. contradiction.
Qed.

Lemma surviving_key_retained (ii ia ic : nat) (clients invoices : frame) (k : string) :
  In k (sort_keys (distinct (map (key ii) (surviving ii ia ic clients invoices)))) ->
  is_retained ic clients k = true.
Proof.
  intros Hk. apply (proj1 (group_keys_In _ _)) in Hk.
  apply in_map_iff in Hk. destruct Hk as [r [<- Hr]].
  apply surviving_In in Hr. tauto.
Qed.

(** The rows of the result, when every key is read through [joined_retained]. *)
Lemma summary_rows_retained (ii ic ie ia ip : nat) (clients invoices : frame) :
  summary_rows ii ic ie ia ip clients invoices
  = flat_map
      (fun k =>
         map (fun c => (summary_row ii ia ip (surviving ii ia ic clients invoices) k
                        ++ [get ie c])%list)
             (filter (fun c => String.eqb k (key ic c)) (rows clients)))
      (sort_keys (distinct (map (key ii) (surviving ii ia ic clients invoices)))).
Proof.
  unfold summary_rows. apply flat_map_ext_in. intros k Hk.
  apply joined_retained. eapply surviving_key_retained. eassumption.
Qed.

(** A result table has the four headers of lines 233 and 238, and each of
    its rows has four cells: the number of a retained client as text, the
    total of the surviving rows of that number, a text, and the Email cell
    of a row of the retained client table with that number (the join never
    leaves an email missing for want of a client row).  The total is a
    64-bit integer, the wrapped sum of the integers, when line 216 read
    every surviving amount as an integer; otherwise it is the float sum of
    the amounts that were read. *)
Theorem result_row_anatomy (inp : inputs) (out : frame) :
  process inp = Ok out ->
  exists resa invoices clients ii ic ie ia,
    partition inp = Ok (resa, invoices)
    /\ retained inp resa = Ok clients
    /\ col_index CLIENT_ID (columns invoices) = Some ii
    /\ col_index CLIENT_ID (columns clients) = Some ic
    /\ col_index EMAIL (columns clients) = Some ie
    /\ col_index (amount_column invoices) (columns invoices) = Some ia
    /\ columns out = RESULT_HEADER
    /\ forall l, In l (rows out) ->
         exists k c p,
           In c (rows clients)
           /\ key ic c = k
           /\ l = [CStr k;
                   if int_amounts ia (surviving ii ia ic clients invoices)
                   then CInt (wrap64 (zsum (ints (map (amount_cell true ia)
                           (rows_of ii k (surviving ii ia ic clients invoices))))))
                   else CFloat (group_sum (floats (map (amount_cell false ia)
                           (rows_of ii k (surviving ii ia ic clients invoices)))));
                   CStr p;
                   get ie c].
Proof.
  intros H.
  destruct (process_inv inp out H)
    as [resa [invoices [clients [ii [ic [ie [ia [ip [Hp [Hr [R [_ ->]]]]]]]]]]]].
  exists resa, invoices, clients, ii, ic, ie, ia.
  split; [assumption|]. split; [assumption|].
  split; [apply R|]. split; [apply R|]. split; [apply R|]. split; [apply R|].
  split; [reflexivity|].
  intros l Hl. simpl in Hl. rewrite summary_rows_retained in Hl.
  apply in_flat_map in Hl. destruct Hl as [k [_ Hl]].
  apply in_map_iff in Hl. destruct Hl as [c [<- Hc]].
  apply filter_In in Hc. destruct Hc as [Hc Hk]. apply String.eqb_eq in Hk.
  eexists k, c, _. split; [assumption|]. split; [congruence|].
  unfold summary_row, sum_amounts, sum_cells.
  destruct (int_amounts ia (surviving ii ia ic clients invoices)); reflexivity.
Qed.

(** The Products text of a result row joins a list of names without
    repetition, and the names are exactly the product names of the surviving
    rows of the client. *)
Theorem products_exact (inp : inputs) (out : frame) :
  process inp = Ok out ->
  exists resa invoices clients ii ic ia ip,
    partition inp = Ok (resa, invoices)
    /\ retained inp resa = Ok clients
    /\ col_index CLIENT_ID (columns invoices) = Some ii
    /\ col_index CLIENT_ID (columns clients) = Some ic
    /\ col_index (amount_column invoices) (columns invoices) = Some ia
    /\ col_index (product_column invoices) (columns invoices) = Some ip
    /\ forall l, In l (rows out) ->
         exists k items,
           get 0 l = CStr k
           /\ get 2 l = CStr (PyStr.join ", " items)
           /\ NoDup items
           /\ forall p, In p items <->
                        exists r, In r (surviving ii ia ic clients invoices)
                                  /\ key ii r = k /\ get ip r = CStr p.
Proof.
  intros H.
  destruct (process_inv inp out H)
    as [resa [invoices [clients [ii [ic [ie [ia [ip [Hp [Hr [R [Ht ->]]]]]]]]]]]].
  exists resa, invoices, clients, ii, ic, ia, ip.
  split; [assumption|]. split; [assumption|].
  split; [apply R|]. split; [apply R|]. split; [apply R|]. split; [apply R|].
  intros l Hl. simpl in Hl. apply summary_rows_In in Hl.
  destruct Hl as [k [e [_ ->]]].
  exists k, (texts (unique (map (get ip)
                              (rows_of ii k (surviving ii ia ic clients invoices))))).
  split; [reflexivity|]. split; [reflexivity|].
  assert (all_text (map (get ip) (rows_of ii k (surviving ii ia ic clients invoices))))
    as Hall.
  { intros c Hc. apply in_map_iff in Hc. destruct Hc as [r [<- Hr']].
    apply Ht. apply rows_of_In in Hr'. tauto. }
  split.
  - rewrite texts_unique by assumption. apply distinct_NoDup.
  - intros p. rewrite texts_In, unique_str, in_map_iff. split.
    + intros [r [Hg Hr']]. apply rows_of_In in Hr'. exists r. tauto.
    + intros [r [Hr' [Hk Hg]]]. exists r. split; [assumption|].
      apply rows_of_In. auto.
Qed.

(** Every retained client that has an after-cutoff invoice passing the zero
    filter has a row in the result.  When no two rows of the retained client
    table carry the same number, no number comes twice in the result, and the
    Total Clients metric of line 264 counts the distinct numbers of the
    surviving rows. *)
Theorem result_rows_complete (inp : inputs) (out : frame) :
  process inp = Ok out ->
  exists resa invoices clients ii ic ia,
    partition inp = Ok (resa, invoices)
    /\ retained inp resa = Ok clients
    /\ col_index CLIENT_ID (columns invoices) = Some ii
    /\ col_index CLIENT_ID (columns clients) = Some ic
    /\ col_index (amount_column invoices) (columns invoices) = Some ia
    /\ (forall c r,
          In c (rows clients) -> In r (rows invoices) ->
          ne_zero (get ia r) = true -> key ii r = key ic c ->
          exists l, In l (rows out) /\ get 0 l = CStr (key ic c))
    /\ (NoDup (map (key ic) (rows clients)) ->
        NoDup (result_keys out)
        /\ total_clients out
           = List.length (distinct (map (key ii)
                                       (surviving ii ia ic clients invoices)))).
Proof.
  intros H.
  destruct (process_inv inp out H)
    as [resa [invoices [clients [ii [ic [ie [ia [ip [Hp [Hr [R [Ht ->]]]]]]]]]]]].
  exists resa, invoices, clients, ii, ic, ia.
  split; [assumption|]. split; [assumption|].
  split; [apply R|]. split; [apply R|]. split; [apply R|]. split.
  - intros c r Hc Hin Hz Hk.
    assert (In r (surviving ii ia ic clients invoices)) as Hs.
    { apply surviving_In. split; [assumption|]. split; [assumption|].
      apply is_retained_In. exists c. auto. }
    destruct (summary_rows_complete ii ic ie ia ip clients invoices r Hs) as [e He].
    eexists. split; [exact He|]. rewrite <- Hk. reflexivity.
  - intros Hnd.
    assert (forall keys,
              (forall k, In k keys -> is_retained ic clients k = true) ->
              map (fun l => to_str (get 0 l))
                  (flat_map (fun k => joined ic ie clients k
                               (summary_row ii ia ip
                                  (surviving ii ia ic clients invoices) k)) keys)
              = keys) as Hkeys.
    { induction keys as [|k keys IH]; intros Hret; simpl; [reflexivity|].
      rewrite map_app, IH by (intros k' Hk'; apply Hret; right; assumption).
      destruct (proj1 (is_retained_In ic clients k) (Hret k (or_introl eq_refl)))
        as [c [Hc Hk]].
      unfold joined. rewrite (filter_key_NoDup ic (rows clients) k c Hnd Hc Hk).
      reflexivity. }
    specialize (Hkeys (sort_keys (distinct (map (key ii)
                                  (surviving ii ia ic clients invoices))))
                      (surviving_key_retained ii ia ic clients invoices)).
    unfold result_keys, total_clients. simpl. unfold summary_rows at 1.
    split.
    + rewrite Hkeys. eapply Permutation_NoDup;
        [apply Permutation_sym, sort_keys_perm|apply distinct_NoDup].
    + rewrite <- (length_map (fun l => to_str (get 0 l))).
      unfold summary_rows. rewrite Hkeys.
      apply Permutation_length, sort_keys_perm.
Qed.

(** A result table is empty exactly when no invoice reaches the
    aggregation. *)
Theorem result_empty_iff (inp : inputs) (out : frame) :
  process inp = Ok out ->
  exists resa invoices clients ii ic ia,
    partition inp = Ok (resa, invoices)
    /\ retained inp resa = Ok clients
    /\ col_index CLIENT_ID (columns invoices) = Some ii
    /\ col_index CLIENT_ID (columns clients) = Some ic
    /\ col_index (amount_column invoices) (columns invoices) = Some ia
    /\ (rows out = [] <->
        forall r, In r (rows invoices) ->
                  ne_zero (get ia r) = true ->
                  is_retained ic clients (key ii r) = false).
Proof.
  intros H.
  destruct (process_inv inp out H)
    as [resa [invoices [clients [ii [ic [ie [ia [ip [Hp [Hr [R [Ht ->]]]]]]]]]]]].
  exists resa, invoices, clients, ii, ic, ia.
  split; [assumption|]. split; [assumption|].
  split; [apply R|]. split; [apply R|]. split; [apply R|].
  simpl. split.
  - intros He r Hin Hz.
    destruct (is_retained ic clients (key ii r)) eqn:E; [|reflexivity].
    assert (In r (surviving ii ia ic clients invoices)) as Hs
      by (apply surviving_In; auto).
    destruct (summary_rows_complete ii ic ie ia ip clients invoices r Hs) as [e He'].
    rewrite He in He'. contradiction.
  - intros Hnone.
    destruct (summary_rows ii ic ie ia ip clients invoices) as [|l ls] eqn:E;
      [reflexivity|].
    assert (In l (summary_rows ii ic ie ia ip clients invoices)) as Hl
      by (rewrite E; left; reflexivity).
    apply summary_rows_In in Hl. destruct Hl as [k [e [Hk _]]].
    apply in_map_iff in Hk. destruct Hk as [r [_ Hs]].
    apply surviving_In in Hs. destruct Hs as [Hin [Hz Hret]].
    rewrite (Hnone r Hin Hz) in Hret. discriminate.
Qed.

(** *** The zero filter *)

Lemma blank_or_nonzero_numeric (c : cell) :
  numeric c = true -> ne_zero c = blank_or_nonzero c.
Proof.
  destruct c; simpl; try discriminate; intros _; try reflexivity.
  f_equal. destruct (Z.eqb_spec z 0) as [->|Hne]; [symmetry; apply Qc_eq_bool_refl|].
  destruct (Qc_eq_bool (Q2Qc (inject_Z z)) (Q2Qc 0)) eqn:E; [|reflexivity].
  apply Qc_eq_bool_correct in E. exfalso. apply Hne.
  apply inject_Z_Qc_inj. exact E.
Qed.

(** Line 201 on an amount column that pandas read as numbers removes
    exactly the rows whose amount is the number zero: a row it keeps has an
    amount other than zero or a blank.  On a text amount column it removes
    no row at all. *)
Theorem zero_filter_numeric_or_text (amount_col : string) (invoices : frame) (ia : nat) :
  col_index amount_col (columns invoices) = Some ia ->
  exists kept,
    drop_zero amount_col invoices = Ok kept
    /\ columns kept = columns invoices
    /\ ((forall r, In r (rows invoices) -> numeric (get ia r) = true) ->
        rows kept = filter (fun r => blank_or_nonzero (get ia r)) (rows invoices)
        /\ (forall r, In r (rows invoices) -> ~ In r (rows kept) ->
              get ia r = CInt 0 \/ get ia r = CFloat (Q2Qc 0))
        /\ forall r, In r (rows kept) ->
             get ia r = CNaN \/ value (get ia r) <> Q2Qc 0)
    /\ ((forall r, In r (rows invoices) -> exists s, get ia r = CStr s) ->
        rows kept = rows invoices).
Proof.
  intros Hia. unfold drop_zero, loc. rewrite Hia. simpl.
  eexists. split; [reflexivity|]. simpl. split; [reflexivity|]. split.
  - intros Hnum.
    assert (filter (fun r => ne_zero (get ia r)) (rows invoices)
            = filter (fun r => blank_or_nonzero (get ia r)) (rows invoices)) as E.
    { apply filter_ext_in. intros r Hr. apply blank_or_nonzero_numeric. auto. }
    rewrite E. split; [reflexivity|]. split.
    + intros r Hr Hn.
      assert (blank_or_nonzero (get ia r) = false) as Hz.
      { destruct (blank_or_nonzero (get ia r)) eqn:B; [|reflexivity].
        exfalso. apply Hn. apply filter_In. auto. }
      specialize (Hnum r Hr).
      destruct (get ia r) as [z|q| | | |]; simpl in *; try discriminate.
      * apply negb_false_iff, Qc_eq_bool_correct, inject_Z_Qc_inj in Hz.
        subst. auto.
      * apply negb_false_iff, Qc_eq_bool_correct in Hz. subst. auto.
    + intros r Hr. apply filter_In in Hr. destruct Hr as [_ Hr].
      destruct (get ia r) as [z|q| | | |] eqn:G; auto; right; intros E0;
        unfold blank_or_nonzero in Hr; rewrite E0, Qc_eq_bool_refl in Hr;
        discriminate.
  - intros Htext. apply filter_all. intros r Hr.
    destruct (Htext r Hr) as [t ->]. reflexivity.
Qed.

(** *** Warnings *)

Lemma date_warnings_inv (inp : inputs) (m : message) :
  In m (date_warnings inp) -> m = NoDateColumn \/ m = IndexSplitFallback.
Proof.
  unfold date_warnings.
  destruct (filter is_date (columns (invoice_file inp))); [|intros []].
  destruct (PyStr.truthy (date_col_name inp)
            && PyStr.mem (date_col_name inp) (columns (invoice_file inp)));
    simpl; intuition auto.
Qed.

Lemma contact_warnings_inv (inp : inputs) (m : message) :
  In m (contact_warnings inp) ->
  (exists parts, partition inp = Ok parts)
  /\ PyStr.mem EMAIL (columns (boost_file inp))
     && PyStr.mem PRENOM_NOM (columns (boost_file inp)) = false
  /\ exists missing available, m = ContactColumnsMissing missing available.
Proof.
  unfold contact_warnings.
  destruct (partition inp) as [parts|e]; [|intros []].
  intros H. split; [eauto|]. simpl in H.
  destruct (PyStr.mem EMAIL (columns (boost_file inp)));
    destruct (PyStr.mem PRENOM_NOM (columns (boost_file inp)));
    simpl in H; try contradiction; (split; [reflexivity|]);
    destruct H as [<-|[]]; eauto.
Qed.

(** The warning of line 135 is given exactly when the ledger is cut by row
    index, and then the partition is the index split; the warning of line
    128 is given exactly when no header contains the word date; the warning
    of line 151 is given exactly when lines 112-139 raise nothing and one of
    the two canonical contact headers is missing. *)
Theorem warnings_report_fallbacks (inp : inputs) :
  (In IndexSplitFallback (warnings inp) <-> splits_by_date inp = false)
  /\ (In IndexSplitFallback (warnings inp) ->
      partition inp = Ok (split_by_index (invoice_file inp)))
  /\ (In NoDateColumn (warnings inp)
      <-> first_match is_date (columns (invoice_file inp)) = None)
  /\ ((exists missing available,
         In (ContactColumnsMissing missing available) (warnings inp))
      <-> (exists parts, partition inp = Ok parts)
          /\ PyStr.mem EMAIL (columns (boost_file inp))
             && PyStr.mem PRENOM_NOM (columns (boost_file inp)) = false).
Proof.
  assert (In IndexSplitFallback (warnings inp) <-> splits_by_date inp = false) as H1.
  { unfold warnings. rewrite in_app_iff. split.
    - intros [H|H].
      + unfold date_warnings, splits_by_date in *.
        destruct (filter is_date (columns (invoice_file inp))); [|contradiction].
        destruct (PyStr.truthy (date_col_name inp)
                  && PyStr.mem (date_col_name inp) (columns (invoice_file inp)));
          [|reflexivity].
        destruct H as [H|[]]. discriminate.
      + apply contact_warnings_inv in H. destruct H as [_ [_ [m [a E]]]]. discriminate.
    - intros H. left. unfold date_warnings, splits_by_date in *.
      destruct (filter is_date (columns (invoice_file inp))); [|discriminate].
      rewrite H. right. left. reflexivity. }
  split; [exact H1|]. split; [|split].
  - intros H. apply partition_by_index. apply H1. assumption.
  - unfold warnings, first_match. rewrite in_app_iff. split.
    + intros [H|H].
      * unfold date_warnings in H.
        destruct (filter is_date (columns (invoice_file inp)));
          [reflexivity|contradiction].
      * apply contact_warnings_inv in H. destruct H as [_ [_ [m [a E]]]]. discriminate.
    + intros H. left. unfold date_warnings.
      destruct (filter is_date (columns (invoice_file inp))); [|discriminate].
      left. reflexivity.
  - unfold warnings. split.
    + intros [m [a H]]. apply in_app_iff in H. destruct H as [H|H].
      * apply date_warnings_inv in H. destruct H; discriminate.
      * apply contact_warnings_inv in H. tauto.
    + intros [[parts Hp] H]. unfold contact_warnings. rewrite Hp.
      destruct (PyStr.mem EMAIL (columns (boost_file inp))) eqn:E1;
        destruct (PyStr.mem PRENOM_NOM (columns (boost_file inp))) eqn:E2;
        try discriminate;
        eexists _, _; apply in_app_iff; right; simpl; rewrite E1, E2; simpl;
        left; reflexivity.
Qed.

(** *** Headers *)

Lemma mem_In (c : string) (cols : list string) :
  PyStr.mem c cols = true <-> In c cols.
Proof.
  unfold PyStr.mem. rewrite existsb_exists. split.
  - intros [x [Hx He]]. apply String.eqb_eq in He. subst. assumption.
  - intros H. exists c. split; [assumption|apply String.eqb_refl].
Qed.

Lemma first_match_none_iff (p : string -> bool) (cols : list string) :
  first_match p cols = None <-> forall c, In c cols -> p c = false.
Proof.
  split.
  - intros H c Hc. apply (first_match_none p cols c H). apply mem_In. assumption.
  - intros H. unfold first_match. rewrite filter_none; [reflexivity|assumption].
Qed.

Lemma renamed_from_exact (canonical : string) (p : string -> bool) (cols : list string) :
  In canonical cols -> renamed_from canonical p cols = Some canonical.
Proof.
  intros H. apply mem_In in H. unfold renamed_from, rename_to. simpl. rewrite H.
  simpl. apply col_index_mem in H. destruct H as [i Hi]. rewrite Hi.
  apply col_index_lt. assumption.
Qed.

Lemma with_fallback_exact (canonical : string) (p : string -> bool) (cols : list string) :
  In canonical cols -> present (with_fallback canonical p cols) cols = Some canonical.
Proof.
  intros H. apply mem_In in H. unfold with_fallback. rewrite H.
  apply present_mem. assumption.
Qed.

Lemma present_In (name c : string) (cols : list string) :
  present name cols = Some c -> In c cols.
Proof.
  unfold present. destruct (PyStr.mem name cols) eqn:E; [|discriminate].
  intros H. inversion H; subst. apply mem_In. assumption.
Qed.

(** The column used for a logical field is always a header of the table.
    For the client email, the client number, the amount and the product, a
    header that is exactly the canonical name is used whatever other headers
    pass the keyword test, and no column is found exactly when the canonical
    name is missing and no header passes the keyword test.  For the contact
    email the canonical header is used when both canonical contact headers
    are present. *)
Theorem resolution_exact_first (f : field) (cols : list string) :
  (forall c, physical f cols = Some c -> In c cols)
  /\ (forall n, canonical f = Some n -> f <> FContactEmail -> In n cols ->
                physical f cols = Some n)
  /\ (forall n, canonical f = Some n -> f <> FContactEmail ->
                (physical f cols = None <->
                 ~ In n cols /\ forall c, In c cols -> keyword f c = false))
  /\ (In EMAIL cols -> In PRENOM_NOM cols -> physical FContactEmail cols = Some EMAIL).
Proof.
  split; [|split; [|split]].
  - intros c. destruct f; simpl.
    + intros H. apply mem_In. apply (first_match_mem _ _ _ H).
    + apply present_In.
    + unfold renamed_from.
      destruct (col_index EMAIL (columns (rename_to EMAIL is_email (mkFrame cols []))));
        [apply nth_error_In|discriminate].
    + unfold renamed_from.
      destruct (col_index CLIENT_ID
                  (columns (rename_to CLIENT_ID is_client_num (mkFrame cols []))));
        [apply nth_error_In|discriminate].
    + apply present_In.
    + apply present_In.
  - intros n Hn Hf Hin. destruct f; simpl in *; inversion Hn; subst;
      try congruence;
      auto using renamed_from_exact, with_fallback_exact.
  - intros n Hn Hf.
    assert (forall p,
              (if PyStr.mem n cols then Some n else first_match p cols) = None <->
              ~ In n cols /\ forall c, In c cols -> p c = false) as Hgen.
    { intros p. destruct (PyStr.mem n cols) eqn:E.
      - apply mem_In in E. split; [discriminate|tauto].
      - rewrite first_match_none_iff. split; [|tauto].
        intros H. split; [|assumption]. intros Hin. apply mem_In in Hin. congruence. }
    assert (forall p, renamed_from n p cols
                      = if PyStr.mem n cols then Some n else first_match p cols) as Hren.
    { intros p. destruct (PyStr.mem n cols) eqn:E.
      - apply renamed_from_exact. apply mem_In. assumption.
      - apply renamed_from_physical. assumption. }
    assert (forall p, present (with_fallback n p cols) cols
                      = if PyStr.mem n cols then Some n else first_match p cols) as Hwf.
    { intros p. destruct (PyStr.mem n cols) eqn:E.
      - apply with_fallback_exact. apply mem_In. assumption.
      - apply with_fallback_physical. assumption. }
    destruct f; simpl in *; inversion Hn; subst; try congruence;
      rewrite ?Hren, ?Hwf; apply Hgen.
  - intros He Hn. simpl. unfold columns_to_keep. simpl.
    apply mem_In in He. apply mem_In in Hn. rewrite He, Hn. simpl.
    apply present_mem. assumption.
Qed.

(** *** Text *)

Lemma prefix_iff (needle hay : string) :
  String.prefix needle hay = true <-> exists b, hay = needle ++ b.
Proof.
  revert hay. induction needle as [|c needle IH]; intros hay.
  - split; [intros _; exists hay; reflexivity|].
    intros _. destruct hay; reflexivity.
  - destruct hay as [|d hay]; simpl.
    + split; [discriminate|intros [b H]; discriminate].
    + destruct (ascii_dec c d) as [->|Hne].
      * rewrite IH. split; intros [b H]; exists b; congruence.
      * split; [discriminate|]. intros [b H]. congruence.
Qed.

Lemma lower_ascii_idem (c : ascii) : PyStr.lower_ascii (PyStr.lower_ascii c) = PyStr.lower_ascii c.
Proof.
  destruct c as [[] [] [] [] [] [] [] []]; vm_compute; reflexivity.
Qed.

Lemma lower_idem (s : string) : PyStr.lower (PyStr.lower s) = PyStr.lower s.
Proof.
  induction s as [|c s IH]; simpl; [reflexivity|].
  rewrite lower_ascii_idem, IH. reflexivity.
Qed.

(** The test [needle in hay] of the header searches holds exactly when the
    needle occurs somewhere in the text; and since the headers are
    lower-cased first, a keyword test gives the same answer on a header and
    on its lower-case form. *)
Theorem keyword_is_substring (needle hay : string) :
  (PyStr.contains needle hay = true <-> exists a b, hay = a ++ needle ++ b)
  /\ (forall f col, keyword f (PyStr.lower col) = keyword f col).
Proof.
  split.
  - induction hay as [|c hay IH].
    + change (PyStr.contains needle "") with (String.prefix needle "").
      rewrite prefix_iff. split.
      * intros [b H]. exists "", b. assumption.
      * intros [a [b H]]. destruct a; [eauto|discriminate].
    + change (PyStr.contains needle (String c hay))
        with (String.prefix needle (String c hay) || PyStr.contains needle hay).
      rewrite orb_true_iff, IH, prefix_iff. split.
      * intros [[b H]|[a [b H]]].
        -- exists "", b. assumption.
        -- exists (String c a), b. simpl. congruence.
      * intros [a [b H]]. destruct a as [|d a]; simpl in H.
        -- left. eauto.
        -- right. inversion H. eauto.
  - intros f col.
    destruct f; unfold keyword, is_date, is_email, is_client_num, is_amount, is_product;
      rewrite lower_idem; reflexivity.
Qed.

Lemma contains_comma_cons (c : ascii) (s : string) :
  PyStr.contains "," (String c s) = Ascii.eqb c ","%char || PyStr.contains "," s.
Proof.
  change (PyStr.contains "," (String c s))
    with (String.prefix "," (String c s) || PyStr.contains "," s).
  f_equal. destruct (Ascii.eqb_spec c ","%char) as [->|Hne].
  - apply prefix_iff. exists s. reflexivity.
  - destruct (String.prefix "," (String c s)) eqn:E; [|reflexivity].
    apply prefix_iff in E. destruct E as [b E]. inversion E. congruence.
Qed.

(** Lines 214-215 keep the length of an amount text, leave no comma in it,
    change nothing when applied again and nothing in a text without comma;
    cells that are numbers are left as they are. *)
Theorem comma_replacement (s : string) :
  String.length (PyStr.replace_comma s) = String.length s
  /\ PyStr.contains "," (PyStr.replace_comma s) = false
  /\ PyStr.replace_comma (PyStr.replace_comma s) = PyStr.replace_comma s
  /\ (PyStr.contains "," s = false -> PyStr.replace_comma s = s)
  /\ (forall c, numeric c = true -> replace_cell c = c).
Proof.
  split; [|split; [|split; [|split]]].
  - induction s as [|c s IH]; simpl; congruence.
  - induction s as [|c s IH]; [reflexivity|].
    cbn [PyStr.replace_comma]. rewrite contains_comma_cons, IH, orb_false_r.
    destruct (Ascii.eqb_spec c ","%char) as [->|Hne]; [reflexivity|].
    apply Ascii.eqb_neq. assumption.
  - induction s as [|c s IH]; [reflexivity|].
    cbn [PyStr.replace_comma]. rewrite IH.
    destruct (Ascii.eqb_spec c ","%char) as [->|Hne]; [reflexivity|].
    apply Ascii.eqb_neq in Hne. rewrite Hne. reflexivity.
  - induction s as [|c s IH]; [reflexivity|].
    rewrite contains_comma_cons. intros H. apply orb_false_elim in H.
    destruct H as [Hc Hs]. cbn [PyStr.replace_comma].
    rewrite IH, Hc by assumption. reflexivity.
  - intros c Hc. destruct c; try discriminate; reflexivity.
Qed.

(** *** The session *)

Lemma shown_rerun (w : widgets) (s : state) :
  shown (rerun w s)
  = match outcome w with Some out => Some out | None => shown s end.
Proof.
  unfold rerun, outcome. destruct (button w); [|reflexivity].
  destruct (invoice_upload w), (boost_upload w), (clients_upload w); try reflexivity.
  match goal with |- context [process ?i] => destruct (process i) end; reflexivity.
Qed.

(** A run in which the button is not pressed, a file is missing or the
    handler raises leaves the session state as it was; and after any series
    of runs the results section shows the table of the latest run that
    computed one, and nothing if none did. *)
Theorem shown_is_latest_result (runs : list widgets) :
  (forall w s, outcome w = None -> rerun w s = s)
  /\ shown (replay runs initial) = latest runs None
  /\ forall s, shown (replay runs s) = latest runs (shown s).
Proof.
  assert (forall s, shown (replay runs s) = latest runs (shown s)) as H.
  { induction runs as [|w runs IH]; intros s; simpl; [reflexivity|].
    unfold replay in *. simpl. rewrite IH, shown_rerun. reflexivity. }
  split; [|split; [apply (H initial)|exact H]].
  intros w s. unfold outcome, rerun. destruct (button w); [|reflexivity].
  destruct (invoice_upload w), (boost_upload w), (clients_upload w); try reflexivity.
  match goal with |- context [process ?i] => destruct (process i) end;
    [discriminate|reflexivity].
Qed.

(** *** How often a client comes in the result *)

Lemma filter_flat_map {A B : Type} (p : B -> bool) (f : A -> list B) (l : list A) :
  filter p (flat_map f l) = flat_map (fun a => filter p (f a)) l.
Proof.
  induction l as [|a l IH]; simpl; [reflexivity|].
  rewrite filter_app, IH. reflexivity.
Qed.

Lemma flat_map_nil {A B : Type} (f : A -> list B) (l : list A) :
  (forall a, In a l -> f a = []) -> flat_map f l = [].
Proof.
  induction l as [|a l IH]; intros H; simpl; [reflexivity|].
  rewrite (H a (or_introl eq_refl)), IH; [reflexivity|].
  intros b Hb. apply H. right. assumption.
Qed.

Lemma block_filter (k k' : string) (g : row -> row) (block : list row) :
  (forall c, to_str (get 0 (g c)) = k') ->
  filter (fun l => String.eqb (to_str (get 0 l)) k) (map g block)
  = if String.eqb k' k then map g block else [].
Proof.
  intros Hg. destruct (String.eqb k' k) eqn:E.
  - apply filter_all. intros l Hl. apply in_map_iff in Hl.
    destruct Hl as [c [<- _]]. rewrite Hg. exact E.
  - apply filter_none. intros l Hl. apply in_map_iff in Hl.
    destruct Hl as [c [<- _]]. rewrite Hg. exact E.
Qed.

(** The join writes one result row per row of the retained client table
    that carries the number: a client listed n times in the client table
    and having a surviving invoice comes n times in the result, and a number
    without surviving invoice does not come at all. *)
Theorem result_row_multiplicity (inp : inputs) (out : frame) (k : string) :
  process inp = Ok out ->
  exists resa invoices clients ii ic ia,
    partition inp = Ok (resa, invoices)
    /\ retained inp resa = Ok clients
    /\ col_index CLIENT_ID (columns invoices) = Some ii
    /\ col_index CLIENT_ID (columns clients) = Some ic
    /\ col_index (amount_column invoices) (columns invoices) = Some ia
    /\ List.length (filter (fun l => String.eqb (to_str (get 0 l)) k) (rows out))
       = if PyStr.mem k (map (key ii) (surviving ii ia ic clients invoices))
         then List.length (filter (fun c => String.eqb k (key ic c)) (rows clients))
         else 0%nat.
Proof.
  intros H.
  destruct (process_inv inp out H)
    as [resa [invoices [clients [ii [ic [ie [ia [ip [Hp [Hr [R [Ht ->]]]]]]]]]]]].
  exists resa, invoices, clients, ii, ic, ia.
  split; [assumption|]. split; [assumption|].
  split; [apply R|]. split; [apply R|]. split; [apply R|].
  cbn [rows]. rewrite summary_rows_retained, filter_flat_map.
  set (s := surviving ii ia ic clients invoices).
  assert (forall keys, NoDup keys ->
            List.length
              (flat_map
                 (fun k' =>
                    filter (fun l => String.eqb (to_str (get 0 l)) k)
                      (map (fun c => (summary_row ii ia ip s k' ++ [get ie c])%list)
                           (filter (fun c => String.eqb k' (key ic c)) (rows clients))))
                 keys)
            = if PyStr.mem k keys
              then List.length (filter (fun c => String.eqb k (key ic c)) (rows clients))
              else 0%nat) as Hgen.
  { induction 1 as [|k' keys Hk' Hnd IH]; [reflexivity|].
    cbn [flat_map]. rewrite length_app, IH.
    rewrite (block_filter k k') by (intros c; reflexivity).
    unfold PyStr.mem at 2. cbn [existsb]. fold (PyStr.mem k keys).
    rewrite (String.eqb_sym k k').
    destruct (String.eqb_spec k' k) as [->|Hne]; cbn [orb].
    - rewrite !length_map.
      assert (PyStr.mem k keys = false) as ->.
      { destruct (PyStr.mem k keys) eqn:E; [|reflexivity].
        apply mem_In in E. contradiction. }
      lia.
    - reflexivity. }
  rewrite Hgen.
  - assert (PyStr.mem k (sort_keys (distinct (map (key ii) s)))
            = PyStr.mem k (map (key ii) s)) as ->; [|reflexivity].
    destruct (PyStr.mem k (map (key ii) s)) eqn:E.
    + apply mem_In. apply group_keys_In. apply mem_In. assumption.
    + destruct (PyStr.mem k (sort_keys (distinct (map (key ii) s)))) eqn:E';
        [|reflexivity].
      apply mem_In in E'. apply (proj1 (group_keys_In _ _)) in E'.
      apply mem_In in E'. congruence.
  - eapply Permutation_NoDup; [apply Permutation_sym, sort_keys_perm|apply distinct_NoDup].
Qed.

End WithLib.
End HandlerFacts.

(** ** Further scenarios, checked *)

Module CaseFacts.
Import Pandas Resolver App Plain Scenario Script Cases AppFacts HandlerFacts.

Lemma index_split_halves_witness :
  splits_by_date (undated small_line large_line) = false
  /\ exists resa invoices,
       partition (undated small_line large_line) = Ok (resa, invoices)
       /\ (rows resa ++ rows invoices)%list
          = rows (invoice_file (undated small_line large_line))
       /\ List.length (rows resa)
          = (List.length (rows (invoice_file (undated small_line large_line))) / 2)%nat
       /\ (List.length (rows resa) <= List.length (rows invoices)
           <= S (List.length (rows resa)))%nat.
Proof.
  split; [vm_compute; reflexivity|].
  apply (index_split_halves (undated small_line large_line)).
  vm_compute. reflexivity.
Defined.

Lemma partition_raises_on_dates_only_witness :
  partition utc_dates = Err TypeError
  /\ splits_by_date utc_dates = true
  /\ (exists i,
        col_index (date_column utc_dates) (columns (invoice_file utc_dates)) = Some i
        /\ date_error (column i (invoice_file utc_dates)) = Some TypeError)
  /\ columns (after_cutoff zero_line) = columns (invoice_file zero_line)
  /\ (List.length (rows (before_cutoff zero_line))
      + List.length (rows (after_cutoff zero_line))
      <= List.length (rows (invoice_file zero_line)))%nat.
Proof.
  destruct (partition_raises_on_dates_only utc_dates) as [_ [_ [Herr _]]].
  destruct (partition_raises_on_dates_only zero_line) as [_ [_ [_ Hok]]].
  assert (partition utc_dates = Err TypeError) as He by (vm_compute; reflexivity).
  assert (partition zero_line = Ok (before_cutoff zero_line, after_cutoff zero_line))
    as Hp by (vm_compute; reflexivity).
  split; [exact He|].
  split; [apply (Herr _ He)|]. split; [apply (Herr _ He)|].
  split; apply (Hok _ _ Hp).
Defined.

Lemma partition_tables_dated_witness :
  splits_by_date zero_line = true
  /\ partition zero_line = Ok (before_cutoff zero_line, after_cutoff zero_line)
  /\ exists date_col i,
       col_index date_col (columns (invoice_file zero_line)) = Some i
       /\ date_error (column i (invoice_file zero_line)) = None
       /\ (forall r', In r' (rows (before_cutoff zero_line)) ->
            exists r t,
              In r (rows (invoice_file zero_line))
              /\ get i r' = CTime t /\ t < cutoff zero_line
              /\ forall j, j <> i -> get j r' = get j r)
       /\ (forall r', In r' (rows (after_cutoff zero_line)) ->
            exists r t,
              In r (rows (invoice_file zero_line))
              /\ get i r' = CTime t /\ cutoff zero_line <= t
              /\ forall j, j <> i -> get j r' = get j r).
Proof.
  split; [vm_compute; reflexivity|]. split; [vm_compute; reflexivity|].
  apply (partition_tables_dated zero_line); vm_compute; reflexivity.
Defined.

Lemma reconcile_anti_join_witness :
  col_index CLIENT_ID (columns (clients_file mixed_types)) = Some 0%nat
  /\ col_index CLIENT_ID (columns (before_cutoff mixed_types)) = Some 1%nat
  /\ exists clients,
       reconcile (clients_file mixed_types) (before_cutoff mixed_types) = Ok clients
       /\ columns clients = columns (clients_file mixed_types)
       /\ rows clients
          = filter (fun r => negb (isin (column 1 (before_cutoff mixed_types)) (get 0 r)))
                   (rows (clients_file mixed_types))
       /\ (rows (before_cutoff mixed_types) = [] ->
           rows clients = rows (clients_file mixed_types)).
Proof.
  split; [vm_compute; reflexivity|]. split; [vm_compute; reflexivity|].
  apply (reconcile_anti_join (clients_file mixed_types) (before_cutoff mixed_types) 0 1);
    vm_compute; reflexivity.
Defined.

Lemma retained_rows_witness :
  retained zero_line (before_cutoff zero_line) = Ok (retained_of zero_line)
  /\ exists emails ie ic ir,
       contact_emails (boost_file zero_line) = Ok emails
       /\ col_index EMAIL (columns (retained_of zero_line)) = Some ie
       /\ col_index CLIENT_ID (columns (retained_of zero_line)) = Some ic
       /\ col_index CLIENT_ID (columns (before_cutoff zero_line)) = Some ir
       /\ rows (retained_of zero_line)
          = filter (fun r => isin emails (get ie r)
                             && negb (isin (column ir (before_cutoff zero_line)) (get ic r)))
                   (rows (clients_file zero_line)).
Proof.
  split; [vm_compute; reflexivity|].
  apply (retained_rows zero_line (before_cutoff zero_line) (retained_of zero_line)).
  vm_compute. reflexivity.
Defined.

Lemma success_needs_columns_witness :
  process zero_line = Ok zero_line_result
  /\ PyStr.mem CLIENT_ID (columns (invoice_file zero_line)) = true
  /\ (exists a p,
         physical FAmount (columns (invoice_file zero_line)) = Some a
         /\ physical FProduct (columns (invoice_file zero_line)) = Some p
         /\ a <> p)
  /\ forallb (fun c => PyStr.mem c (columns (boost_file zero_line)))
              (columns_to_keep (columns (boost_file zero_line))) = true
  /\ (exists e, physical FClientEmail (columns (clients_file zero_line)) = Some e)
  /\ (exists c,
         physical FClientId (columns (rename_to EMAIL is_email (clients_file zero_line)))
         = Some c).
Proof.
  split; [vm_compute; reflexivity|].
  apply (success_needs_columns zero_line zero_line_result).
  vm_compute. reflexivity.
Defined.

Lemma missing_name_column_aborts_witness :
  partition no_name_column
  = Ok (before_cutoff no_name_column, after_cutoff no_name_column)
  /\ PyStr.mem PRENOM_NOM (columns (boost_file no_name_column)) = false
  /\ first_match is_name (columns (boost_file no_name_column)) = None
  /\ exists key, process no_name_column = Err (KeyError key).
Proof.
  split; [vm_compute; reflexivity|].
  split; [vm_compute; reflexivity|]. split; [vm_compute; reflexivity|].
  apply (missing_name_column_aborts no_name_column
           (before_cutoff no_name_column, after_cutoff no_name_column));
    vm_compute; reflexivity.
Defined.

Lemma missing_amount_column_aborts_witness :
  partition no_amount = Ok (before_cutoff no_amount, after_cutoff no_amount)
  /\ retained no_amount (before_cutoff no_amount) = Ok (retained_of no_amount)
  /\ physical FAmount (columns (invoice_file no_amount)) = None
  /\ process no_amount = Err (KeyError AMOUNT).
Proof.
  split; [vm_compute; reflexivity|]. split; [vm_compute; reflexivity|].
  split; [vm_compute; reflexivity|].
  apply (missing_amount_column_aborts no_amount (before_cutoff no_amount)
           (after_cutoff no_amount) (retained_of no_amount));
    vm_compute; reflexivity.
Defined.

Lemma shared_amount_product_column_aborts_witness :
  with_fallback AMOUNT is_amount (columns (invoice_file shared_column))
  = with_fallback PRODUCT is_product (columns (invoice_file shared_column))
  /\ exists e, process shared_column = Err e.
Proof.
  split; [vm_compute; reflexivity|].
  apply (shared_amount_product_column_aborts shared_column). vm_compute. reflexivity.
Defined.

Lemma result_row_anatomy_witness :
  process zero_line = Ok zero_line_result
  /\ exists resa invoices clients ii ic ie ia,
       partition zero_line = Ok (resa, invoices)
       /\ retained zero_line resa = Ok clients
       /\ col_index CLIENT_ID (columns invoices) = Some ii
       /\ col_index CLIENT_ID (columns clients) = Some ic
       /\ col_index EMAIL (columns clients) = Some ie
       /\ col_index (amount_column invoices) (columns invoices) = Some ia
       /\ columns zero_line_result = RESULT_HEADER
       /\ forall l, In l (rows zero_line_result) ->
            exists k c p,
              In c (rows clients)
              /\ key ic c = k
              /\ l = [CStr k;
                      if int_amounts ia (surviving ii ia ic clients invoices)
                      then CInt (wrap64 (zsum (ints (map (amount_cell true ia)
                              (rows_of ii k (surviving ii ia ic clients invoices))))))
                      else CFloat (group_sum (floats (map (amount_cell false ia)
                              (rows_of ii k (surviving ii ia ic clients invoices)))));
                      CStr p;
                      get ie c].
Proof.
  split; [vm_compute; reflexivity|].
  apply (result_row_anatomy zero_line zero_line_result). vm_compute. reflexivity.
Defined.

(** The amounts of [numeric_ledger] are integers, and so is the total; the
    total of [large_amounts] wraps around. *)
Lemma integer_total :
  process numeric_ledger
  = Ok (mkFrame RESULT_HEADER
          [[CStr "2"; CInt 20; CStr "Boost"; CStr "ana@example.org"]])
  /\ process large_amounts
     = Ok (mkFrame RESULT_HEADER
             [[CStr "2"; CInt (- 2 ^ 63); CStr "Boost"; CStr "ana@example.org"]])
  /\ wrap64 (2 ^ 63 - 1 + 1) = - 2 ^ 63
  /\ float_of_int (2 ^ 53 + 1) = 2 ^ 53
  /\ float_of_int (2 ^ 53 + 3) = 2 ^ 53 + 4.
Proof. repeat split; vm_compute; reflexivity. Qed.

Lemma products_exact_witness :
  process zero_line = Ok zero_line_result
  /\ exists resa invoices clients ii ic ia ip,
       partition zero_line = Ok (resa, invoices)
       /\ retained zero_line resa = Ok clients
       /\ col_index CLIENT_ID (columns invoices) = Some ii
       /\ col_index CLIENT_ID (columns clients) = Some ic
       /\ col_index (amount_column invoices) (columns invoices) = Some ia
       /\ col_index (product_column invoices) (columns invoices) = Some ip
       /\ forall l, In l (rows zero_line_result) ->
            exists k items,
              get 0 l = CStr k
              /\ get 2 l = CStr (PyStr.join ", " items)
              /\ NoDup items
              /\ forall p, In p items <->
                           exists r, In r (surviving ii ia ic clients invoices)
                                     /\ key ii r = k /\ get ip r = CStr p.
Proof.
  split; [vm_compute; reflexivity|].
  apply (products_exact zero_line zero_line_result). vm_compute. reflexivity.
Defined.

Lemma result_rows_complete_witness :
  process zero_line = Ok zero_line_result
  /\ exists resa invoices clients ii ic ia,
       partition zero_line = Ok (resa, invoices)
       /\ retained zero_line resa = Ok clients
       /\ col_index CLIENT_ID (columns invoices) = Some ii
       /\ col_index CLIENT_ID (columns clients) = Some ic
       /\ col_index (amount_column invoices) (columns invoices) = Some ia
       /\ (forall c r,
             In c (rows clients) -> In r (rows invoices) ->
             ne_zero (get ia r) = true -> key ii r = key ic c ->
             exists l, In l (rows zero_line_result) /\ get 0 l = CStr (key ic c))
       /\ (NoDup (map (key ic) (rows clients)) ->
           NoDup (result_keys zero_line_result)
           /\ total_clients zero_line_result
              = List.length (distinct (map (key ii)
                                          (surviving ii ia ic clients invoices)))).
Proof.
  split; [vm_compute; reflexivity|].
  apply (result_rows_complete zero_line zero_line_result). vm_compute. reflexivity.
Defined.

Lemma result_empty_iff_witness :
  process zero_line = Ok zero_line_result
  /\ exists resa invoices clients ii ic ia,
       partition zero_line = Ok (resa, invoices)
       /\ retained zero_line resa = Ok clients
       /\ col_index CLIENT_ID (columns invoices) = Some ii
       /\ col_index CLIENT_ID (columns clients) = Some ic
       /\ col_index (amount_column invoices) (columns invoices) = Some ia
       /\ (rows zero_line_result = [] <->
           forall r, In r (rows invoices) ->
                     ne_zero (get ia r) = true ->
                     is_retained ic clients (key ii r) = false).
Proof.
  split; [vm_compute; reflexivity|].
  apply (result_empty_iff zero_line zero_line_result). vm_compute. reflexivity.
Defined.

Lemma result_row_multiplicity_witness :
  process duplicated_client
  = Ok (mkFrame RESULT_HEADER [result_row "2" 15 "Boost" "ana@example.org";
                               result_row "2" 15 "Boost" "ana@example.org"])
  /\ exists resa invoices clients ii ic ia,
       partition duplicated_client = Ok (resa, invoices)
       /\ retained duplicated_client resa = Ok clients
       /\ col_index CLIENT_ID (columns invoices) = Some ii
       /\ col_index CLIENT_ID (columns clients) = Some ic
       /\ col_index (amount_column invoices) (columns invoices) = Some ia
       /\ List.length
            (filter (fun l => String.eqb (to_str (get 0 l)) "2")
               (rows (mkFrame RESULT_HEADER
                        [result_row "2" 15 "Boost" "ana@example.org";
                         result_row "2" 15 "Boost" "ana@example.org"])))
          = if PyStr.mem "2" (map (key ii) (surviving ii ia ic clients invoices))
            then List.length (filter (fun c => String.eqb "2" (key ic c)) (rows clients))
            else 0%nat.
Proof.
  split; [vm_compute; reflexivity|].
  apply (result_row_multiplicity duplicated_client _ "2"). vm_compute. reflexivity.
Defined.

Lemma zero_filter_numeric_or_text_witness :
  col_index AMOUNT (columns (after_cutoff float_ledger)) = Some 2%nat
  /\ (forall r, In r (rows (after_cutoff float_ledger)) -> numeric (get 2 r) = true)
  /\ exists kept,
       drop_zero AMOUNT (after_cutoff float_ledger) = Ok kept
       /\ columns kept = columns (after_cutoff float_ledger)
       /\ map (get 2) (rows kept) = [CNaN; CFloat (Q2Qc (inject_Z 5))]
       /\ forall r, In r (rows kept) -> get 2 r = CNaN \/ value (get 2 r) <> Q2Qc 0.
Proof.
  assert (forall r, In r (rows (after_cutoff float_ledger)) -> numeric (get 2 r) = true)
    as Hnum.
  { intros r Hr. vm_compute in Hr. destruct Hr as [<-|[<-|[<-|[]]]]; reflexivity. }
  split; [vm_compute; reflexivity|]. split; [exact Hnum|].
  destruct (zero_filter_numeric_or_text AMOUNT (after_cutoff float_ledger) 2)
    as [kept [Hk [Hc [Hn _]]]]; [vm_compute; reflexivity|].
  destruct (Hn Hnum) as [Hrows [_ Hkept]].
  exists kept. split; [exact Hk|]. split; [exact Hc|].
  split; [rewrite Hrows; vm_compute; reflexivity|exact Hkept].
Defined.

Lemma warnings_report_fallbacks_witness :
  In IndexSplitFallback (warnings (undated small_line large_line))
  /\ partition (undated small_line large_line)
     = Ok (split_by_index (invoice_file (undated small_line large_line)))
  /\ PyStr.mem EMAIL (columns (boost_file utc_no_name_column))
     && PyStr.mem PRENOM_NOM (columns (boost_file utc_no_name_column)) = false
  /\ ~ (exists missing available,
          In (ContactColumnsMissing missing available) (warnings utc_no_name_column)).
Proof.
  assert (In IndexSplitFallback (warnings (undated small_line large_line))) as H
    by (vm_compute; right; left; reflexivity).
  split; [exact H|]. split.
  - apply (proj1 (proj2 (warnings_report_fallbacks (undated small_line large_line)))).
    exact H.
  - split; [vm_compute; reflexivity|]. intros Hw.
    apply (proj1 (proj2 (proj2 (proj2 (warnings_report_fallbacks utc_no_name_column)))))
      in Hw.
    destruct Hw as [[parts Hp] _]. vm_compute in Hp. discriminate.
Defined.

Lemma resolution_exact_first_witness :
  In AMOUNT ["Montant HT"; AMOUNT]
  /\ physical FAmount ["Montant HT"; AMOUNT] = Some AMOUNT.
Proof.
  assert (In AMOUNT ["Montant HT"; AMOUNT]) as H by (right; left; reflexivity).
  split; [exact H|].
  apply (proj1 (proj2 (resolution_exact_first FAmount ["Montant HT"; AMOUNT])) AMOUNT).
  - reflexivity.
  - discriminate.
  - exact H.
Defined.

Lemma comma_replacement_witness :
  PyStr.contains "," "1500" = false /\ PyStr.replace_comma "1500" = "1500".
Proof.
  assert (PyStr.contains "," "1500" = false) as H by (vm_compute; reflexivity).
  split; [exact H|].
  apply (proj1 (proj2 (proj2 (proj2 (comma_replacement "1500"))))). exact H.
Defined.

Lemma shown_is_latest_result_witness :
  outcome bad_run = None
  /\ rerun bad_run (rerun good_run initial) = rerun good_run initial
  /\ shown (replay [good_run; bad_run; idle_run] initial) = Some zero_line_result.
Proof.
  assert (outcome bad_run = None) as H by (vm_compute; reflexivity).
  destruct (shown_is_latest_result [good_run; bad_run; idle_run]) as [H1 [H2 _]].
  split; [exact H|]. split; [apply H1; exact H|].
  rewrite H2. vm_compute. reflexivity.
Defined.

End CaseFacts.
